(** * Signed-action pipeline and position state machines of the trading bots

    A shallow embedding of [ultimate_scalping_bot.py], [order_book_hunter.py]
    and [experimental_color_trader.py]: the byte-level hashing and signing of
    exchange actions, the decimal formatting of prices and sizes, and the
    in-memory position bookkeeping of the two bots that keep one.

    Python values are a small universe [pyval]; floats are IEEE-754 binary64
    numbers ([spec_float] at precision 53); exceptions, the bot fields and the
    calls that leave the process (clock, exchange, price feed, sleeping) are
    threaded through one state-and-error monad whose log records every such
    call in order.

    The later parts cover the scalping strategy around the grouped order,
    the hunter's analysis of the order book, the reading of the [.env] file
    and the colour trader's way from a colour to a signal. *)

From Stdlib Require Import ZArith NArith List String Ascii Bool Lia Sorted.
From Stdlib Require Import Floats.SpecFloat.
Import ListNotations.

Open Scope Z_scope.

(** ** Text helpers *)

Module Text.

Definition chars (s : string) : list ascii := list_ascii_of_string s.
Definition text (l : list ascii) : string := string_of_list_ascii l.

Definition code (c : ascii) : Z := Z.of_nat (nat_of_ascii c).

Definition is_digit (c : ascii) : bool := (48 <=? code c) && (code c <=? 57).

Definition digit_char (d : N) : ascii := ascii_of_N (48 + d).
Definition digit_val (c : ascii) : N := N_of_ascii c - 48.

(** Decimal digits of [n], most significant first, pushed in front of
    [acc]; [fuel] bounds the number of digits. *)
Fixpoint digits_fuel (fuel : nat) (n : N) (acc : list ascii) : list ascii :=
  match fuel with
  | O => acc
  | S f =>
      let acc' := digit_char (n mod 10) :: acc in
      if (n / 10 =? 0)%N then acc' else digits_fuel f (n / 10)%N acc'
  end.

(** [str(n)] for a natural number. *)
Definition digits (n : N) : list ascii := digits_fuel (S (N.size_nat n)) n [].

(** [str(n)] for an integer. *)
Definition digits_Z (n : Z) : list ascii :=
  ((if n <? 0 then ["-"%char] else []) ++ digits (Z.to_N (Z.abs n)))%list.

(** Exactly [k] digits of [n mod 10^k], zero padded on the left. *)
Fixpoint digits_pad (k : nat) (n : N) (acc : list ascii) : list ascii :=
  match k with
  | O => acc
  | S k' => digits_pad k' (n / 10)%N (digit_char (n mod 10) :: acc)
  end.

Definition step (a : N) (c : ascii) : N := (10 * a + digit_val c)%N.

(** Value of a digit string read after the prefix value [a]. *)
Definition dec_val (cs : list ascii) (a : N) : N := fold_left step cs a.

Fixpoint span (p : ascii -> bool) (l : list ascii) : list ascii * list ascii :=
  match l with
  | [] => ([], [])
  | c :: r => if p c then let '(a, b) := span p r in (c :: a, b) else ([], l)
  end.

Definition hex_char (d : Z) : ascii :=
  if d <? 10 then ascii_of_N (Z.to_N (48 + d)) else ascii_of_N (Z.to_N (87 + d)).

(** Value of a hexadecimal digit, either case. *)
Definition hex_val (c : ascii) : option Z :=
  let k := code c in
  if (48 <=? k) && (k <=? 57) then Some (k - 48)
  else if (97 <=? k) && (k <=? 102) then Some (k - 87)
  else if (65 <=? k) && (k <=? 70) then Some (k - 55)
  else None.

(** Lower-case hexadecimal digits of [n], most significant first. *)
Fixpoint hex_fuel (fuel : nat) (n : Z) (acc : list ascii) : list ascii :=
  match fuel with
  | O => acc
  | S f =>
      let acc' := hex_char (n mod 16) :: acc in
      if n / 16 =? 0 then acc' else hex_fuel f (n / 16) acc'
  end.

Definition hex_digits (n : Z) : list ascii := hex_fuel (S (Z.to_nat (Z.log2 n))) n [].

(** Two hexadecimal digits per byte. *)
Definition hex_of_bytes (bs : list Z) : list ascii :=
  flat_map (fun b => [hex_char (b / 16); hex_char (b mod 16)]) bs.

Definition bytes_of_string (s : string) : list Z := map code (chars s).

(** Python's [Py_ISSPACE]: space, tab, newline, vertical tab, form feed,
    carriage return. *)
Definition is_space (c : ascii) : bool :=
  let k := code c in (k =? 32) || ((9 <=? k) && (k <=? 13)).

End Text.

(** ** Python floats: IEEE-754 binary64 *)

Module F.

Definition prec : Z := 53.
Definition emax : Z := 1024.

Definition float := spec_float.

Definition add (x y : float) : float := SFadd prec emax x y.
Definition sub (x y : float) : float := SFsub prec emax x y.
Definition mul (x y : float) : float := SFmul prec emax x y.
(** IEEE division; Python's [/] first raises on a zero divisor. *)
Definition div (x y : float) : float := SFdiv prec emax x y.
Definition abs (x : float) : float := SFabs x.
Definition opp (x : float) : float := SFopp x.
Definition ltb (x y : float) : bool := SFltb x y.
Definition leb (x y : float) : bool := SFleb x y.
Definition eqb (x y : float) : bool := SFeqb x y.
Definition gtb (x y : float) : bool := SFltb y x.
Definition geb (x y : float) : bool := SFleb y x.

Definition is_zero (x : float) : bool :=
  match x with S754_zero _ => true | _ => false end.

Definition is_finite (x : float) : bool :=
  match x with S754_zero _ | S754_finite _ _ _ => true | _ => false end.

(** A finite value whose mantissa and exponent are those of a binary64. *)
Definition wf (x : float) : bool := is_finite x && valid_binary prec emax x.

Definition sign_bit (x : float) : bool :=
  match x with
  | S754_zero s | S754_infinity s | S754_finite s _ _ => s
  | S754_nan => false
  end.

(** [float(n)] for an integer that fits (nearest, ties to even). *)
Definition of_Z (n : Z) : float := binary_normalize prec emax n 0 false.

(** Nearest binary64 to [num / den]. *)
Definition of_ratio (neg : bool) (num den : positive) : float :=
  let '(q, e, l) := SFdiv_core_binary prec emax (Zpos num) 0 (Zpos den) 0 in
  binary_round_aux prec emax neg q e l.

(** Nearest binary64 to [c * 10^e10], what [float(str)] computes from a
    decimal literal. *)
Definition of_decimal (neg : bool) (c : N) (e10 : Z) : float :=
  match c with
  | N0 => S754_zero neg
  | Npos p =>
      if 0 <=? e10 then binary_round prec emax neg (p * Z.to_pos (10 ^ e10)) 0
      else of_ratio neg p (Z.to_pos (10 ^ (- e10)))
  end.

(** Quotient of [num / den] rounded to the nearest integer, ties to even. *)
Definition div_half_even (num den : Z) : Z :=
  let q := num / den in
  match 2 * (num mod den) ?= den with
  | Lt => q
  | Gt => q + 1
  | Eq => if Z.even q then q else q + 1
  end.

(** [|x| * 10^d] rounded to the nearest integer, ties to even, computed on
    the exact binary value: the digits printed by ["%.df"] and used by
    [round(x, d)]. *)
Definition scaled (d : nat) (x : float) : N :=
  match x with
  | S754_finite _ m e =>
      if 0 <=? e then Z.to_N (Zpos m * 2 ^ e * 10 ^ Z.of_nat d)
      else Z.to_N (div_half_even (Zpos m * 10 ^ Z.of_nat d) (2 ^ (- e)))
  | _ => 0%N
  end.

(** The text ["<int>.<d digits>"] of a scaled magnitude. *)
Definition fixed_digits (d : nat) (n : N) : list ascii :=
  let p := (10 ^ N.of_nat d)%N in
  match d with
  | O => Text.digits n
  | S _ => (Text.digits (n / p) ++ "."%char :: Text.digits_pad d (n mod p) [])%list
  end.

(** [f"{x:.{d}f}"]. *)
Definition format_fixed (d : nat) (x : float) : string :=
  match x with
  | S754_nan => "nan"
  | S754_infinity s => if s then "-inf" else "inf"
  | _ =>
      Text.text ((if sign_bit x then ["-"%char] else []) ++ fixed_digits d (scaled d x))
  end.

(** [round(x, d)] for [0 <= d] small: the decimal rounding of [x] read back
    as a float; non-finite values are returned unchanged. *)
Definition round_to (d : nat) (x : float) : float :=
  match x with
  | S754_finite s _ _ => of_decimal s (scaled d x) (- Z.of_nat d)
  | _ => x
  end.

(** [int(x)]: truncation toward zero of a finite float. *)
Definition trunc (x : float) : option Z :=
  match x with
  | S754_zero _ => Some 0
  | S754_finite s m e =>
      let a := if 0 <=? e then Zpos m * 2 ^ e else Zpos m / 2 ^ (- e) in
      Some (if s then - a else a)
  | _ => None
  end.

End F.

(** ** Decimal literals, [float(str)] and the [decimal] module *)

Module Num.

Import Text.

(** What a numeric literal denotes: [(-1)^neg * coeff * 10^exp10], an
    infinity or a NaN. *)
Inductive numeral :=
| Fin (neg : bool) (coeff : N) (exp10 : Z)
| Inf (neg : bool)
| NaN.

Definition lower (c : ascii) : ascii :=
  let k := code c in
  if (65 <=? k) && (k <=? 90) then ascii_of_N (Z.to_N (k + 32)) else c.

Definition all_space (cs : list ascii) : bool := forallb is_space cs.

Definition split_sign (cs : list ascii) : bool * list ascii :=
  match cs with
  | "-"%char :: r => (true, r)
  | "+"%char :: r => (false, r)
  | _ => (false, cs)
  end.

(** The optional exponent part and the trailing blanks. *)
Definition parse_exponent (cs : list ascii) : option Z :=
  match cs with
  | c :: r =>
      if Ascii.eqb (lower c) "e"%char then
        let '(neg, r1) := split_sign r in
        let '(ds, r2) := span is_digit r1 in
        match ds with
        | [] => None
        | _ =>
            if all_space r2
            then Some (if neg then - Z.of_N (dec_val ds 0) else Z.of_N (dec_val ds 0))
            else None
        end
      else if all_space cs then Some 0 else None
  | [] => Some 0
  end.

(** Digits, an optional fraction, an optional exponent. *)
Definition parse_unsigned (neg : bool) (cs : list ascii) : option numeral :=
  let '(ip, r) := span is_digit cs in
  let '(fp, r') :=
    match r with
    | "."%char :: fr => span is_digit fr
    | _ => ([], r)
    end in
  match ip, fp with
  | [], [] => None
  | _, _ =>
      match parse_exponent r' with
      | Some e => Some (Fin neg (dec_val fp (dec_val ip 0)) (e - Z.of_nat (List.length fp)))
      | None => None
      end
  end.

Definition parse_special (neg : bool) (cs : list ascii) : option numeral :=
  let '(w, r) := span (fun c => negb (is_space c)) (map lower cs) in
  if all_space r then
    if (String.eqb (text w) "inf" || String.eqb (text w) "infinity")%bool then Some (Inf neg)
    else if String.eqb (text w) "nan" then Some NaN
    else None
  else None.

(** The literals accepted by [float(s)] and [Decimal(s)]: blanks around an
    optionally signed decimal number, infinity or NaN.  Digit-group
    underscores, which Python also accepts, are not modelled: such strings
    are rejected here. *)
Definition parse (s : string) : option numeral :=
  let '(_, cs) := span is_space (chars s) in
  let '(neg, body) := split_sign cs in
  match parse_unsigned neg body with
  | Some n => Some n
  | None => parse_special neg body
  end.

(** [float(s)]; [None] stands for [ValueError]. *)
Definition float_of_string (s : string) : option F.float :=
  match parse s with
  | Some (Fin neg c e) => Some (F.of_decimal neg c e)
  | Some (Inf neg) => Some (S754_infinity neg)
  | Some NaN => Some S754_nan
  | None => None
  end.

End Num.

Module Dec.

Import Text.

(** A [decimal.Decimal]: sign, coefficient and exponent, or a special. *)
Inductive decimal :=
| D (neg : bool) (coeff : N) (exp : Z)
| DInf (neg : bool)
| DNaN.

(** [Decimal(s)]: exact, no rounding; [None] stands for
    [decimal.InvalidOperation]. *)
Definition of_string (s : string) : option decimal :=
  match Num.parse s with
  | Some (Num.Fin neg c e) => Some (D neg c e)
  | Some (Num.Inf neg) => Some (DInf neg)
  | Some Num.NaN => Some DNaN
  | None => None
  end.

(** Precision of the default context. *)
Definition context_prec : nat := 28.

Definition ndigits (c : N) : nat := List.length (digits c).

(** Rounding to the context precision, ties to even ([Decimal._fix] with
    the default context, away from its exponent limits). *)
Definition fix_prec (c : N) (e : Z) : N * Z :=
  let n := ndigits c in
  if Nat.leb n context_prec then (c, e)
  else
    let k := Z.of_nat (n - context_prec) in
    let c' := Z.to_N (F.div_half_even (Z.of_N c) (10 ^ k)) in
    if Nat.leb (ndigits c') context_prec then (c', e + k)
    else ((c' / 10)%N, e + k + 1).

(** Removal of the trailing zeros of a non-zero coefficient. *)
Fixpoint strip_zeros (fuel : nat) (c : N) (e : Z) : N * Z :=
  match fuel with
  | O => (c, e)
  | S f => if (c mod 10 =? 0)%N then strip_zeros f (c / 10)%N (e + 1) else (c, e)
  end.

(** [Decimal.normalize()] in the default context. *)
Definition normalize (d : decimal) : decimal :=
  match d with
  | D neg c e =>
      let '(c1, e1) := fix_prec c e in
      if (c1 =? 0)%N then D neg 0 0
      else let '(c2, e2) := strip_zeros (ndigits c1) c1 e1 in D neg c2 e2
  | _ => d
  end.

(** [f"{d:f}"]: positional notation without exponent. *)
Definition format_f (d : decimal) : string :=
  match d with
  | DNaN => "NaN"
  | DInf neg => if neg then "-Infinity" else "Infinity"
  | D neg c e =>
      let sign := if neg then ["-"%char] else [] in
      let body :=
        if 0 <=? e then (digits c ++ repeat "0"%char (Z.to_nat e))%list
        else
          let k := Z.to_nat (- e) in
          let p := (10 ^ N.of_nat k)%N in
          (digits (c / p) ++ "."%char :: digits_pad k (c mod p) [])%list in
      text (sign ++ body)
  end.

End Dec.

(** ** Python values, exceptions and the dynamic operations the bots use *)

#[local] Unset Elimination Schemes.

Inductive pyval :=
| PNone
| PBool (b : bool)
| PInt (n : Z)
| PFloat (x : F.float)
| PStr (s : string)
| PBytes (bs : list Z)
| PList (l : list pyval)
| PDict (kv : list (string * pyval)).

#[local] Set Elimination Schemes.

(** Exception classes; all derive from [Exception]. *)
Inductive exn :=
| ValueError
| TypeError
| KeyError
| IndexError
| AttributeError
| ZeroDivisionError
| OverflowError
| InvalidOperation
| RequestException.

Inductive outcome (A : Type) :=
| Val (a : A)
| Exc (e : exn).

Arguments Val {A} a.
Arguments Exc {A} e.

Module Py.

Definition bind {A B} (m : outcome A) (k : A -> outcome B) : outcome B :=
  match m with
  | Val a => k a
  | Exc e => Exc e
  end.

Definition of_option {A} (e : exn) (o : option A) : outcome A :=
  match o with
  | Some a => Val a
  | None => Exc e
  end.

(** Dictionary lookup, first binding of the key. *)
Fixpoint lookup (k : string) (kv : list (string * pyval)) : option pyval :=
  match kv with
  | [] => None
  | (k', v) :: r => if String.eqb k k' then Some v else lookup k r
  end.

Definition is_str (k : string) (v : pyval) : bool :=
  match v with
  | PStr s => String.eqb k s
  | _ => false
  end.

Fixpoint prefix_of (p s : list ascii) : bool :=
  match p, s with
  | [], _ => true
  | a :: p', b :: s' => Ascii.eqb a b && prefix_of p' s'
  | _ :: _, [] => false
  end.

Fixpoint substring_of (p s : list ascii) : bool :=
  prefix_of p s || match s with [] => false | _ :: s' => substring_of p s' end.

(** [bool(v)]. *)
Definition truthy (v : pyval) : bool :=
  match v with
  | PNone => false
  | PBool b => b
  | PInt n => negb (n =? 0)
  | PFloat x => negb (F.is_zero x)
  | PStr s => negb (String.eqb s "")
  | PBytes bs => match bs with [] => false | _ => true end
  | PList l => match l with [] => false | _ => true end
  | PDict kv => match kv with [] => false | _ => true end
  end.

(** ['k' in v] for a string literal ['k']. *)
Definition contains (k : string) (v : pyval) : outcome bool :=
  match v with
  | PDict kv => Val (match lookup k kv with Some _ => true | None => false end)
  | PList l => Val (existsb (is_str k) l)
  | PStr s => Val (substring_of (Text.chars k) (Text.chars s))
  | _ => Exc TypeError
  end.

(** [v['k']]. *)
Definition item (v : pyval) (k : string) : outcome pyval :=
  match v with
  | PDict kv => of_option KeyError (lookup k kv)
  | _ => Exc TypeError
  end.

(** [v[0]]. *)
Definition first (v : pyval) : outcome pyval :=
  match v with
  | PList l => match l with x :: _ => Val x | [] => Exc IndexError end
  | PStr s => match s with String c _ => Val (PStr (String c "")) | EmptyString => Exc IndexError end
  | PBytes bs => match bs with b :: _ => Val (PInt b) | [] => Exc IndexError end
  | PDict _ => Exc KeyError
  | _ => Exc TypeError
  end.

(** [v.get('k', d)]. *)
Definition get (v : pyval) (k : string) (d : pyval) : outcome pyval :=
  match v with
  | PDict kv => Val (match lookup k kv with Some x => x | None => d end)
  | _ => Exc AttributeError
  end.

(** The items visited by [for x in v]. *)
Definition iter (v : pyval) : outcome (list pyval) :=
  match v with
  | PList l => Val l
  | PDict kv => Val (map (fun p => PStr (fst p)) kv)
  | PStr s => Val (map (fun c => PStr (String c "")) (Text.chars s))
  | PBytes bs => Val (map PInt bs)
  | _ => Exc TypeError
  end.

(** [len(v)]. *)
Definition len (v : pyval) : outcome Z :=
  match v with
  | PList l => Val (Z.of_nat (List.length l))
  | PDict kv => Val (Z.of_nat (List.length kv))
  | PStr s => Val (Z.of_nat (String.length s))
  | PBytes bs => Val (Z.of_nat (List.length bs))
  | _ => Exc TypeError
  end.

Definition is_dict (v : pyval) : bool :=
  match v with PDict _ => true | _ => false end.

(** [float(n)] for an integer: [OverflowError] past the float range. *)
Definition float_of_int (n : Z) : outcome F.float :=
  match F.of_Z n with
  | S754_infinity _ => Exc OverflowError
  | x => Val x
  end.

(** [float(v)]. *)
Definition to_float (v : pyval) : outcome F.float :=
  match v with
  | PFloat x => Val x
  | PInt n => float_of_int n
  | PBool b => Val (F.of_Z (if b then 1 else 0))
  | PStr s => of_option ValueError (Num.float_of_string s)
  | _ => Exc TypeError
  end.

(** [x / y] on floats. *)
Definition truediv (x y : F.float) : outcome F.float :=
  if F.is_zero y then Exc ZeroDivisionError else Val (F.div x y).

(** [int(x)] for a float. *)
Definition int_of_float (x : F.float) : outcome Z :=
  match x with
  | S754_nan => Exc ValueError
  | S754_infinity _ => Exc OverflowError
  | _ => of_option ValueError (F.trunc x)
  end.

(** [max(a, b)] on floats: [b] only when [b > a]. *)
Definition max (a b : F.float) : F.float := if F.gtb b a then b else a.

(** [min(a, b)] on floats: [b] only when [b < a]. *)
Definition min (a b : F.float) : F.float := if F.ltb b a then b else a.

(** Big-endian digits of [n] in base 256, [k] of them. *)
Fixpoint be_bytes (k : nat) (n : Z) : list Z :=
  match k with
  | O => []
  | S k' => (n / 256 ^ Z.of_nat k') mod 256 :: be_bytes k' n
  end.

(** [n.to_bytes(k, "big")], unsigned. *)
Definition to_bytes (k : nat) (n : Z) : outcome (list Z) :=
  if (0 <=? n) && (n <? 256 ^ Z.of_nat k) then Val (be_bytes k n) else Exc OverflowError.

(** [s.removeprefix("0x")]. *)
Definition removeprefix_0x (s : string) : string :=
  match s with
  | String "0" (String "x" r) => r
  | _ => s
  end.

(** [bytes.fromhex]: pairs of hexadecimal digits, blanks allowed between
    the pairs. *)
Fixpoint fromhex_chars (fuel : nat) (cs : list ascii) : option (list Z) :=
  match fuel with
  | O => match cs with [] => Some [] | _ => None end
  | S f =>
      match cs with
      | [] => Some []
      | c :: r =>
          if Text.is_space c then fromhex_chars f r
          else
            match Text.hex_val c, r with
            | Some hi, c2 :: r2 =>
                match Text.hex_val c2, fromhex_chars f r2 with
                | Some lo, Some bs => Some (16 * hi + lo :: bs)
                | _, _ => None
                end
            | _, _ => None
            end
      end
  end.

Definition fromhex (s : string) : outcome (list Z) :=
  of_option ValueError (fromhex_chars (String.length s) (Text.chars s)).

(** [eth_utils.to_hex] of a byte string. *)
Definition to_hex_bytes (bs : list Z) : string :=
  Text.text ("0"%char :: "x"%char :: Text.hex_of_bytes bs).

(** [eth_utils.to_hex] of an integer: [hex(n)]. *)
Definition to_hex_int (n : Z) : string :=
  Text.text ((if n <? 0 then ["-"%char] else []) ++ "0"%char :: "x"%char :: Text.hex_digits (Z.abs n)).

End Py.

Declare Scope py_scope.
Delimit Scope py_scope with py.
Notation "x <- m ;; k" := (Py.bind m (fun x => k))
  (at level 61, m at next level, right associativity) : py_scope.

(** ** [msgpack.packb] *)

Module Msgpack.

Import Py.
Local Open Scope py_scope.

(** Nesting depth accepted by the packer. *)
Definition recurse_limit : nat := 512.

Definition pack_int (n : Z) : outcome (list Z) :=
  if 0 <=? n then
    if n <? 128 then Val [n]
    else if n <? 2 ^ 8 then Val (204 :: be_bytes 1 n)
    else if n <? 2 ^ 16 then Val (205 :: be_bytes 2 n)
    else if n <? 2 ^ 32 then Val (206 :: be_bytes 4 n)
    else if n <? 2 ^ 64 then Val (207 :: be_bytes 8 n)
    else Exc OverflowError
  else
    if -32 <=? n then Val [256 + n]
    else if - 2 ^ 7 <=? n then Val (208 :: be_bytes 1 (2 ^ 8 + n))
    else if - 2 ^ 15 <=? n then Val (209 :: be_bytes 2 (2 ^ 16 + n))
    else if - 2 ^ 31 <=? n then Val (210 :: be_bytes 4 (2 ^ 32 + n))
    else if - 2 ^ 63 <=? n then Val (211 :: be_bytes 8 (2 ^ 64 + n))
    else Exc OverflowError.

(** The 64 bits of a binary64. *)
Definition float_bits (x : F.float) : Z :=
  let sign (s : bool) := if s then 2 ^ 63 else 0 in
  match x with
  | S754_zero s => sign s
  | S754_infinity s => sign s + 2047 * 2 ^ 52
  | S754_nan => 2047 * 2 ^ 52 + 2 ^ 51
  | S754_finite s m e =>
      if Zpos m <? 2 ^ 52 then sign s + Zpos m
      else sign s + (e + 1075) * 2 ^ 52 + (Zpos m - 2 ^ 52)
  end.

(** Headers of strings, byte strings, arrays and maps of [n] items. *)
Definition str_header (n : Z) : outcome (list Z) :=
  if n <? 32 then Val [160 + n]
  else if n <? 2 ^ 8 then Val (217 :: be_bytes 1 n)
  else if n <? 2 ^ 16 then Val (218 :: be_bytes 2 n)
  else if n <? 2 ^ 32 then Val (219 :: be_bytes 4 n)
  else Exc ValueError.

Definition bin_header (n : Z) : outcome (list Z) :=
  if n <? 2 ^ 8 then Val (196 :: be_bytes 1 n)
  else if n <? 2 ^ 16 then Val (197 :: be_bytes 2 n)
  else if n <? 2 ^ 32 then Val (198 :: be_bytes 4 n)
  else Exc ValueError.

Definition array_header (n : Z) : outcome (list Z) :=
  if n <? 16 then Val [144 + n]
  else if n <? 2 ^ 16 then Val (220 :: be_bytes 2 n)
  else if n <? 2 ^ 32 then Val (221 :: be_bytes 4 n)
  else Exc ValueError.

Definition map_header (n : Z) : outcome (list Z) :=
  if n <? 16 then Val [128 + n]
  else if n <? 2 ^ 16 then Val (222 :: be_bytes 2 n)
  else if n <? 2 ^ 32 then Val (223 :: be_bytes 4 n)
  else Exc ValueError.

Definition pack_str (s : string) : outcome (list Z) :=
  let bs := Text.bytes_of_string s in
  h <- str_header (Z.of_nat (List.length bs)) ;; Val (h ++ bs)%list.

(** [Packer._pack] with the default options ([use_bin_type], doubles);
    strings are taken as their UTF-8 bytes; [limit] is the nesting depth
    still allowed. *)
Fixpoint pack (limit : nat) (v : pyval) : outcome (list Z) :=
  match limit with
  | O => Exc ValueError
  | S l =>
      match v with
      | PNone => Val [192]
      | PBool b => Val [if b then 195 else 194]
      | PInt n => pack_int n
      | PFloat x => Val (203 :: be_bytes 8 (float_bits x))
      | PStr s => pack_str s
      | PBytes bs =>
          h <- bin_header (Z.of_nat (List.length bs)) ;; Val (h ++ bs)%list
      | PList items =>
          h <- array_header (Z.of_nat (List.length items)) ;;
          body <- (fix pack_items (xs : list pyval) : outcome (list Z) :=
                     match xs with
                     | [] => Val []
                     | x :: r =>
                         a <- pack l x ;; b <- pack_items r ;; Val (a ++ b)%list
                     end) items ;;
          Val (h ++ body)%list
      | PDict kv =>
          h <- map_header (Z.of_nat (List.length kv)) ;;
          body <- (fix pack_pairs (xs : list (string * pyval)) : outcome (list Z) :=
                     match xs with
                     | [] => Val []
                     | (k, x) :: r =>
                         a <- pack_str k ;; b <- pack l x ;; c <- pack_pairs r ;;
                         Val (a ++ b ++ c)%list
                     end) kv ;;
          Val (h ++ body)%list
      end
  end.

Definition packb (v : pyval) : outcome (list Z) := pack recurse_limit v.

End Msgpack.

(** ** Keccak-256 ([eth_utils.crypto.keccak]) *)

Module Keccak.

Definition mask64 : Z := 2 ^ 64 - 1.

Definition rotl (x n : Z) : Z :=
  Z.land (Z.lor (Z.shiftl x n) (Z.shiftr x (64 - n))) mask64.

(** The lane at column [x], row [y] of a 5x5 state stored row by row. *)
Definition lane (st : list Z) (x y : Z) : Z :=
  nth (Z.to_nat (x mod 5 + 5 * (y mod 5))) st 0.

Definition rotation_offsets : list Z :=
  [ 0;  1; 62; 28; 27;
   36; 44;  6; 55; 20;
    3; 10; 43; 25; 39;
   41; 45; 15; 21;  8;
   18;  2; 61; 56; 14].

Definition round_constants : list Z :=
  [0x0000000000000001; 0x0000000000008082; 0x800000000000808A; 0x8000000080008000;
   0x000000000000808B; 0x0000000080000001; 0x8000000080008081; 0x8000000000008009;
   0x000000000000008A; 0x0000000000000088; 0x0000000080008009; 0x000000008000000A;
   0x000000008000808B; 0x800000000000008B; 0x8000000000008089; 0x8000000000008003;
   0x8000000000008002; 0x8000000000000080; 0x000000000000800A; 0x800000008000000A;
   0x8000000080008081; 0x8000000000008080; 0x0000000080000001; 0x8000000080008008].

Definition cells : list Z := map Z.of_nat (seq 0 25).

Definition theta (st : list Z) : list Z :=
  let c x := fold_left Z.lxor (map (lane st x) [1; 2; 3; 4]) (lane st x 0) in
  let d x := Z.lxor (c (x - 1)) (rotl (c (x + 1)) 1) in
  map (fun i => Z.lxor (nth (Z.to_nat i) st 0) (d (i mod 5))) cells.

(** Rotation of every lane and transposition: the lane of [(x, y)] moves
    to [(y, 2x + 3y)]. *)
Definition rho_pi (st : list Z) : list Z :=
  map (fun i =>
         let x := i mod 5 in
         let y := i / 5 in
         let sx := (x + 3 * y) mod 5 in
         rotl (lane st sx x) (nth (Z.to_nat (sx + 5 * x)) rotation_offsets 0))
      cells.

Definition chi (st : list Z) : list Z :=
  map (fun i =>
         let x := i mod 5 in
         let y := i / 5 in
         Z.lxor (lane st x y)
                (Z.land (Z.lxor (lane st (x + 1) y) mask64) (lane st (x + 2) y)))
      cells.

Definition iota (rc : Z) (st : list Z) : list Z :=
  match st with
  | a :: r => Z.lxor a rc :: r
  | [] => []
  end.

Definition round (st : list Z) (rc : Z) : list Z :=
  iota rc (chi (rho_pi (theta st))).

Definition keccak_f (st : list Z) : list Z := fold_left round round_constants st.

(** Rate of Keccak-256 in bytes. *)
Definition rate : nat := 136.

(** Little-endian value of a byte list. *)
Fixpoint le_value (bs : list Z) : Z :=
  match bs with
  | [] => 0
  | b :: r => b + 256 * le_value r
  end.

Fixpoint le_bytes (k : nat) (n : Z) : list Z :=
  match k with
  | O => []
  | S k' => n mod 256 :: le_bytes k' (n / 256)
  end.

(** The lanes of one block: 8 bytes each. *)
Fixpoint lanes_of (fuel : nat) (bs : list Z) : list Z :=
  match fuel, bs with
  | S f, _ :: _ => le_value (firstn 8 bs) :: lanes_of f (skipn 8 bs)
  | _, _ => []
  end.

Fixpoint xor_into (st blk : list Z) : list Z :=
  match st, blk with
  | a :: st', b :: blk' => Z.lxor a b :: xor_into st' blk'
  | _, _ => st
  end.

(** Multi-rate padding with the Keccak domain byte: [0x01 ... 0x80]. *)
Definition pad (msg : list Z) : list Z :=
  let q := (rate - (List.length msg mod rate))%nat in
  match q with
  | S O => msg ++ [129]
  | _ => msg ++ 1 :: repeat 0 (q - 2) ++ [128]
  end%list.

Fixpoint absorb (fuel : nat) (st : list Z) (bs : list Z) : list Z :=
  match fuel, bs with
  | S f, _ :: _ =>
      absorb f (keccak_f (xor_into st (lanes_of 17 (firstn rate bs)))) (skipn rate bs)
  | _, _ => st
  end.

(** The 32-byte digest. *)
Definition keccak (msg : list Z) : list Z :=
  let p := pad msg in
  let st := absorb (List.length p) (repeat 0 25) p in
  firstn 32 (flat_map (le_bytes 8) st).

End Keccak.

(** ** The signer ([eth_account]) *)

Record signed_message := { sig_r : Z; sig_s : Z; sig_v : Z }.

(** The account object built from the private key: [encode_typed_data]
    turns a typed-data dictionary into the bytes to sign, [sign_message]
    signs them. *)
Class Account := {
  encode_typed_data : pyval -> outcome (list Z);
  sign_message : list Z -> outcome signed_message
}.

(** ** The world outside the process and the monad of bot code *)

Inductive http_response :=
| HttpFail                                  (* [requests.post] raises *)
| HttpReply (status : Z) (body : option pyval).
                                            (* [body = None]: the text is not JSON *)

Inductive signal := LONG | SHORT.

(** Answers of the environment, by call number: wall-clock readings of
    [time.time()], replies of the exchange endpoint to each posted payload,
    results of [info.all_mids()], and what the screen classifier yields
    ([None]: no image; [Some None]: no clear colour). *)
Record world := {
  clock : nat -> F.float;
  exchange : nat -> pyval -> http_response;
  all_mids : nat -> outcome pyval;
  screen : nat -> option (option signal)
}.

(** Calls that leave the process. *)
Inductive event :=
| Post (payload : pyval)      (* POST to the exchange endpoint *)
| Mids                        (* price query on the info endpoint *)
| Sleep (seconds : F.float).  (* [asyncio.sleep] / [time.sleep] *)

(** Call counters and the log of events, most recent first. *)
Record io := {
  clock_reads : nat;
  posts : nat;
  mids_calls : nat;
  captures : nat;
  log : list event
}.

Definition io_start : io :=
  {| clock_reads := 0; posts := 0; mids_calls := 0; captures := 0; log := [] |}.

(** The events in the order they happened. *)
Definition history (i : io) : list event := rev (log i).

Module M.

(** Bot code over fields [S]: a result or an exception, the fields and
    the io state after it. *)
Definition t (S A : Type) : Type := S -> io -> outcome A * S * io.

Definition ret {S A} (a : A) : t S A := fun s i => (Val a, s, i).

Definition raise {S A} (e : exn) : t S A := fun s i => (Exc e, s, i).

Definition bind {S A B} (m : t S A) (k : A -> t S B) : t S B :=
  fun s i =>
    match m s i with
    | (Val a, s', i') => k a s' i'
    | (Exc e, s', i') => (Exc e, s', i')
    end.

(** A pure computation that may raise. *)
Definition lift {S A} (o : outcome A) : t S A := fun s i => (o, s, i).

Definition get {S} : t S S := fun s i => (Val s, s, i).

Definition modify {S} (f : S -> S) : t S unit := fun s i => (Val tt, f s, i).

(** [try: m except Exception: h]. *)
Definition try_except {S A} (m : t S A) (h : exn -> t S A) : t S A :=
  fun s i =>
    match m s i with
    | (Val a, s', i') => (Val a, s', i')
    | (Exc e, s', i') => h e s' i'
    end.

(** [try: m finally: f]: [f] runs on every exit of [m]. *)
Definition try_finally {S A} (m : t S A) (f : t S unit) : t S A :=
  fun s i =>
    match m s i with
    | (r, s', i') =>
        match f s' i' with
        | (Val _, s'', i'') => (r, s'', i'')
        | (Exc e, s'', i'') => (Exc e, s'', i'')
        end
    end.

Section Calls.

Variable w : world.
Context {S : Type}.

(** [time.time()]. *)
Definition now : t S F.float :=
  fun s i =>
    (Val (clock w (clock_reads i)), s,
     {| clock_reads := Datatypes.S (clock_reads i); posts := posts i;
        mids_calls := mids_calls i; captures := captures i; log := log i |}).

(** [requests.post(url, headers=..., json=payload)]. *)
Definition post (payload : pyval) : t S http_response :=
  fun s i =>
    let i' := {| clock_reads := clock_reads i; posts := Datatypes.S (posts i);
                 mids_calls := mids_calls i; captures := captures i;
                 log := Post payload :: log i |} in
    match exchange w (posts i) payload with
    | HttpFail => (Exc RequestException, s, i')
    | r => (Val r, s, i')
    end.

(** [self.info.all_mids()]. *)
Definition fetch_mids : t S pyval :=
  fun s i =>
    (all_mids w (mids_calls i), s,
     {| clock_reads := clock_reads i; posts := posts i;
        mids_calls := Datatypes.S (mids_calls i); captures := captures i;
        log := Mids :: log i |}).

(** Screen capture and colour classification of one tick. *)
Definition capture : t S (option (option signal)) :=
  fun s i =>
    (Val (screen w (captures i)), s,
     {| clock_reads := clock_reads i; posts := posts i;
        mids_calls := mids_calls i; captures := Datatypes.S (captures i);
        log := log i |}).

Definition sleep (seconds : F.float) : t S unit :=
  fun s i =>
    (Val tt, s,
     {| clock_reads := clock_reads i; posts := posts i;
        mids_calls := mids_calls i; captures := captures i;
        log := Sleep seconds :: log i |}).

End Calls.

(** [response.json()]. *)
Definition json {S} (r : http_response) : t S pyval :=
  match r with
  | HttpReply _ (Some body) => ret body
  | _ => raise ValueError
  end.

Definition status_code (r : http_response) : Z :=
  match r with
  | HttpReply c _ => c
  | HttpFail => 0
  end.

End M.

Declare Scope bot_scope.
Delimit Scope bot_scope with bot.
Notation "x <- m ;; k" := (M.bind m (fun x => k))
  (at level 61, m at next level, right associativity) : bot_scope.
Notation "m ;;; k" := (M.bind m (fun _ => k))
  (at level 61, right associativity) : bot_scope.

(** Float literals of the sources. *)
Module Lit.
Definition f0_01 := F.of_decimal false 1 (-2).
Definition f0_10 := F.of_decimal false 10 (-2).
Definition f0_50 := F.of_decimal false 50 (-2).
Definition f0_99 := F.of_decimal false 99 (-2).
Definition f1_01 := F.of_decimal false 101 (-2).
Definition f1_67 := F.of_decimal false 167 (-2).
Definition f0_25 := F.of_decimal false 25 (-2).
Definition f0_125 := F.of_decimal false 125 (-3).
Definition f0_31 := F.of_decimal false 31 (-2).
Definition f0_5 := F.of_decimal false 5 (-1).
Definition f1e_12 := F.of_decimal false 1 (-12).
Definition f1 := F.of_Z 1.
Definition f2 := F.of_Z 2.
Definition f5 := F.of_Z 5.
Definition f10 := F.of_Z 10.
Definition f30 := F.of_Z 30.
Definition f100 := F.of_Z 100.
Definition f300 := F.of_Z 300.
Definition f500 := F.of_Z 500.
Definition f1000 := F.of_Z 1000.
Definition f4000 := F.of_Z 4000.
End Lit.

Inductive direction := long | short.

Definition direction_eqb (a b : direction) : bool :=
  match a, b with
  | long, long | short, short => true
  | _, _ => false
  end.

(** [d.upper()] on a stored direction: [AttributeError] on [None]. *)
Definition upper (d : option direction) : outcome string :=
  match d with
  | Some long => Val "LONG"%string
  | Some short => Val "SHORT"%string
  | None => Exc AttributeError
  end.

(** The expression
    [result.get('response', {}).get('data', {}).get('statuses', [])]. *)
Definition statuses_of (result : pyval) : outcome pyval :=
  (r <- Py.get result "response" (PDict []) ;;
   d <- Py.get r "data" (PDict []) ;;
   Py.get d "statuses" (PList []))%py.

(** [result.get('status') == 'ok']. *)
Definition status_ok (result : pyval) : outcome bool :=
  (st <- Py.get result "status" PNone ;; Val (Py.is_str "ok" st))%py.

(** [int(time.time() * 1000)] for a clock reading [t]. *)
Definition millis (t : F.float) : outcome Z := Py.int_of_float (F.mul t Lit.f1000).

(** The request body [{action, nonce, signature, vaultAddress}]. *)
Definition envelope (action : pyval) (nonce : Z) (signature vault : pyval) : pyval :=
  PDict [("action", action); ("nonce", PInt nonce);
         ("signature", signature); ("vaultAddress", vault)]%string.

Definition limit_order (a : Z) (b : bool) (p s : string) (r : bool) (tif : string) : pyval :=
  PDict [("a", PInt a); ("b", PBool b); ("p", PStr p); ("s", PStr s); ("r", PBool r);
         ("t", PDict [("limit", PDict [("tif", PStr tif)])])]%string.

Definition trigger_order (a : Z) (b : bool) (p s : string) (r : bool)
           (trigger_px tpsl : string) : pyval :=
  PDict [("a", PInt a); ("b", PBool b); ("p", PStr p); ("s", PStr s); ("r", PBool r);
         ("t", PDict [("trigger", PDict [("isMarket", PBool true);
                                         ("triggerPx", PStr trigger_px);
                                         ("tpsl", PStr tpsl)])])]%string.

Definition order_action (orders : list pyval) (grouping : string) : pyval :=
  PDict [("type", PStr "order"); ("orders", PList orders);
         ("grouping", PStr grouping)]%string.

(** ** [ultimate_scalping_bot.py] *)

Module Scalper.

Local Open Scope string_scope.

Definition asset_index : Z := 5.

(** [round_float]: the 8-decimal text of [x], refused when the float read
    back from it is [1e-12] or more away from [x]. *)
Definition round_float (x : F.float) : outcome string :=
  (let rounded := F.format_fixed 8 x in
   back <- Py.of_option ValueError (Num.float_of_string rounded) ;;
   if F.geb (F.abs (F.sub back x)) Lit.f1e_12 then Exc ValueError
   else
     let rounded := if String.eqb rounded "-0" then "0" else rounded in
     d <- Py.of_option InvalidOperation (Dec.of_string rounded) ;;
     Val (Dec.format_f (Dec.normalize d)))%py.

(** [hash_action]: the same text in the three files. *)
Definition hash_action (action : pyval) (vault : option string) (nonce : Z)
  : outcome (list Z) :=
  (data <- Msgpack.packb action ;;
   nb <- Py.to_bytes 8 nonce ;;
   let data := (data ++ nb)%list in
   match vault with
   | None => Val (Keccak.keccak (data ++ [0]))
   | Some v =>
       let data := (data ++ [1])%list in
       vb <- Py.fromhex (Py.removeprefix_0x v) ;;
       Val (Keccak.keccak (data ++ vb))
   end)%py.

(** The typed-data dictionary built by [sign_action] around [msg]. *)
Definition typed_data (msg : pyval) : pyval :=
  PDict
    [("domain",
      PDict [("chainId", PInt 1337);
             ("name", PStr "Exchange");
             ("verifyingContract", PStr "0x0000000000000000000000000000000000000000");
             ("version", PStr "1")]);
     ("types",
      PDict [("Agent",
              PList [PDict [("name", PStr "source"); ("type", PStr "string")];
                     PDict [("name", PStr "connectionId"); ("type", PStr "bytes32")]]);
             ("EIP712Domain",
              PList [PDict [("name", PStr "name"); ("type", PStr "string")];
                     PDict [("name", PStr "version"); ("type", PStr "string")];
                     PDict [("name", PStr "chainId"); ("type", PStr "uint256")];
                     PDict [("name", PStr "verifyingContract"); ("type", PStr "address")]])]);
     ("primaryType", PStr "Agent");
     ("message", msg)].

Section WithAccount.

Context {account : Account}.

(** [sign_inner]: the same text in the three files. *)
Definition sign_inner (data : pyval) : outcome pyval :=
  (encodes <- encode_typed_data data ;;
   signed <- sign_message encodes ;;
   Val (PDict [("r", PStr (Py.to_hex_int (sig_r signed)));
               ("s", PStr (Py.to_hex_int (sig_s signed)));
               ("v", PInt (sig_v signed))]))%py.

(** [sign_action] of the scalping bot and the order-book hunter: the
    hash goes into the message as raw bytes. *)
Definition sign_action (action : pyval) (vault : option string) (nonce : Z)
           (is_mainnet : bool) : outcome pyval :=
  (h <- hash_action action vault nonce ;;
   let msg := PDict [("source", PStr (if is_mainnet then "a" else "b"));
                     ("connectionId", PBytes h)] in
   sign_inner (typed_data msg))%py.

Variable w : world.

Local Open Scope bot_scope.

(** [place_grouped_order]: the order id of a resting entry, [True] for
    any other accepted submission, [False] otherwise. *)
Definition place_grouped_order (entry_price position_size tp_price sl_price : F.float)
  : M.t unit pyval :=
  p0 <- M.lift (round_float entry_price) ;;
  s0 <- M.lift (round_float position_size) ;;
  p1 <- M.lift (round_float (F.sub sl_price Lit.f1)) ;;
  s1 <- M.lift (round_float position_size) ;;
  t1 <- M.lift (round_float sl_price) ;;
  p2 <- M.lift (round_float tp_price) ;;
  s2 <- M.lift (round_float position_size) ;;
  t2 <- M.lift (round_float tp_price) ;;
  let orders :=
    [limit_order asset_index true p0 s0 false "Gtc";
     trigger_order asset_index false p1 s1 true t1 "sl";
     trigger_order asset_index false p2 s2 true t2 "tp"] in
  let action := order_action orders "normalTpsl" in
  t <- M.now w ;;
  nonce <- M.lift (millis t) ;;
  signature <- M.lift (sign_action action None nonce true) ;;
  let payload := envelope action nonce signature PNone in
  M.try_except
    (response <- M.post w payload ;;
     if (M.status_code response =? 200)%Z then
       result <- M.json response ;;
       ok <- M.lift (status_ok result) ;;
       if ok then
         statuses <- M.lift (statuses_of result) ;;
         if Py.truthy statuses then
           st0 <- M.lift (Py.first statuses) ;;
           if Py.is_dict st0 then
             resting <- M.lift (Py.contains "resting" st0) ;;
             if resting then
               M.lift (r <- Py.item st0 "resting" ;; Py.item r "oid")%py
             else M.ret (PBool true)
           else M.ret (PBool true)
         else M.ret (PBool true)
       else M.ret (PBool false)
     else M.ret (PBool false))
    (fun _ => M.ret (PBool false)).

End WithAccount.

End Scalper.

(** ** [order_book_hunter.py] *)

Module Hunter.

Local Open Scope string_scope.

Definition asset_index : Z := 5.
Definition base_position_usd : F.float := Lit.f300.
Definition max_position_usd : F.float := Lit.f500.
Definition tp_percentage : F.float := Lit.f0_25.
Definition sl_percentage : F.float := Lit.f0_10.
Definition time_stop_seconds : F.float := Lit.f30.

(** The position-tracking fields of [OrderBookHunter]. *)
Record state := {
  position_open : bool;
  entry_time : option F.float;
  entry_price : option F.float;
  entry_order_data : pyval;
  position_direction : option direction;
  position_size : option F.float
}.

Definition initial : state :=
  {| position_open := false; entry_time := None; entry_price := None;
     entry_order_data := PNone; position_direction := None; position_size := None |}.

Definition set_fill (data : pyval) (s : state) : state :=
  {| position_open := position_open s; entry_time := entry_time s;
     entry_price := entry_price s; entry_order_data := data;
     position_direction := position_direction s; position_size := position_size s |}.

Definition set_size (x : option F.float) (s : state) : state :=
  {| position_open := position_open s; entry_time := entry_time s;
     entry_price := entry_price s; entry_order_data := entry_order_data s;
     position_direction := position_direction s; position_size := x |}.

Definition set_direction (d : option direction) (s : state) : state :=
  {| position_open := position_open s; entry_time := entry_time s;
     entry_price := entry_price s; entry_order_data := entry_order_data s;
     position_direction := d; position_size := position_size s |}.

Definition set_open (b : bool) (s : state) : state :=
  {| position_open := b; entry_time := entry_time s;
     entry_price := entry_price s; entry_order_data := entry_order_data s;
     position_direction := position_direction s; position_size := position_size s |}.

Definition set_entry_time (t : option F.float) (s : state) : state :=
  {| position_open := position_open s; entry_time := t;
     entry_price := entry_price s; entry_order_data := entry_order_data s;
     position_direction := position_direction s; position_size := position_size s |}.

Definition set_entry_price (p : option F.float) (s : state) : state :=
  {| position_open := position_open s; entry_time := entry_time s;
     entry_price := p; entry_order_data := entry_order_data s;
     position_direction := position_direction s; position_size := position_size s |}.

(** The order-book snapshot fields read by [enter_position]. *)
Record snapshot := {
  imbalance_ratio : F.float;
  best_bid : F.float;
  best_ask : F.float
}.

(** The same text as in the scalping bot. *)
Definition round_float := Scalper.round_float.
Definition hash_action := Scalper.hash_action.

Section WithAccount.

Context {account : Account}.
Variable w : world.

Definition sign_inner := Scalper.sign_inner.
Definition sign_action := Scalper.sign_action.

Local Open Scope bot_scope.

Definition get_current_price : M.t state (option F.float) :=
  M.try_except
    (mids <- M.fetch_mids w ;;
     sol_price <- M.lift (v <- Py.item mids "SOL" ;; Py.to_float v)%py ;;
     M.ret (Some sol_price))
    (fun _ => M.ret None).

(** Signing and posting of one action; [place_order_raw] and
    [place_grouped_order] differ in the grouping and in what they do
    with a 200 reply. *)
Definition submit (action : pyval) : M.t state http_response :=
  t <- M.now w ;;
  nonce <- M.lift (millis t) ;;
  signature <- M.lift (sign_action action None nonce true) ;;
  M.post w (envelope action nonce signature PNone).

Definition http_error (response : http_response) : pyval :=
  PDict [("status", PStr "error");
         ("error", PStr ("HTTP " ++ Text.text (Text.digits_Z (M.status_code response))))].

Definition place_order_raw (order : pyval) : M.t state pyval :=
  response <- submit (order_action [order] "na") ;;
  if (M.status_code response =? 200)%Z then M.json response
  else M.ret (http_error response).

Definition place_grouped_order (orders : list pyval) : M.t state pyval :=
  response <- submit (order_action orders "normalTpsl") ;;
  if (M.status_code response =? 200)%Z then
    result <- M.json response ;;
    ok <- M.lift (status_ok result) ;;
    (if ok then _ <- M.lift (statuses_of result) ;; M.ret tt else M.ret tt) ;;;
    M.ret result
  else M.ret (http_error response).

Definition enter_position (direction : direction) (snap : snapshot) : M.t state unit :=
  M.try_except
    (let imbalance_strength := F.abs (F.sub (imbalance_ratio snap) Lit.f1) in
     let size_multiplier := Py.min (F.div imbalance_strength Lit.f2) Lit.f1_67 in
     let position_usd := F.mul base_position_usd size_multiplier in
     let position_usd := Py.min position_usd max_position_usd in
     let is_buy := direction_eqb direction long in
     let entry := if is_buy then best_ask snap else best_bid snap in
     let up pct := F.add Lit.f1 (F.div pct Lit.f100) in
     let down pct := F.sub Lit.f1 (F.div pct Lit.f100) in
     let tp_price :=
       F.round_to 2 (F.mul entry (if is_buy then up tp_percentage else down tp_percentage)) in
     let sl_price :=
       F.round_to 2 (F.mul entry (if is_buy then down sl_percentage else up sl_percentage)) in
     q <- M.lift (Py.truediv position_usd entry) ;;
     let size := F.round_to 2 q in
     p0 <- M.lift (round_float
                     (F.add entry (if is_buy then Lit.f0_10 else F.opp Lit.f0_10))) ;;
     s0 <- M.lift (round_float size) ;;
     p1 <- M.lift (round_float
                     (if is_buy then F.add sl_price Lit.f1 else F.sub sl_price Lit.f1)) ;;
     s1 <- M.lift (round_float size) ;;
     t1 <- M.lift (round_float sl_price) ;;
     p2 <- M.lift (round_float tp_price) ;;
     s2 <- M.lift (round_float size) ;;
     t2 <- M.lift (round_float tp_price) ;;
     let orders :=
       [limit_order asset_index is_buy p0 s0 false "Ioc";
        trigger_order asset_index (negb is_buy) p1 s1 true t1 "sl";
        trigger_order asset_index (negb is_buy) p2 s2 true t2 "tp"] in
     order_result <- place_grouped_order orders ;;
     ok <- M.lift (status_ok order_result) ;;
     if ok then
       statuses <- M.lift (statuses_of order_result) ;;
       main_error <-
         (if Py.truthy statuses then
            st0 <- M.lift (Py.first statuses) ;;
            if Py.is_dict st0 then M.lift (Py.contains "error" st0) else M.ret false
          else M.ret false) ;;
       if main_error then
         M.lift (st0 <- Py.first statuses ;; Py.item st0 "error")%py ;;; M.ret tt
       else
         (if Py.truthy statuses then
            n <- M.lift (Py.len statuses) ;;
            if (1 <=? n)%Z then
              main_status <- M.lift (Py.first statuses) ;;
              filled <- M.lift (Py.contains "filled" main_status) ;;
              if filled then
                M.modify (set_fill main_status) ;;;
                sz <- M.lift (f <- Py.item main_status "filled" ;;
                              v <- Py.item f "totalSz" ;; Py.to_float v)%py ;;
                M.modify (set_size (Some sz)) ;;;
                M.modify (set_direction (Some direction))
              else M.ret tt
            else M.ret tt
          else M.ret tt) ;;;
         M.modify (set_open true) ;;;
         t <- M.now w ;;
         M.modify (set_entry_time (Some t)) ;;;
         M.modify (set_entry_price (Some entry)) ;;;
         s <- M.get ;;
         if Py.truthy (entry_order_data s) then
           M.lift (f <- Py.item (entry_order_data s) "filled" ;; Py.item f "oid")%py ;;;
           M.lift (upper (position_direction s)) ;;;
           M.ret tt
         else M.ret tt
     else M.ret tt)
    (fun _ => M.ret tt).

(** The [finally] block of [close_position]. *)
Definition reset_tracking : M.t state unit := M.modify (fun _ => initial).

Definition close_position : M.t state unit :=
  M.try_finally
    (M.try_except
       (s <- M.get ;;
        if negb (position_open s) || negb (Py.truthy (entry_order_data s)) then M.ret tt
        else
          filled_data <- M.lift (Py.item (entry_order_data s) "filled") ;;
          original_size <- M.lift (v <- Py.item filled_data "totalSz" ;; Py.to_float v)%py ;;
          _ <- M.lift (v <- Py.item filled_data "avgPx" ;; Py.to_float v)%py ;;
          _ <- M.lift (Py.item filled_data "oid") ;;
          let cancel_action :=
            PDict [("type", PStr "cancel");
                   ("cancels", PList [PDict [("a", PInt asset_index); ("o", PStr "")]])] in
          _ <- submit cancel_action ;;
          price <- get_current_price ;;
          match price with
          | None => M.ret tt
          | Some current_price =>
              if F.is_zero current_price then M.ret tt
              else
                let is_buy :=
                  match position_direction s with
                  | Some short => true
                  | _ => false
                  end in
                let close_price :=
                  if is_buy then F.round_to 2 (F.add current_price Lit.f0_50)
                  else F.round_to 2 (F.sub current_price Lit.f0_50) in
                p <- M.lift (round_float close_price) ;;
                sz <- M.lift (round_float original_size) ;;
                let close_order := limit_order asset_index is_buy p sz true "Ioc" in
                result <- place_order_raw close_order ;;
                _ <- M.lift (status_ok result) ;;
                M.ret tt
          end)
       (fun _ => M.ret tt))
    reset_tracking.

Definition manage_position : M.t state unit :=
  s <- M.get ;;
  if negb (position_open s) then M.ret tt
  else
    t <- M.now w ;;
    match entry_time s with
    | None => M.raise TypeError
    | Some t0 =>
        if F.gtb (F.sub t t0) time_stop_seconds then close_position else M.ret tt
    end.

End WithAccount.

End Hunter.

(** ** [experimental_color_trader.py] *)

Module ColorTrader.

Local Open Scope string_scope.

Definition position_usd : F.float := Lit.f4000.
Definition signal_cooldown : F.float := Lit.f2.
Definition spinner_chars : nat := 10.

Definition lower (sg : signal) : direction :=
  match sg with
  | LONG => long
  | SHORT => short
  end.

Definition signal_eqb (a b : signal) : bool :=
  match a, b with
  | LONG, LONG | SHORT, SHORT => true
  | _, _ => false
  end.

(** The fields of [ExperimentalColorTrader] that change while it runs;
    [last_color_display] is the local variable of [run]. *)
Record state := {
  current_position : option direction;
  position_open : bool;
  entry_order_data : pyval;
  position_size : option F.float;
  position_direction : option direction;
  current_signal : option signal;
  last_signal_time : F.float;
  spinner_index : nat;
  last_color_display : F.float
}.

Definition initial : state :=
  {| current_position := None; position_open := false; entry_order_data := PNone;
     position_size := None; position_direction := None; current_signal := None;
     last_signal_time := F.of_Z 0; spinner_index := 0; last_color_display := F.of_Z 0 |}.

Definition set_current_position (d : option direction) (s : state) : state :=
  {| current_position := d; position_open := position_open s;
     entry_order_data := entry_order_data s; position_size := position_size s;
     position_direction := position_direction s; current_signal := current_signal s;
     last_signal_time := last_signal_time s; spinner_index := spinner_index s;
     last_color_display := last_color_display s |}.

Definition set_position_open (b : bool) (s : state) : state :=
  {| current_position := current_position s; position_open := b;
     entry_order_data := entry_order_data s; position_size := position_size s;
     position_direction := position_direction s; current_signal := current_signal s;
     last_signal_time := last_signal_time s; spinner_index := spinner_index s;
     last_color_display := last_color_display s |}.

Definition set_entry_order_data (v : pyval) (s : state) : state :=
  {| current_position := current_position s; position_open := position_open s;
     entry_order_data := v; position_size := position_size s;
     position_direction := position_direction s; current_signal := current_signal s;
     last_signal_time := last_signal_time s; spinner_index := spinner_index s;
     last_color_display := last_color_display s |}.

Definition set_position_size (x : option F.float) (s : state) : state :=
  {| current_position := current_position s; position_open := position_open s;
     entry_order_data := entry_order_data s; position_size := x;
     position_direction := position_direction s; current_signal := current_signal s;
     last_signal_time := last_signal_time s; spinner_index := spinner_index s;
     last_color_display := last_color_display s |}.

Definition set_position_direction (d : option direction) (s : state) : state :=
  {| current_position := current_position s; position_open := position_open s;
     entry_order_data := entry_order_data s; position_size := position_size s;
     position_direction := d; current_signal := current_signal s;
     last_signal_time := last_signal_time s; spinner_index := spinner_index s;
     last_color_display := last_color_display s |}.

Definition set_current_signal (sg : option signal) (s : state) : state :=
  {| current_position := current_position s; position_open := position_open s;
     entry_order_data := entry_order_data s; position_size := position_size s;
     position_direction := position_direction s; current_signal := sg;
     last_signal_time := last_signal_time s; spinner_index := spinner_index s;
     last_color_display := last_color_display s |}.

Definition set_last_signal_time (t : F.float) (s : state) : state :=
  {| current_position := current_position s; position_open := position_open s;
     entry_order_data := entry_order_data s; position_size := position_size s;
     position_direction := position_direction s; current_signal := current_signal s;
     last_signal_time := t; spinner_index := spinner_index s;
     last_color_display := last_color_display s |}.

Definition set_spinner_index (n : nat) (s : state) : state :=
  {| current_position := current_position s; position_open := position_open s;
     entry_order_data := entry_order_data s; position_size := position_size s;
     position_direction := position_direction s; current_signal := current_signal s;
     last_signal_time := last_signal_time s; spinner_index := n;
     last_color_display := last_color_display s |}.

Definition set_last_color_display (t : F.float) (s : state) : state :=
  {| current_position := current_position s; position_open := position_open s;
     entry_order_data := entry_order_data s; position_size := position_size s;
     position_direction := position_direction s; current_signal := current_signal s;
     last_signal_time := last_signal_time s; spinner_index := spinner_index s;
     last_color_display := t |}.

(** [round(value)]: the nearest integer, ties to even. *)
Definition round_int (value : F.float) : outcome Z :=
  match value with
  | S754_nan => Exc ValueError
  | S754_infinity _ => Exc OverflowError
  | _ => Val (if F.sign_bit value then - Z.of_N (F.scaled 0 value)
              else Z.of_N (F.scaled 0 value))
  end.

(** [round_float(value, decimals)]: plain formatting to [decimals]
    places. *)
Definition round_float (value : F.float) (decimals : Z) : outcome string :=
  if (decimals =? 0)%Z then
    (n <- round_int value ;; Val (Text.text (Text.digits_Z n)))%py
  else if (decimals <? 0)%Z then Exc ValueError
  else Val (F.format_fixed (Z.to_nat decimals) value).

Definition hash_action := Scalper.hash_action.

(** [result and 'response' in result and 'data' in result['response']]. *)
Definition has_response_data (result : pyval) : outcome bool :=
  (if Py.truthy result then
     c <- Py.contains "response" result ;;
     if c then r <- Py.item result "response" ;; Py.contains "data" r
     else Val false
   else Val false)%py.

(** [result['response']['data']['statuses']]. *)
Definition response_statuses (result : pyval) : outcome pyval :=
  (r <- Py.item result "response" ;; d <- Py.item r "data" ;; Py.item d "statuses")%py.

Section WithAccount.

Context {account : Account}.
Variable w : world.

Definition sign_inner := Scalper.sign_inner.

(** [sign_action] of the colour trader: the hash goes into the message
    as its hexadecimal text. *)
Definition sign_action (action : pyval) (vault : option string) (nonce : Z)
           (is_mainnet : bool) : outcome pyval :=
  (h <- hash_action action vault nonce ;;
   let msg := PDict [("source", PStr (if is_mainnet then "a" else "b"));
                     ("connectionId", PStr (Py.to_hex_bytes h))] in
   sign_inner (Scalper.typed_data msg))%py.

Local Open Scope bot_scope.

Definition get_current_price : M.t state (option F.float) :=
  M.try_except
    (mids <- M.fetch_mids w ;;
     has <- M.lift (Py.contains "SOL" mids) ;;
     if has then
       price <- M.lift (v <- Py.item mids "SOL" ;; Py.to_float v)%py ;;
       M.ret (Some price)
     else M.ret None)
    (fun _ => M.ret None).

(** [place_order_raw]: the parsed reply, or [None]. *)
Definition place_order_raw (action : pyval) : M.t state pyval :=
  M.try_except
    (t <- M.now w ;;
     nonce <- M.lift (millis t) ;;
     let vault : option string := None in
     let is_mainnet := true in
     signature <- M.lift (sign_action action vault nonce is_mainnet) ;;
     let payload := envelope action nonce signature PNone in
     response <- M.post w payload ;;
     if (M.status_code response =? 200)%Z then M.json response
     else M.ret PNone)
    (fun _ => M.ret PNone).

(** The loop [for status in statuses] of [enter_position]. *)
Fixpoint enter_scan (direction : direction) (statuses : list pyval) : M.t state bool :=
  match statuses with
  | [] => M.ret false
  | status :: rest =>
      filled <- M.lift (Py.contains "filled" status) ;;
      if filled then
        filled_data <- M.lift (Py.item status "filled") ;;
        _ <- M.lift (Py.get filled_data "oid" (PStr "N/A")) ;;
        _ <- M.lift (Py.get filled_data "totalSz" (PStr "N/A")) ;;
        _ <- M.lift (v <- Py.get filled_data "avgPx" (PInt 0) ;; Py.to_float v)%py ;;
        M.modify (set_entry_order_data filled_data) ;;;
        sz <- M.lift (v <- Py.get filled_data "totalSz" (PInt 0) ;; Py.to_float v)%py ;;
        M.modify (set_position_size (Some sz)) ;;;
        M.modify (set_position_direction (Some direction)) ;;;
        M.modify (set_position_open true) ;;;
        M.modify (set_current_position (Some direction)) ;;;
        M.ret true
      else enter_scan direction rest
  end.

Definition enter_position (direction : direction) (entry_price : F.float)
  : M.t state bool :=
  M.try_except
    (q <- M.lift (Py.truediv position_usd entry_price) ;;
     let position_size_sol := Py.max Lit.f0_01 (F.round_to 2 q) in
     let is_buy := direction_eqb direction long in
     let order_price :=
       if is_buy then F.round_to 2 (F.mul entry_price Lit.f1_01)
       else F.round_to 2 (F.mul entry_price Lit.f0_99) in
     p <- M.lift (round_float order_price 2) ;;
     sz <- M.lift (round_float position_size_sol 2) ;;
     let action := order_action [limit_order 5 is_buy p sz false "Ioc"] "na" in
     result <- place_order_raw action ;;
     ok <- M.lift (has_response_data result) ;;
     if ok then
       statuses <- M.lift (response_statuses result) ;;
       items <- M.lift (Py.iter statuses) ;;
       enter_scan direction items
     else M.ret false)
    (fun _ => M.ret false).

Definition reset_position (s : state) : state :=
  set_current_position None
    (set_position_direction None (set_position_size None (set_entry_order_data PNone s))).

(** The loop [for status in statuses] of [close_position]. *)
Fixpoint close_scan (statuses : list pyval) : M.t state bool :=
  match statuses with
  | [] => M.ret false
  | status :: rest =>
      filled <- M.lift (Py.contains "filled" status) ;;
      if filled then
        filled_data <- M.lift (Py.item status "filled") ;;
        _ <- M.lift (Py.get filled_data "totalSz" (PStr "N/A")) ;;
        _ <- M.lift (v <- Py.get filled_data "avgPx" (PInt 0) ;; Py.to_float v)%py ;;
        M.modify (set_entry_order_data PNone) ;;;
        M.modify (set_position_size None) ;;;
        M.modify (set_position_direction None) ;;;
        M.modify (set_position_open false) ;;;
        M.modify (set_current_position None) ;;;
        M.ret true
      else close_scan rest
  end.

(** [not self.position_size]. *)
Definition size_missing (x : option F.float) : bool :=
  match x with
  | None => true
  | Some v => F.is_zero v
  end.

(** The [finally] block of [close_position]. *)
Definition close_finally : M.t state unit :=
  s <- M.get ;;
  if negb (position_open s) then M.modify reset_position else M.ret tt.

Definition close_position : M.t state bool :=
  M.try_finally
    (M.try_except
       (s <- M.get ;;
        if negb (position_open s) then M.ret true
        else
          _ <- M.lift (upper (position_direction s)) ;;
          price <- get_current_price ;;
          match price with
          | None => M.ret false
          | Some current_price =>
              (if size_missing (position_size s) then
                 q <- M.lift (Py.truediv position_usd current_price) ;;
                 M.modify (set_position_size (Some (F.round_to 2 q)))
               else M.ret tt) ;;;
              s1 <- M.get ;;
              let is_buy :=
                match position_direction s1 with
                | Some long => false
                | _ => true
                end in
              let close_price :=
                if is_buy then F.round_to 2 (F.mul current_price Lit.f1_01)
                else F.round_to 2 (F.mul current_price Lit.f0_99) in
              p <- M.lift (round_float close_price 2) ;;
              sz <- M.lift match position_size s1 with
                           | Some v => round_float v 2
                           | None => Exc TypeError
                           end ;;
              let action := order_action [limit_order 5 is_buy p sz true "Ioc"] "na" in
              result <- place_order_raw action ;;
              ok <- M.lift (has_response_data result) ;;
              if ok then
                statuses <- M.lift (response_statuses result) ;;
                items <- M.lift (Py.iter statuses) ;;
                close_scan items
              else M.ret false
          end)
       (fun _ => M.ret false))
    close_finally.

Definition flip_position (new_direction : direction) : M.t state bool :=
  price <- get_current_price ;;
  match price with
  | None => M.ret false
  | Some current_price =>
      M.try_except
        (s <- M.get ;;
         closed <-
           (if position_open s && Py.truthy (entry_order_data s) then
              close_success <- close_position ;;
              if negb close_success then M.ret false
              else M.sleep Lit.f10 ;;; M.ret true
            else M.ret true) ;;
         if negb closed then M.ret false
         else
           open_success <- enter_position new_direction current_price ;;
           if open_success then
             M.modify (set_current_position (Some new_direction)) ;;; M.ret true
           else M.ret false)
        (fun _ => M.ret false)
  end.

Definition get_spinner : M.t state unit :=
  M.modify (fun s => set_spinner_index (Nat.modulo (S (spinner_index s)) spinner_chars) s).

Definition same_signal (a : signal) (b : option signal) : bool :=
  match b with
  | Some b' => signal_eqb a b'
  | None => false
  end.

Definition holds (d : direction) (p : option direction) : bool :=
  match p with
  | Some d' => direction_eqb d d'
  | None => false
  end.

(** One pass through the body of the [while True] loop of [run]. *)
Definition tick : M.t state unit :=
  current_time <- M.now w ;;
  s <- M.get ;;
  (if F.geb (F.sub current_time (last_signal_time s)) signal_cooldown then
     M.try_except
       (image <- M.capture w ;;
        match image with
        | None => M.ret tt
        | Some detected =>
            (if F.geb (F.sub current_time (last_color_display s)) Lit.f5 then
               get_spinner ;;; M.modify (set_last_color_display current_time)
             else M.ret tt) ;;;
            match detected with
            | None => M.ret tt
            | Some sg =>
                s1 <- M.get ;;
                if negb (same_signal sg (current_signal s1)) then
                  (if negb (holds (lower sg) (current_position s1)) then
                     _ <- flip_position (lower sg) ;; M.ret tt
                   else M.ret tt) ;;;
                  M.modify (set_current_signal (Some sg)) ;;;
                  M.modify (set_last_signal_time current_time)
                else M.ret tt
            end
        end)
       (fun _ => M.ret tt)
   else M.ret tt) ;;;
  M.sleep Lit.f0_5.

(** The first [n] passes of the loop of [run]. *)
Fixpoint run (n : nat) : M.t state unit :=
  match n with
  | O => M.ret tt
  | S k => tick ;;; run k
  end.

End WithAccount.

End ColorTrader.

(** ** Vocabulary of the statements *)

(** The value found by following dictionary keys from [v]. *)
Fixpoint path (v : pyval) (keys : list string) : option pyval :=
  match keys with
  | [] => Some v
  | k :: rest =>
      match v with
      | PDict kv =>
          match Py.lookup k kv with
          | Some x => path x rest
          | None => None
          end
      | _ => None
      end
  end.

(** A status entry of the form [{"filled": ...}]. *)
Definition fill_status (st : pyval) : bool :=
  match st with
  | PDict kv => match Py.lookup "filled" kv with Some _ => true | None => false end
  | _ => false
  end.

(** The list under [response.data.statuses] of a reply body, empty when
    there is none. *)
Definition body_statuses (body : pyval) : list pyval :=
  match path body ["response"; "data"; "statuses"]%string with
  | Some (PList l) => l
  | _ => []
  end.

(** A reply that reports a fill: status 200, a JSON body, a [filled] entry
    among its statuses. *)
Definition confirms_fill (r : http_response) : bool :=
  match r with
  | HttpReply c (Some body) => (c =? 200) && existsb fill_status (body_statuses body)
  | _ => false
  end.

(** A submission that ends in an error: the request raises, the status is
    not 200, the body is not JSON, or the body neither says ["ok"] nor holds
    response data. *)
Definition error_reply (r : http_response) : Prop :=
  match r with
  | HttpFail => True
  | HttpReply c None => True
  | HttpReply c (Some body) =>
      c <> 200 \/
      (path body ["status"]%string <> Some (PStr "ok")
       /\ path body ["response"; "data"]%string = None)
  end.

(** The orders of a posted payload. *)
Definition payload_orders (p : pyval) : list pyval :=
  match path p ["action"; "orders"]%string with
  | Some (PList l) => l
  | _ => []
  end.

Definition order_flag (k : string) (o : pyval) : option bool :=
  match path o [k] with
  | Some (PBool b) => Some b
  | _ => None
  end.

(** A payload all of whose orders are reduce-only: it can close or shrink
    a position, never open one. *)
Definition reduce_only (p : pyval) : bool :=
  match payload_orders p with
  | [] => false
  | os => forallb (fun o => match order_flag "r" o with Some true => true | _ => false end) os
  end.

(** A payload carrying one order that is not reduce-only, on the side of
    direction [d]: an entry. *)
Definition opens (d : direction) (p : pyval) : bool :=
  match payload_orders p with
  | [o] =>
      match order_flag "r" o, order_flag "b" o with
      | Some false, Some b => Bool.eqb b (direction_eqb d long)
      | _, _ => false
      end
  | _ => false
  end.

(** The nonce of a posted payload. *)
Definition payload_nonce (p : pyval) : option Z :=
  match path p ["nonce"]%string with
  | Some (PInt n) => Some n
  | _ => None
  end.

(** The payloads posted, oldest first. *)
Definition posted (l : list event) : list pyval :=
  flat_map (fun e => match e with Post p => [p] | _ => [] end) l.

(** What [place_order_raw] of the colour trader hands back for a reply. *)
Definition reply_body (r : http_response) : pyval :=
  match r with
  | HttpReply c (Some body) => if c =? 200 then body else PNone
  | _ => PNone
  end.

(** The io state after a clock reading, after a reading followed by a post,
    after a price query and after a sleep. *)
Definition io_after_read (i : io) : io :=
  {| clock_reads := S (clock_reads i); posts := posts i; mids_calls := mids_calls i;
     captures := captures i; log := log i |}.

Definition io_after_post (p : pyval) (i : io) : io :=
  {| clock_reads := S (clock_reads i); posts := S (posts i); mids_calls := mids_calls i;
     captures := captures i; log := Post p :: log i |}.

Definition io_after_mids (i : io) : io :=
  {| clock_reads := clock_reads i; posts := posts i; mids_calls := S (mids_calls i);
     captures := captures i; log := Mids :: log i |}.

(** The colour trader with no position: the five position fields cleared,
    the rest as in [s]. *)
Definition ct_flat (s : ColorTrader.state) : ColorTrader.state :=
  {| ColorTrader.current_position := None;
     ColorTrader.position_open := false;
     ColorTrader.entry_order_data := PNone;
     ColorTrader.position_size := None;
     ColorTrader.position_direction := None;
     ColorTrader.current_signal := ColorTrader.current_signal s;
     ColorTrader.last_signal_time := ColorTrader.last_signal_time s;
     ColorTrader.spinner_index := ColorTrader.spinner_index s;
     ColorTrader.last_color_display := ColorTrader.last_color_display s |}.

(** [s'] is [s], up to an estimate put in place of an unset size. *)
Definition ct_kept (s s' : ColorTrader.state) : Prop :=
  s' = s \/
  (ColorTrader.size_missing (ColorTrader.position_size s) = true
   /\ exists est, s' = ColorTrader.set_position_size (Some est) s).

(** The position fields of the colour trader agree in [s] and [s']. *)
Definition ct_same_position (s s' : ColorTrader.state) : Prop :=
  ColorTrader.position_open s' = ColorTrader.position_open s
  /\ ColorTrader.position_direction s' = ColorTrader.position_direction s
  /\ ColorTrader.position_size s' = ColorTrader.position_size s
  /\ ColorTrader.entry_order_data s' = ColorTrader.entry_order_data s
  /\ ColorTrader.current_position s' = ColorTrader.current_position s.

(** The side of the order that closes the position of [s]: a sale for a
    long, a purchase otherwise. *)
Definition close_side (s : ColorTrader.state) : bool :=
  match ColorTrader.position_direction s with
  | Some long => false
  | _ => true
  end.

(** [p] is the colour trader's close order for the position of [s]: one
    reduce-only IOC order on the closing side, for the stored size. *)
Definition ct_closes (s : ColorTrader.state) (p : pyval) : Prop :=
  exists nonce sig px sz,
    p = envelope (order_action [limit_order 5 (close_side s) px sz true "Ioc"] "na")
                 nonce sig PNone
    /\ forall v, ColorTrader.position_size s = Some v -> F.is_zero v = false ->
                 sz = F.format_fixed 2 v.

(** The reply body the exchange sends for accepted orders. *)
Definition ok_body (statuses : list pyval) : pyval :=
  PDict [("status", PStr "ok");
         ("response", PDict [("type", PStr "order");
                             ("data", PDict [("statuses", PList statuses)])])]%string.

(** [w] with the replies of the exchange replaced. *)
Definition with_exchange (w : world) (ex : nat -> pyval -> http_response) : world :=
  {| clock := clock w; exchange := ex; all_mids := all_mids w; screen := screen w |}.

(** Value of a byte string read as a big-endian number. *)
Definition be_value (bs : list Z) : Z := fold_left (fun a b => 256 * a + b) bs 0.

Definition is_byte (b : Z) : Prop := 0 <= b < 256.

(** [hex_pairs cs bs]: the characters [cs] are the bytes [bs] written with
    two hexadecimal digits each. *)
Inductive hex_pairs : list ascii -> list Z -> Prop :=
| hex_pairs_nil : hex_pairs [] []
| hex_pairs_cons c1 c2 hi lo cs bs :
    Text.hex_val c1 = Some hi -> Text.hex_val c2 = Some lo ->
    hex_pairs cs bs -> hex_pairs (c1 :: c2 :: cs) (16 * hi + lo :: bs).

(** The text [v] writes the 20-byte address [addr] in hexadecimal, with or
    without the prefix [0x]. *)
Definition address_text (v : string) (addr : list Z) : Prop :=
  List.length addr = 20%nat
  /\ exists h, hex_pairs h addr
               /\ (v = Text.text ("0"%char :: "x"%char :: h) \/ v = Text.text h).

(** What follows the nonce in the hashed bytes. *)
Inductive vault_tail : option string -> list Z -> Prop :=
| vault_absent : vault_tail None [0]
| vault_present v addr : address_text v addr -> vault_tail (Some v) (1 :: addr).

(** The address of twenty zero bytes. *)
Definition zero_address : string := Py.to_hex_bytes (repeat 0 20).

Definition type_field (name type : string) : pyval :=
  PDict [("name", PStr name); ("type", PStr type)]%string.

(** [data] is an EIP-712 request over the fixed exchange domain whose only
    message is an [Agent] with the given source and connection id. *)
Definition agent_request (data : pyval) (source : string) (connection_id : pyval) : Prop :=
  path data ["domain"; "chainId"]%string = Some (PInt 1337)
  /\ path data ["domain"; "name"]%string = Some (PStr "Exchange")
  /\ path data ["domain"; "verifyingContract"]%string = Some (PStr zero_address)
  /\ path data ["domain"; "version"]%string = Some (PStr "1")
  /\ path data ["primaryType"]%string = Some (PStr "Agent")
  /\ path data ["types"; "Agent"]%string
     = Some (PList [type_field "source" "string"; type_field "connectionId" "bytes32"])
  /\ path data ["message"]%string
     = Some (PDict [("source", PStr source); ("connectionId", connection_id)]%string).

(** The dictionary [{r, s, v}] of a signature. *)
Definition signature_dict (sg : signed_message) : pyval :=
  PDict [("r", PStr (Py.to_hex_int (sig_r sg)));
         ("s", PStr (Py.to_hex_int (sig_s sg)));
         ("v", PInt (sig_v sg))]%string.

(** The sign written in front of a number. *)
Definition sign_chars (neg : bool) : list ascii := if neg then ["-"%char] else [].

(** [stamped w b l]: every payload posted in the log [l] (most recent
    first) carries as its nonce the millisecond value of a clock reading;
    the readings used have numbers below [b], and a later post uses a later
    reading than every earlier post. *)
Inductive stamped (w : world) : nat -> list event -> Prop :=
| stamped_nil b : stamped w b []
| stamped_post b k p n l :
    payload_nonce p = Some n ->
    millis (clock w k) = Val n ->
    (k < b)%nat ->
    stamped w k l ->
    stamped w b (Post p :: l)
| stamped_mids b l : stamped w b l -> stamped w b (Mids :: l)
| stamped_sleep b t l : stamped w b l -> stamped w b (Sleep t :: l).

(** The nonces posted, most recent first. *)
Fixpoint log_nonces (l : list event) : list Z :=
  match l with
  | [] => []
  | Post p :: r =>
      match payload_nonce p with
      | Some n => n :: log_nonces r
      | None => log_nonces r
      end
  | _ :: r => log_nonces r
  end.

(** The millisecond readings of the clock never go back. *)
Definition clock_monotone (w : world) : Prop :=
  forall j k a b, (j <= k)%nat ->
    millis (clock w j) = Val a -> millis (clock w k) = Val b -> a <= b.

(** Successive millisecond readings of the clock differ. *)
Definition clock_strict (w : world) : Prop :=
  forall j k a b, (j < k)%nat ->
    millis (clock w j) = Val a -> millis (clock w k) = Val b -> a < b.

Definition io_ok (w : world) (i : io) : Prop := stamped w (clock_reads i) (log i).

(** Bot code that keeps the log stamped. *)
Definition keeps {S A} (w : world) (m : M.t S A) : Prop :=
  forall s i, io_ok w i -> io_ok w (snd (m s i)).

(** The position operations of the hunter, as its loop issues them. *)
Inductive hunter_call :=
| Enter (d : direction) (snap : Hunter.snapshot)
| Manage
| Close.

Section Calls.

Context {account : Account}.
Variable w : world.

Definition hunter_step (c : hunter_call) : M.t Hunter.state unit :=
  match c with
  | Enter d snap => Hunter.enter_position w d snap
  | Manage => Hunter.manage_position w
  | Close => Hunter.close_position w
  end.

(** A sequence of such calls; what one of them raises is caught by the loop
    that issues it. *)
Fixpoint hunter_calls (cs : list hunter_call) : M.t Hunter.state unit :=
  match cs with
  | [] => M.ret tt
  | c :: rest =>
      M.bind (M.try_except (hunter_step c) (fun _ => M.ret tt)) (fun _ => hunter_calls rest)
  end.

End Calls.

(** ** Sample data for the examples *)

Module Fixture.

Local Open Scope string_scope.

(** A stand-in for the key holder: deterministic, and no ECDSA.  The
    statements below hold for every account; this one runs the examples. *)
Definition account : Account :=
  {| encode_typed_data :=
       fun data => Py.bind (Msgpack.packb data) (fun b => Val (Keccak.keccak b));
     sign_message :=
       fun bs => Val {| sig_r := be_value (firstn 16 bs);
                        sig_s := be_value (skipn 16 bs);
                        sig_v := 27 |} |}.

Definition filled : pyval :=
  PDict [("filled", PDict [("totalSz", PStr "26.62"); ("avgPx", PStr "150.25");
                           ("oid", PInt 77738308)])].

Definition resting : pyval := PDict [("resting", PDict [("oid", PInt 77738309)])].

Definition rejected : pyval := PDict [("error", PStr "Invalid TP/SL price.")].

Definition accepted (statuses : list pyval) : http_response :=
  HttpReply 200 (Some (ok_body statuses)).

Definition refused : http_response :=
  HttpReply 200 (Some (PDict [("status", PStr "error"); ("error", PStr "margin")])).

(** A world whose clock advances [pace] seconds per reading, whose exchange
    answers the [n]-th post with the [n]-th reply, whose price feed quotes
    150.25 and whose screen shows the given signals. *)
Definition scene (pace : Z) (replies : list http_response)
           (signals : list (option (option signal))) : world :=
  {| clock := fun n => F.of_Z (1762176000 + pace * Z.of_nat n);
     exchange := fun n _ => nth n replies HttpFail;
     all_mids := fun _ => Val (PDict [("SOL", PStr "150.25")]);
     screen := fun n => nth n signals None |}.

Definition book : Hunter.snapshot :=
  {| Hunter.imbalance_ratio := F.of_decimal false 35 (-1);
     Hunter.best_bid := F.of_decimal false 15020 (-2);
     Hunter.best_ask := F.of_decimal false 15025 (-2) |}.

(** A colour trader holding a long of 26.62. *)
Definition holding_long : ColorTrader.state :=
  {| ColorTrader.current_position := Some long;
     ColorTrader.position_open := true;
     ColorTrader.entry_order_data :=
       PDict [("totalSz", PStr "26.62"); ("avgPx", PStr "150.25"); ("oid", PInt 77738308)];
     ColorTrader.position_size := Some (F.of_decimal false 2662 (-2));
     ColorTrader.position_direction := Some long;
     ColorTrader.current_signal := Some LONG;
     ColorTrader.last_signal_time := F.of_Z 1762175000;
     ColorTrader.spinner_index := 0;
     ColorTrader.last_color_display := F.of_Z 1762175000 |}.


(** An address of twenty bytes. *)
Definition vault : string := "0x1234567890abcdefABCDEF001122334455667788".

Definition vault_bytes : list Z :=
  [18; 52; 86; 120; 144; 171; 205; 239; 171; 205; 239; 0; 17; 34; 51; 68; 85; 102; 119; 136].

Definition sample_action : pyval :=
  order_action [limit_order 5 true "151.75" "26.62" false "Ioc"] "na".

(** The bytes [msgpack] gives for the sample action, and its hash with the
    nonce 1762176000123 and no vault. *)
Definition sample_packed : list Z :=
  match Msgpack.packb sample_action with
  | Val b => b
  | Exc _ => []
  end.

Definition sample_hash : list Z :=
  match Scalper.hash_action sample_action None 1762176000123 with
  | Val h => h
  | Exc _ => []
  end.

(** The hunter's exchange: the grouped entry is accepted and filled, the
    two submissions of the close are refused. *)
Definition hunter_world : world :=
  scene 3 [accepted [filled; resting; resting]; refused; refused] [].

(** The hunter after that entry, and the io state it leaves. *)
Definition hunter_entered : outcome unit * Hunter.state * io :=
  Hunter.enter_position (account := account) hunter_world long book Hunter.initial io_start.

Definition hunter_open : Hunter.state := snd (fst hunter_entered).
Definition hunter_io : io := snd hunter_entered.

(** An exchange that accepts the grouped entry and leaves it resting. *)
Definition resting_world : world :=
  scene 3 [accepted [resting; resting; resting]] [].

Definition hunter_unfilled : outcome unit * Hunter.state * io :=
  Hunter.enter_position (account := account) resting_world long book Hunter.initial io_start.

(** The grouped outcome [{entry: filled, stopLoss: error, takeProfit:
    resting}] and the outcome with every leg confirmed. *)
Definition mixed_world : world := scene 3 [accepted [filled; rejected; resting]] [].
Definition clean_world : world := scene 3 [accepted [filled; resting; resting]] [].

(** A world whose clock stands still. *)
Definition stalled_world : world := scene 0 [accepted []; accepted [filled]] [].

End Fixture.

(** ** What the bots post, all in all *)

(** [p] is a grouped entry: one envelope whose action, grouped
    [normalTpsl], holds an entry order on the side [is_buy] that is not
    reduce-only, then a stop-loss and a take-profit trigger order, both
    reduce-only, on the other side and for the size of the entry; the
    take-profit executes at its trigger price. *)
Definition grouped_entry (is_buy : bool) (tif : string) (p : pyval) : Prop :=
  exists nonce sig p0 sz p1 t1 p2,
    p = envelope
          (order_action
             [limit_order 5 is_buy p0 sz false tif;
              trigger_order 5 (negb is_buy) p1 sz true t1 "sl";
              trigger_order 5 (negb is_buy) p2 sz true p2 "tp"]
             "normalTpsl")
          nonce sig PNone.

(** Between the io states [i] and [i'] nothing was posted. *)
Definition same_posts (i i' : io) : Prop :=
  posts i' = posts i /\ posted (log i') = posted (log i).

(** Between [i] and [i'] at most one payload was posted, and it is a [Q]. *)
Definition one_post (Q : pyval -> Prop) (i i' : io) : Prop :=
  same_posts i i'
  \/ exists p, Q p /\ posts i' = S (posts i) /\ posted (log i') = p :: posted (log i).

(** Bot code that posts nothing, and bot code that posts at most one
    payload, a [Q]. *)
Definition quiet {S A} (m : M.t S A) : Prop :=
  forall s i, same_posts i (snd (m s i)).

Definition posts_once {S A} (Q : pyval -> Prop) (m : M.t S A) : Prop :=
  forall s i, one_post Q i (snd (m s i)).



(** The cancel action the hunter posts before it closes. *)
Definition hunter_cancel : pyval :=
  PDict [("type", PStr "cancel");
         ("cancels", PList [PDict [("a", PInt Hunter.asset_index); ("o", PStr "")]])]%string.

(** A payload that cannot open a position: the cancel action, or orders
    that are all reduce-only. *)
Definition closing_payload (p : pyval) : Prop :=
  (exists nonce sig, p = envelope hunter_cancel nonce sig PNone) \/ reduce_only p = true.

(** Bot code all of whose posts are [Q]s. *)
Definition posts_only {S A} (Q : pyval -> Prop) (m : M.t S A) : Prop :=
  forall s i,
  exists new,
    posted (log (snd (m s i))) = (new ++ posted (log i))%list
    /\ Forall Q new
    /\ posts (snd (m s i)) = (List.length new + posts i)%nat.

(** ** [ultimate_scalping_bot.py]: the strategy around the grouped order *)

Module Strategy.

Local Open Scope string_scope.

Definition position_size_usd : F.float := Lit.f300.
Definition tp_percentage : F.float := Lit.f0_31.
Definition sl_percentage : F.float := Lit.f0_125.
Definition entry_offset : F.float := F.of_decimal false 5 (-2).

(** [calculate_position_size]: the size for 300 USD, two decimals, at
    least 0.01. *)
Definition calculate_position_size (entry_price : F.float) : outcome F.float :=
  (raw_size <- Py.truediv position_size_usd entry_price ;;
   Val (Py.max Lit.f0_01 (F.round_to 2 raw_size)))%py.

Section WithAccount.

Context {account : Account}.
Variable w : world.

Local Open Scope bot_scope.

(** [get_current_price] of the scalping bot: nothing is caught. *)
Definition get_current_price : M.t unit F.float :=
  all_mids <- M.fetch_mids w ;;
  M.lift (v <- Py.item all_mids "SOL" ;; Py.to_float v)%py.

(** One pass of the monitoring loop; [true] when the loop is left. *)
Definition monitor_pass (entry_price : F.float) : M.t unit bool :=
  M.try_except
    (current_price <- get_current_price ;;
     if F.leb current_price entry_price then M.ret true
     else M.sleep Lit.f1 ;;; M.ret false)
    (fun _ => M.sleep Lit.f1 ;;; M.ret false).

(** The first [n] passes of the loop [while True]; [true] when the loop
    was left within them. *)
Fixpoint monitor (entry_price : F.float) (n : nat) : M.t unit bool :=
  match n with
  | O => M.ret false
  | S k =>
      done <- monitor_pass entry_price ;;
      if done then M.ret true else monitor entry_price k
  end.

(** [execute_scalping_strategy], with the first [n] passes of its
    monitoring loop; [true] when the function has returned. *)
Definition execute_scalping_strategy (n : nat) : M.t unit bool :=
  current_price <- get_current_price ;;
  let entry_price := F.round_to 2 (F.sub current_price entry_offset) in
  position_size <- M.lift (calculate_position_size entry_price) ;;
  let tp_price :=
    F.round_to 2 (F.mul entry_price (F.add Lit.f1 (F.div tp_percentage Lit.f100))) in
  let sl_price :=
    F.round_to 2 (F.mul entry_price (F.sub Lit.f1 (F.div sl_percentage Lit.f100))) in
  order_id <- Scalper.place_grouped_order w entry_price position_size tp_price sl_price ;;
  if negb (Py.truthy order_id) then M.ret true
  else monitor entry_price n.

End WithAccount.

End Strategy.

(** ** [order_book_hunter.py]: the analysis of the order book *)

Module Book.

Local Open Scope string_scope.

(** [v[n]] for a non-negative integer literal [n]. *)
Definition index (n : nat) (v : pyval) : outcome pyval :=
  match v with
  | PList l => Py.of_option IndexError (nth_error l n)
  | PStr s =>
      match String.get n s with
      | Some c => Val (PStr (String c ""))
      | None => Exc IndexError
      end
  | PBytes bs => Py.of_option IndexError (option_map PInt (nth_error bs n))
  | PDict _ => Exc KeyError
  | _ => Exc TypeError
  end.

(** [v[:n]]. *)
Definition slice_to (n : nat) (v : pyval) : outcome pyval :=
  match v with
  | PList l => Val (PList (firstn n l))
  | PStr s => Val (PStr (String.substring 0 n s))
  | PBytes bs => Val (PBytes (firstn n bs))
  | _ => Exc TypeError
  end.

(** The results of [f] on the items, up to the first that raises. *)
Fixpoint each {A B} (f : A -> outcome B) (l : list A) : outcome (list B) :=
  match l with
  | [] => Val []
  | a :: r => (b <- f a ;; bs <- each f r ;; Val (b :: bs))%py
  end.

(** A dictionary stored in [orderbook_history]. *)
Record book_snapshot := {
  time : F.float;
  imbalance_ratio : F.float;
  bid_size : F.float;
  ask_size : F.float;
  mid_price : F.float;
  spread_bps : F.float;
  best_bid : F.float;
  best_ask : F.float
}.

(** The fields [enter_position] reads. *)
Definition for_entry (b : book_snapshot) : Hunter.snapshot :=
  {| Hunter.imbalance_ratio := imbalance_ratio b;
     Hunter.best_bid := best_bid b;
     Hunter.best_ask := best_ask b |}.

(** The hunter with its data tracking: the position fields, and the two
    bounded queues, most recent entry first. *)
Record state := {
  core : Hunter.state;
  orderbook_history : list book_snapshot;
  volume_history : list (F.float * F.float)
}.

Definition initial : state :=
  {| core := Hunter.initial; orderbook_history := []; volume_history := [] |}.

Definition set_core (c : Hunter.state) (s : state) : state :=
  {| core := c; orderbook_history := orderbook_history s;
     volume_history := volume_history s |}.

(** [deque(maxlen=n).append(x)]: a full queue drops its oldest entry. *)
Definition append {A} (maxlen : nat) (x : A) (q : list A) : list A := firstn maxlen (x :: q).

Definition record_snapshot (b : book_snapshot) (s : state) : state :=
  {| core := core s; orderbook_history := append 50 b (orderbook_history s);
     volume_history := volume_history s |}.

Definition with_volume (vh : list (F.float * F.float)) (s : state) : state :=
  {| core := core s; orderbook_history := orderbook_history s; volume_history := vh |}.

Definition record_volume (t v : F.float) (s : state) : state :=
  with_volume (append 30 (t, v) (volume_history s)) s.

(** [q[-i]] for [1 <= i]. *)
Definition from_end {A} (q : list A) (i : nat) : outcome A :=
  match i with
  | O => Py.of_option IndexError (nth_error (rev q) 0)
  | S k => Py.of_option IndexError (nth_error q k)
  end.

(** What one step of the history adds to a volume proxy. *)
Definition proxy_term (curr prev : book_snapshot) : F.float :=
  let size_change :=
    F.abs (F.sub (F.add (bid_size curr) (ask_size curr))
                 (F.add (bid_size prev) (ask_size prev))) in
  let price_change := F.abs (F.sub (mid_price curr) (mid_price prev)) in
  F.add size_change (F.mul price_change Lit.f1000).

(** [for i in indices: if guard(i): acc += term(q[-i], q[-i-1])]. *)
Fixpoint proxy_sum (q : list book_snapshot) (guard : nat -> bool) (indices : list nat)
         (acc : F.float) : outcome F.float :=
  match indices with
  | [] => Val acc
  | i :: rest =>
      if guard i then
        (curr <- from_end q i ;;
         prev <- from_end q (S i) ;;
         proxy_sum q guard rest (F.add acc (proxy_term curr prev)))%py
      else proxy_sum q guard rest acc
  end.

(** [get_recent_volume]. *)
Definition get_recent_volume (s : state) : outcome F.float :=
  let q := orderbook_history s in
  let n := List.length q in
  if Nat.ltb n 10 then Val Lit.f1
  else
    (volume_proxy <-
       proxy_sum q (fun _ => true) (seq 1 (Nat.min 10 n - 1)) (F.of_Z 0) ;;
     if Nat.leb 30 n then
       avg_proxy <- proxy_sum q (fun i => Nat.ltb i (n - 1)) (seq 10 20) (F.of_Z 0) ;;
       let avg_proxy := if F.gtb avg_proxy (F.of_Z 0) then F.div avg_proxy (F.of_Z 20)
                        else Lit.f1 in
       if F.gtb avg_proxy (F.of_Z 0) then
         v <- Py.truediv volume_proxy Lit.f10 ;; Py.truediv v avg_proxy
       else Val Lit.f1
     else Val Lit.f1)%py.

Definition imbalance_threshold : F.float := F.of_Z 3.
Definition volume_spike_threshold : F.float := F.of_decimal false 15 (-1).
Definition min_spread_bps : F.float := F.of_Z 0.

Section WithAccount.

Context {account : Account}.
Variable w : world.

(** Python's [sum] over floats: a fold from the left before Python 3.12, a
    compensated sum from 3.12 on.  What follows holds for either. *)
Variable fsum : list F.float -> F.float.

Local Open Scope bot_scope.

(** A method of the position code run on the hunter's fields. *)
Definition on_core {A} (m : M.t Hunter.state A) : M.t state A :=
  fun s i =>
    match m (core s) i with
    | (r, c, i') => (r, set_core c s, i')
    end.

(** [check_entry_conditions]. *)
Definition check_entry_conditions (snapshot : book_snapshot) : M.t state unit :=
  s <- M.get ;;
  if Hunter.position_open (core s) then on_core (Hunter.manage_position w)
  else
    let imbalance := imbalance_ratio snapshot in
    volume_spike <- M.lift (get_recent_volume s) ;;
    if F.gtb imbalance imbalance_threshold
       && F.gtb volume_spike volume_spike_threshold
       && F.geb (spread_bps snapshot) min_spread_bps
    then on_core (Hunter.enter_position w long (for_entry snapshot))
    else if F.ltb imbalance Lit.f0_5
            && F.gtb volume_spike volume_spike_threshold
            && F.geb (spread_bps snapshot) min_spread_bps
    then on_core (Hunter.enter_position w short (for_entry snapshot))
    else M.ret tt.

(** [sum(float(level[1]) for level in side[:5])]. *)
Definition top_size (side : pyval) : outcome F.float :=
  (top <- slice_to 5 side ;;
   levels <- Py.iter top ;;
   sizes <- each (fun level => v <- index 1 level ;; Py.to_float v) levels ;;
   Val (fsum sizes))%py.

(** [float(side[0][0])]. *)
Definition best_price (side : pyval) : outcome F.float :=
  (level <- Py.first side ;; v <- Py.first level ;; Py.to_float v)%py.

Definition no_levels : pyval := PList [PList []; PList []].

(** [analyze_orderbook]. *)
Definition analyze_orderbook (orderbook_data : pyval) : M.t state unit :=
  M.try_except
    (bids <- M.lift (l <- Py.get orderbook_data "levels" no_levels ;; index 0 l)%py ;;
     asks <- M.lift (l <- Py.get orderbook_data "levels" no_levels ;; index 1 l)%py ;;
     if negb (Py.truthy bids) || negb (Py.truthy asks) then M.ret tt
     else
       bid_size <- M.lift (top_size bids) ;;
       ask_size <- M.lift (top_size asks) ;;
       imbalance_ratio <-
         M.lift (if F.gtb ask_size (F.of_Z 0) then Py.truediv bid_size ask_size
                 else Val (F.of_Z 999)) ;;
       best_bid <- M.lift (best_price bids) ;;
       best_ask <- M.lift (best_price asks) ;;
       mid_price <- M.lift (Py.truediv (F.add best_bid best_ask) Lit.f2) ;;
       ratio <- M.lift (Py.truediv (F.sub best_ask best_bid) mid_price) ;;
       let spread_bps := F.mul ratio (F.of_Z 10000) in
       t <- M.now w ;;
       let snapshot :=
         {| time := t; imbalance_ratio := imbalance_ratio; bid_size := bid_size;
            ask_size := ask_size; mid_price := mid_price; spread_bps := spread_bps;
            best_bid := best_bid; best_ask := best_ask |} in
       M.modify (record_snapshot snapshot) ;;;
       check_entry_conditions snapshot ;;;
       s <- M.get ;;
       _ <- M.lift (get_recent_volume s) ;;
       M.ret tt)
    (fun _ => M.ret tt).

(** The loop of [update_volume]. *)
Fixpoint update_volume_items (trades : list pyval) : M.t state unit :=
  match trades with
  | [] => M.ret tt
  | trade :: rest =>
      sz <- M.lift (v <- Py.item trade "sz" ;; Py.to_float v)%py ;;
      px <- M.lift (v <- Py.item trade "px" ;; Py.to_float v)%py ;;
      t <- M.now w ;;
      M.modify (record_volume t (F.mul sz px)) ;;;
      update_volume_items rest
  end.

(** [update_volume]. *)
Definition update_volume (trades : pyval) : M.t state unit :=
  items <- M.lift (Py.iter trades) ;;
  update_volume_items items.

(** [process_market_data]. *)
Definition process_market_data (data : pyval) : M.t state unit :=
  channel <- M.lift (Py.get data "channel" PNone) ;;
  if Py.is_str "l2Book" channel then
    d <- M.lift (Py.item data "data") ;; analyze_orderbook d
  else if Py.is_str "trades" channel then
    d <- M.lift (Py.item data "data") ;; update_volume d
  else M.ret tt.

End WithAccount.

End Book.

(** ** [load_credentials] of the scalping bot and the hunter: the [.env] file *)

Module Env.

Local Open Scope string_scope.

(** [str.isspace] on a character below 256. *)
Definition is_whitespace (c : ascii) : bool :=
  let k := Text.code c in
  (((9 <=? k) && (k <=? 13)) || ((28 <=? k) && (k <=? 32)) || (k =? 133) || (k =? 160))%Z.

Fixpoint lstrip (cs : list ascii) : list ascii :=
  match cs with
  | c :: r => if is_whitespace c then lstrip r else cs
  | [] => []
  end.

(** [line.strip()]. *)
Definition strip (line : string) : string :=
  Text.text (rev (lstrip (rev (lstrip (Text.chars line))))).

(** [line.split('=', 1)] of a line that holds ['=']: the text before the
    first ['='] and the text after it. *)
Fixpoint split_eq (cs : list ascii) : option (list ascii * list ascii) :=
  match cs with
  | [] => None
  | c :: r =>
      if Ascii.eqb c "="%char then Some ([], r)
      else
        match split_eq r with
        | Some (k, v) => Some (c :: k, v)
        | None => None
        end
  end.

(** The assignment a stripped line makes, if any: the line is not empty,
    is no comment and holds ['=']. *)
Definition entry (line : string) : option (string * string) :=
  let cs := Text.chars line in
  match cs with
  | [] => None
  | c :: _ =>
      if Ascii.eqb c "#"%char then None
      else
        match split_eq cs with
        | Some (k, v) => Some (Text.text k, Text.text v)
        | None => None
        end
  end.

(** [env_vars[key] = value]. *)
Fixpoint assign (key value : string) (env : list (string * string))
  : list (string * string) :=
  match env with
  | [] => [(key, value)]
  | (k, v) :: r => if String.eqb key k then (k, value) :: r else (k, v) :: assign key value r
  end.

(** [env_vars.get(key)]. *)
Fixpoint get (key : string) (env : list (string * string)) : option string :=
  match env with
  | [] => None
  | (k, v) :: r => if String.eqb key k then Some v else get key r
  end.

(** The loop over the lines of the file. *)
Definition read_lines (lines : list string) (env : list (string * string))
  : list (string * string) :=
  fold_left
    (fun env line =>
       match entry (strip line) with
       | Some (k, v) => assign k v env
       | None => env
       end)
    lines env.

Definition key_name : string := "HYPERLIQUID_PRIVATE_KEY".

(** The key handed to [Account.from_key]; [None] is Python's [None]. *)
Definition private_key (lines : list string) : option string :=
  get key_name (read_lines lines []).

End Env.

(** ** [experimental_color_trader.py]: from a colour to a signal *)

Module ColorSignal.

Definition color : Type := Z * Z * Z.

Definition green_target : color := (76, 175, 80).
Definition red_target : color := (241, 147, 65).
Definition color_tolerance : Z := 80.

(** [sum((c1 - c2) ** 2 for c1, c2 in zip(color1, color2))], on integers. *)
Definition squared_distance (color1 color2 : color) : Z :=
  let '(r1, g1, b1) := color1 in
  let '(r2, g2, b2) := color2 in
  (r1 - r2) ^ 2 + (g1 - g2) ^ 2 + (b1 - b2) ^ 2.

(** The colours of a captured image: every channel is an 8-bit value. *)
Definition channel (x : Z) : bool := (0 <=? x) && (x <=? 255).

Definition in_gamut (c : color) : bool :=
  let '(r, g, b) := c in channel r && channel g && channel b.

(** [color_distance]: [np.sqrt] of that integer, a binary64 square root. *)
Definition color_distance (color1 color2 : color) : F.float :=
  SFsqrt F.prec F.emax (F.of_Z (squared_distance color1 color2)).

(** [detect_color_signal], for the targets and the tolerance of the bot. *)
Definition detect_signal (green red : color) (tolerance : Z) (dominant_color : color)
  : option signal :=
  let green_distance := color_distance dominant_color green in
  let red_distance := color_distance dominant_color red in
  if F.leb green_distance (F.of_Z tolerance) && F.ltb green_distance red_distance
  then Some LONG
  else if F.leb red_distance (F.of_Z tolerance) && F.ltb red_distance green_distance
  then Some SHORT
  else None.

Definition detect_color_signal (dominant_color : color) : option signal :=
  detect_signal green_target red_target color_tolerance dominant_color.

End ColorSignal.

(** ** More data for the examples *)

Module Scenes.

Local Open Scope string_scope.

(** A colour trader that is flat although it has recorded LONG: its
    entry failed. *)
Definition flat_after_failed_entry : ColorTrader.state :=
  ColorTrader.set_current_signal (Some LONG) ColorTrader.initial.

(** A colour trader still long although it has recorded SHORT: its flip
    failed. *)
Definition long_after_failed_flip : ColorTrader.state :=
  ColorTrader.set_current_signal (Some SHORT) Fixture.holding_long.


(** A price feed that does not quote SOL. *)
Definition feed_without_sol : world :=
  {| clock := fun n => F.of_Z (1762176000 + Z.of_nat n);
     exchange := fun _ _ => HttpFail;
     all_mids := fun _ => Val (PDict [("BTC", PStr "103500.5")]);
     screen := fun _ => None |}.

(** [sum] as a fold from the left, as Python computes it before 3.12. *)
Definition fold_sum (l : list F.float) : F.float := fold_left F.add l (F.of_Z 0).

(** An order book with four times the size on the bid. *)
Definition l2_book : pyval :=
  PDict [("coin", PStr "SOL");
         ("levels",
          PList [PList [PList [PStr "150.20"; PStr "400.0"];
                        PList [PStr "150.19"; PStr "400.0"]];
                 PList [PList [PStr "150.25"; PStr "100.0"];
                        PList [PStr "150.26"; PStr "100.0"]]])].

Definition bullish : Book.book_snapshot :=
  {| Book.time := F.of_Z 1762176000;
     Book.imbalance_ratio := F.of_Z 4;
     Book.bid_size := F.of_Z 800;
     Book.ask_size := F.of_Z 200;
     Book.mid_price := F.of_decimal false 150225 (-3);
     Book.spread_bps := F.of_decimal false 33 (-1);
     Book.best_bid := F.of_decimal false 15020 (-2);
     Book.best_ask := F.of_decimal false 15025 (-2) |}.

(** The hunter with the position of [Fixture.hunter_open] and no history. *)
Definition managing : Book.state := Book.set_core Fixture.hunter_open Book.initial.

(** The lines of a [.env] file. *)
Definition env_head : list string := ["# wallet"; "HYPERLIQUID_PRIVATE_KEY=0xold"].
Definition env_key_line : string := "  HYPERLIQUID_PRIVATE_KEY=0xabc=1 ".
Definition env_tail : list string := ["OTHER=1"; ""].

End Scenes.

(** * Proofs *)

Ltac unfold_monad :=
  unfold M.try_finally, M.try_except, M.bind, M.lift, M.ret, M.raise, M.get, M.modify,
    M.now, M.post, M.fetch_mids, M.capture, M.sleep, M.json in *.

(** One step of symbolic execution: case analysis on the scrutinee of the
    first [match] of the goal. *)
Ltac red_m :=
  cbn beta iota zeta delta [clock_reads posts mids_calls captures log].

Ltac step :=
  match goal with
  | |- context [match ?x with _ => _ end] =>
      match x with
      | context [match _ with _ => _ end] => fail 1
      | _ => destruct x eqn:?
      end
  end; red_m.

Lemma item_path v k x rest :
  Py.item v k = Val x -> path v (k :: rest) = path x rest.
Proof.
  destruct v; cbn; try discriminate.
  destruct (Py.lookup k kv); cbn; [|discriminate]. now intros [= ->].
Qed.

Lemma response_statuses_path body v :
  ColorTrader.response_statuses body = Val v ->
  path body ["response"; "data"; "statuses"]%string = Some v.
Proof.
  unfold ColorTrader.response_statuses, Py.bind.
  destruct (Py.item body "response") as [r|] eqn:E1; [|discriminate].
  destruct (Py.item r "data") as [d|] eqn:E2; [|discriminate].
  intros E3.
  rewrite (item_path _ _ _ _ E1), (item_path _ _ _ _ E2), (item_path _ _ _ _ E3).
  reflexivity.
Qed.



Section ColorFacts.
Context {account : Account}.
Variable w : world.

Lemma ct_place_order_raw_cases action s i :
  ColorTrader.place_order_raw w action s i = (Val PNone, s, io_after_read i)
  \/ exists nonce sig,
      millis (clock w (clock_reads i)) = Val nonce
      /\ ColorTrader.sign_action action None nonce true = Val sig
      /\ let p := envelope action nonce sig PNone in
         ColorTrader.place_order_raw w action s i
         = (Val (reply_body (exchange w (posts i) p)), s, io_after_post p i).
Proof.
  unfold ColorTrader.place_order_raw. unfold_monad. red_m.
  destruct (millis (clock w (clock_reads i))) as [nonce|e] eqn:Hn; red_m; [|now left].
  destruct (ColorTrader.sign_action action None nonce true) as [sig|e] eqn:Hs; red_m; [|now left].
  right. exists nonce, sig. split; [reflexivity|]. split; [assumption|].
  unfold reply_body, M.status_code, io_after_post.
  destruct (exchange w (posts i) (envelope action nonce sig PNone)) as [|c [body|]];
    red_m; try reflexivity.
  all: destruct (c =? 200); reflexivity.
Qed.

Lemma ct_get_current_price_cases s i :
  exists r, ColorTrader.get_current_price w s i = (Val r, s, io_after_mids i).
Proof.
  unfold ColorTrader.get_current_price. unfold_monad. unfold io_after_mids.
  repeat step; eauto.
Qed.

Lemma iter_no_fill statuses items :
  Py.iter statuses = Val items ->
  (forall l, statuses = PList l -> existsb fill_status l = false) ->
  Forall (fun st => fill_status st = false) items.
Proof.
  intros Hi Hl. destruct statuses; cbn in Hi; try discriminate;
    injection Hi as <-.
  - apply Forall_forall. intros x Hx. apply in_map_iff in Hx as (c & <- & _). reflexivity.
  - apply Forall_forall. intros x Hx. apply in_map_iff in Hx as (c & <- & _). reflexivity.
  - specialize (Hl _ eq_refl). apply Forall_forall. intros x Hx.
    destruct (fill_status x) eqn:E; [|reflexivity].
    assert (existsb fill_status l = true) by (apply existsb_exists; eauto). congruence.
  - apply Forall_forall. intros x Hx. apply in_map_iff in Hx as (c & <- & _). reflexivity.
Qed.

Lemma ct_enter_scan_io d items :
  forall s i, exists o s', ColorTrader.enter_scan d items s i = (o, s', i).
Proof.
  induction items as [|st rest IH]; intros s i; cbn [ColorTrader.enter_scan].
  - unfold_monad. eauto.
  - unfold_monad. red_m. repeat step; eauto.
Qed.

Lemma ct_enter_scan_no_fill d items :
  Forall (fun st => fill_status st = false) items ->
  forall s i, exists o, ColorTrader.enter_scan d items s i = (o, s, i) /\ o <> Val true.
Proof.
  induction 1 as [|st rest Hst _ IH]; intros s i; cbn [ColorTrader.enter_scan].
  - unfold_monad. eexists; split; [reflexivity|discriminate].
  - unfold_monad. red_m.
    destruct st; cbn [Py.contains Py.item Py.of_option]; red_m;
      try (eexists; split; [reflexivity|discriminate]).
    + destruct (Py.substring_of _ _); red_m; [eexists; split; [reflexivity|discriminate]|apply IH].
    + destruct (existsb _ _); red_m; [eexists; split; [reflexivity|discriminate]|apply IH].
    + cbn in Hst. destruct (Py.lookup "filled" kv); [discriminate|]. red_m. apply IH.
Qed.

Lemma ct_close_scan_io items :
  forall s i, exists o s', ColorTrader.close_scan items s i = (o, s', i).
Proof.
  induction items as [|st rest IH]; intros s i; cbn [ColorTrader.close_scan].
  - unfold_monad. eauto.
  - unfold_monad. red_m. repeat step; eauto.
Qed.

Lemma ct_close_scan_no_fill items :
  Forall (fun st => fill_status st = false) items ->
  forall s i, exists o, ColorTrader.close_scan items s i = (o, s, i) /\ o <> Val true.
Proof.
  induction 1 as [|st rest Hst _ IH]; intros s i; cbn [ColorTrader.close_scan].
  - unfold_monad. eexists; split; [reflexivity|discriminate].
  - unfold_monad. red_m.
    destruct st; cbn [Py.contains Py.item Py.of_option]; red_m;
      try (eexists; split; [reflexivity|discriminate]).
    + destruct (Py.substring_of _ _); red_m; [eexists; split; [reflexivity|discriminate]|apply IH].
    + destruct (existsb _ _); red_m; [eexists; split; [reflexivity|discriminate]|apply IH].
    + cbn in Hst. destruct (Py.lookup "filled" kv); [discriminate|]. red_m. apply IH.
Qed.

(** A scan that ends in [True] found a fill and cleared the position; any
    other end leaves the fields as they were. *)
Lemma ct_close_scan_cases items :
  forall s i,
    (ColorTrader.close_scan items s i
     = (Val true,
        ColorTrader.set_current_position None
          (ColorTrader.set_position_open false
             (ColorTrader.set_position_direction None
                (ColorTrader.set_position_size None
                   (ColorTrader.set_entry_order_data PNone s)))), i)
     /\ existsb fill_status items = true)
    \/ exists o, ColorTrader.close_scan items s i = (o, s, i) /\ o <> Val true.
Proof.
  induction items as [|st rest IH]; intros s i; cbn [ColorTrader.close_scan].
  - right. unfold_monad. eexists; split; [reflexivity|discriminate].
  - unfold_monad. red_m.
    destruct (Py.contains "filled" st) as [[|]|e] eqn:Hc; red_m.
    + destruct st; cbn in Hc; try discriminate;
        cbn [Py.item Py.of_option]; red_m;
        try (right; eexists; split; [reflexivity|discriminate]).
      destruct (Py.lookup "filled" kv) as [fd|] eqn:Hl; cbn [Py.of_option]; red_m;
        [|right; eexists; split; [reflexivity|discriminate]].
      repeat step; try (right; eexists; split; [reflexivity|discriminate]).
      left. split; [reflexivity|]. cbn. rewrite Hl. reflexivity.
    + destruct (IH s i) as [[E F]|(o & E & F)].
      * left. split; [exact E|]. cbn [existsb]. rewrite F. apply orb_true_r.
      * right. eauto.
    + right. eexists; split; [reflexivity|discriminate].
Qed.

Lemma no_fill_items resp v items :
  confirms_fill resp = false ->
  ColorTrader.response_statuses (reply_body resp) = Val v ->
  Py.iter v = Val items ->
  Forall (fun st => fill_status st = false) items.
Proof.
  intros Hf Hv Hi. apply (iter_no_fill _ _ Hi). intros l ->.
  destruct resp as [|c [body|]]; cbn in Hv; try discriminate.
  destruct (c =? 200) eqn:Hc; [|discriminate].
  apply response_statuses_path in Hv. cbn in Hf. rewrite Hc in Hf.
  unfold body_statuses in Hf. rewrite Hv in Hf. exact Hf.
Qed.

Lemma ct_enter_position_cases d price s i :
  exists r s' i',
    ColorTrader.enter_position w d price s i = (Val r, s', i')
    /\ mids_calls i' = mids_calls i
    /\ ((log i' = log i /\ posts i' = posts i /\ r = false /\ s' = s)
        \/ exists p,
            opens d p = true
            /\ log i' = Post p :: log i /\ posts i' = S (posts i)
            /\ (confirms_fill (exchange w (posts i) p) = false -> r = false /\ s' = s)).
Proof.
  unfold ColorTrader.enter_position. unfold_monad. red_m.
  destruct (Py.truediv _ _) as [q|e]; red_m; [|eauto 10].
  destruct (ColorTrader.round_float _ 2) as [px|e]; red_m; [|eauto 10].
  destruct (ColorTrader.round_float _ 2) as [sz|e]; red_m; [|eauto 10].
  match goal with
  | |- context [ColorTrader.place_order_raw w ?a s i] =>
      destruct (ct_place_order_raw_cases a s i) as [E|(nonce & sig & Hn & Hs & E)];
      cbv zeta in E; rewrite E; clear E; red_m
  end.
  - cbn [ColorTrader.has_response_data Py.truthy]. red_m. eauto 10.
  - set (p := envelope _ nonce sig PNone).
    assert (Hopen : opens d p = true) by (destruct d; reflexivity).
    set (resp := exchange w (posts i) p).
    destruct (ColorTrader.has_response_data (reply_body resp)) as [[|]|e] eqn:Hd; red_m;
      try (do 3 eexists; split; [reflexivity|]; split; [reflexivity|];
           right; exists p; repeat split; auto; fail).
    destruct (ColorTrader.response_statuses (reply_body resp)) as [v|e] eqn:Hv; red_m;
      try (do 3 eexists; split; [reflexivity|]; split; [reflexivity|];
           right; exists p; repeat split; auto; fail).
    destruct (Py.iter v) as [items|e] eqn:Hi; red_m;
      try (do 3 eexists; split; [reflexivity|]; split; [reflexivity|];
           right; exists p; repeat split; auto; fail).
    destruct (ct_enter_scan_io d items s (io_after_post p i)) as (o & s' & E).
    rewrite E.
    assert (Hno : confirms_fill resp = false -> o <> Val true /\ s' = s).
    { intros Hf.
      destruct (ct_enter_scan_no_fill d items (no_fill_items _ _ _ Hf Hv Hi) s
                  (io_after_post p i)) as (o' & E' & Ho').
      rewrite E in E'. injection E' as <- <-. auto. }
    destruct o as [r|e]; red_m.
    + do 3 eexists; split; [reflexivity|]; split; [reflexivity|].
      right; exists p. split; [exact Hopen|]. split; [reflexivity|]. split; [reflexivity|].
      intros Hf. destruct (Hno Hf) as [Hr ->]. split; [|reflexivity].
      destruct r; congruence.
    + do 3 eexists; split; [reflexivity|]; split; [reflexivity|].
      right; exists p. split; [exact Hopen|]. split; [reflexivity|]. split; [reflexivity|].
      intros Hf. destruct (Hno Hf) as [Hr ->]. auto.
Qed.

Lemma ct_close_position_cases s i :
  ColorTrader.position_open s = true ->
  exists r s' i',
    ColorTrader.close_position w s i = (Val r, s', i')
    /\ (r = false -> ct_kept s s')
    /\ (r = true -> s' = ct_flat s)
    /\ ((log i' = log i /\ posts i' = posts i /\ r = false)
        \/ (log i' = Mids :: log i /\ posts i' = posts i /\ r = false)
        \/ exists p,
            ct_closes s p /\ reduce_only p = true
            /\ log i' = Post p :: Mids :: log i /\ posts i' = S (posts i)
            /\ (r = true -> confirms_fill (exchange w (posts i) p) = true)).
Proof.
  intros Hopen.
  unfold ColorTrader.close_position, ColorTrader.close_finally. unfold_monad. red_m.
  rewrite Hopen. cbn [negb]. red_m.
  destruct (upper (ColorTrader.position_direction s)) as [u|e] eqn:Hu; red_m.
  2:{ rewrite Hopen. cbn [negb]. do 3 eexists. split; [reflexivity|].
      split; [left; reflexivity|]. split; [discriminate|]. left. auto. }
  destruct (ct_get_current_price_cases s i) as (price & E). rewrite E. clear E. red_m.
  destruct price as [current_price|]; red_m.
  2:{ rewrite Hopen. cbn [negb]. do 3 eexists. split; [reflexivity|].
      split; [left; reflexivity|]. split; [discriminate|]. right. left. auto. }
  assert (Htail : forall s1,
             ct_kept s s1 -> ColorTrader.position_open s1 = true ->
             ColorTrader.position_direction s1 = ColorTrader.position_direction s ->
             (forall v, ColorTrader.position_size s = Some v -> F.is_zero v = false ->
                        ColorTrader.position_size s1 = Some v) ->
             forall o j,
               o <> Val true ->
               (log j = log i /\ posts j = posts i
                \/ log j = Mids :: log i /\ posts j = posts i
                \/ exists p, ct_closes s p /\ reduce_only p = true
                             /\ log j = Post p :: Mids :: log i /\ posts j = S (posts i)) ->
               exists r s' i',
                 (match o with Val a => Val a | Exc _ => Val false end, s1, j) = (Val r, s', i')
                 /\ (r = false -> ct_kept s s')
                 /\ (r = true -> s' = ct_flat s)
                 /\ ((log i' = log i /\ posts i' = posts i /\ r = false)
                     \/ (log i' = Mids :: log i /\ posts i' = posts i /\ r = false)
                     \/ exists p,
                         ct_closes s p /\ reduce_only p = true
                         /\ log i' = Post p :: Mids :: log i /\ posts i' = S (posts i)
                         /\ (r = true -> confirms_fill (exchange w (posts i) p) = true))).
  { intros s1 Hk Hopen1 Hdir Hsz o j Ho Hj.
    exists false, s1, j.
    split; [destruct o as [[|]|]; congruence|].
    split; [intros _; exact Hk|]. split; [discriminate|].
    destruct Hj as [(? & ?)|[(? & ?)|(p & ? & ? & ? & ?)]]; auto.
    right. right. exists p. repeat split; auto. discriminate. }
  assert (Hfacts : forall q,
             let s1 := if ColorTrader.size_missing (ColorTrader.position_size s)
                       then ColorTrader.set_position_size (Some (F.round_to 2 q)) s else s in
             ct_kept s s1 /\ ColorTrader.position_open s1 = true
             /\ ColorTrader.position_direction s1 = ColorTrader.position_direction s
             /\ (forall v, ColorTrader.position_size s = Some v -> F.is_zero v = false ->
                           ColorTrader.position_size s1 = Some v)).
  { intros q. cbv zeta.
    destruct (ColorTrader.size_missing (ColorTrader.position_size s)) eqn:Hm.
    - split; [right; eauto|]. split; [exact Hopen|]. split; [reflexivity|].
      intros v Hv Hz. rewrite Hv in Hm. cbn in Hm. congruence.
    - split; [left; reflexivity|]. split; [exact Hopen|]. split; [reflexivity|]. auto. }
  destruct (ColorTrader.size_missing (ColorTrader.position_size s)) eqn:Hm; red_m;
    [destruct (Py.truediv ColorTrader.position_usd current_price) as [q|e]; red_m;
     [specialize (Hfacts q)|]
    |specialize (Hfacts Lit.f1)].
  2:{ rewrite Hopen. cbn [negb].
      apply (Htail s (or_introl eq_refl) Hopen eq_refl (fun v H _ => H) (Exc e));
        [discriminate|auto]. }
  all: cbv zeta in Hfacts; destruct Hfacts as (Hk & Hopen1 & Hdir & Hsz).
  all: match type of Hopen1 with ColorTrader.position_open ?s1 = true =>
         pose proof (Htail s1 Hk Hopen1 Hdir Hsz) as Hfail end.
  all: destruct (ColorTrader.round_float _ 2) as [px|e]; red_m;
    [|rewrite Hopen1; cbn [negb]; apply (Hfail (Exc e)); [discriminate|auto]].
  all: match goal with
       | |- context [match match ?ps with
                           | Some v => ColorTrader.round_float v 2
                           | None => Exc TypeError
                           end with _ => _ end] =>
           destruct (match ps with
                     | Some v => ColorTrader.round_float v 2
                     | None => Exc TypeError
                     end) as [sz|e] eqn:Hsize; red_m;
           [|rewrite Hopen1; cbn [negb]; apply (Hfail (Exc e)); [discriminate|auto]]
       end.
  all: match goal with
       | |- context [ColorTrader.place_order_raw w ?a ?s1 ?j] =>
           destruct (ct_place_order_raw_cases a s1 j) as [E|(nonce & sig & Hn & Hs & E)];
           cbv zeta in E; rewrite E; clear E; red_m;
           [cbn [ColorTrader.has_response_data Py.truthy]; red_m;
            rewrite Hopen1; cbn [negb]; apply (Hfail (Val false)); [discriminate|auto]|]
       end.
  all: match goal with
       | |- context [reply_body (exchange w ?n ?p0)] =>
           set (p := p0); change n with (posts i); set (resp := exchange w (posts i) p)
       end.
  all: assert (Hcl : ct_closes s p)
    by (exists nonce, sig, px, sz; split;
        [unfold p, close_side; first [reflexivity | rewrite <- Hdir; reflexivity]
        |intros v Hv Hz; rewrite (Hsz v Hv Hz) in Hsize;
         change (ColorTrader.round_float v 2) with (Val (F.format_fixed 2 v)) in Hsize;
         congruence]).
  all: assert (Hro : reduce_only p = true) by reflexivity.
  all: assert (Hj : log (io_after_post p (io_after_mids i)) = Post p :: Mids :: log i
                    /\ posts (io_after_post p (io_after_mids i)) = S (posts i))
    by (split; reflexivity).
  all: destruct (ColorTrader.has_response_data (reply_body resp)) as [[|]|e] eqn:Hd; red_m;
    try (rewrite Hopen1; cbn [negb]; apply (Hfail (Val false)); [discriminate|];
         right; right; exists p; tauto);
    try (rewrite Hopen1; cbn [negb]; apply (Hfail (Exc e)); [discriminate|];
         right; right; exists p; tauto).
  all: destruct (ColorTrader.response_statuses (reply_body resp)) as [v|e] eqn:Hv; red_m;
    try (rewrite Hopen1; cbn [negb]; apply (Hfail (Exc e)); [discriminate|];
         right; right; exists p; tauto).
  all: destruct (Py.iter v) as [items|e] eqn:Hi; red_m;
    try (rewrite Hopen1; cbn [negb]; apply (Hfail (Exc e)); [discriminate|];
         right; right; exists p; tauto).
  all: match goal with
       | |- context [ColorTrader.close_scan ?it ?s1 ?j] =>
           destruct (ct_close_scan_cases it s1 j) as [[E Hex]|(o & E & Ho)];
           rewrite E; clear E
       end.
  all: try (destruct o as [r|e]; red_m; rewrite Hopen1; cbn [negb];
            [destruct r; [congruence|]; apply (Hfail (Val false)); [discriminate|];
             right; right; exists p; tauto
            |apply (Hfail (Exc e)); [discriminate|]; right; right; exists p; tauto]).
  all: cbn [ColorTrader.position_open ColorTrader.set_current_position
              ColorTrader.set_position_open negb];
    do 3 eexists; (split; [reflexivity|]); (split; [discriminate|]);
    (split; [intros _; reflexivity|]);
    right; right; exists p;
    (split; [exact Hcl|]); (split; [exact Hro|]);
    (split; [reflexivity|]); (split; [reflexivity|]);
    intros _; change (confirms_fill resp = true);
    destruct (confirms_fill resp) eqn:Hf; [reflexivity|];
    pose proof (no_fill_items _ _ _ Hf Hv Hi) as Hall;
    apply existsb_exists in Hex as (x & Hx & Hfx);
    rewrite Forall_forall in Hall; rewrite (Hall _ Hx) in Hfx; discriminate.
Qed.

(** The runs of [flip_position] from a state that holds a position. *)
Lemma ct_flip_position_cases d s i :
  ColorTrader.position_open s = true ->
  Py.truthy (ColorTrader.entry_order_data s) = true ->
  exists r s' i',
    ColorTrader.flip_position w d s i = (Val r, s', i')
    /\ ((r = false /\ ct_kept s s' /\ posts i' = posts i
         /\ (log i' = Mids :: log i \/ log i' = Mids :: Mids :: log i))
        \/ exists c,
            ct_closes s c /\ reduce_only c = true
            /\ ((r = false /\ ct_kept s s' /\ posts i' = S (posts i)
                 /\ log i' = Post c :: Mids :: Mids :: log i)
                \/ (confirms_fill (exchange w (posts i) c) = true
                    /\ ((r = false /\ s' = ct_flat s /\ posts i' = S (posts i)
                         /\ log i' = Sleep Lit.f10 :: Post c :: Mids :: Mids :: log i)
                        \/ exists e,
                            opens d e = true
                            /\ posts i' = S (S (posts i))
                            /\ log i'
                               = Post e :: Sleep Lit.f10 :: Post c :: Mids :: Mids :: log i
                            /\ (confirms_fill (exchange w (S (posts i)) e) = false ->
                                r = false /\ s' = ct_flat s))))).
Proof.
  intros Hopen Hdata.
  unfold ColorTrader.flip_position. unfold_monad. red_m.
  destruct (ct_get_current_price_cases s i) as (price & E). rewrite E. clear E. red_m.
  destruct price as [current_price|]; red_m.
  2:{ do 3 eexists. split; [reflexivity|]. left. repeat split; auto. left; reflexivity. }
  rewrite Hopen, Hdata. cbn [andb]. red_m.
  destruct (ct_close_position_cases s (io_after_mids i) Hopen)
    as (r & s1 & i1 & E & Hkept & Hflat & Hlog).
  rewrite E. clear E. red_m.
  destruct r; cbn [negb]; red_m.
  - (* the close was filled *)
    specialize (Hflat eq_refl). subst s1.
    destruct Hlog as [(_ & _ & F)|[(_ & _ & F)|(c & Hc & Hro & Hl & Hp & Hf)]];
      try discriminate.
    specialize (Hf eq_refl). cbn [posts io_after_mids] in Hf, Hp. cbn [log io_after_mids] in Hl.
    match goal with
    | |- context [ColorTrader.enter_position w d current_price ?s0 ?j] =>
        destruct (ct_enter_position_cases d current_price s0 j)
          as (r2 & s2 & i2 & E & _ & Hent); rewrite E; clear E; red_m
    end.
    cbn [log posts] in Hent. rewrite Hl, Hp in Hent.
    destruct Hent as [(Hl2 & Hp2 & -> & ->)|(e & He & Hl2 & Hp2 & Hnf)].
    + do 3 eexists. split; [reflexivity|]. right. exists c. split; [exact Hc|].
      split; [exact Hro|]. right. split; [exact Hf|]. left. auto.
    + destruct r2; red_m.
      * do 3 eexists. split; [reflexivity|]. right. exists c. split; [exact Hc|].
        split; [exact Hro|]. right. split; [exact Hf|]. right. exists e.
        split; [exact He|]. split; [exact Hp2|]. split; [exact Hl2|].
        intros Hn. destruct (Hnf Hn) as [? _]. discriminate.
      * do 3 eexists. split; [reflexivity|]. right. exists c. split; [exact Hc|].
        split; [exact Hro|]. right. split; [exact Hf|]. right. exists e.
        split; [exact He|]. split; [exact Hp2|]. split; [exact Hl2|].
        intros Hn. destruct (Hnf Hn) as [_ ->]. auto.
  - (* the close was not confirmed *)
    specialize (Hkept eq_refl).
    cbn [log posts io_after_mids] in Hlog.
    do 3 eexists. split; [reflexivity|].
    destruct Hlog as [(Hl & Hp & _)|[(Hl & Hp & _)|(c & Hc & Hro & Hl & Hp & _)]].
    + left. repeat split; auto.
    + left. repeat split; auto.
    + right. exists c. split; [exact Hc|]. split; [exact Hro|]. left. auto.
Qed.
End ColorFacts.

Ltac ct_proj :=
  cbn [ColorTrader.current_position ColorTrader.position_open ColorTrader.entry_order_data
       ColorTrader.position_size ColorTrader.position_direction ColorTrader.current_signal
       ColorTrader.last_signal_time ColorTrader.spinner_index ColorTrader.last_color_display
       ColorTrader.set_current_position ColorTrader.set_position_open
       ColorTrader.set_entry_order_data ColorTrader.set_position_size
       ColorTrader.set_position_direction ColorTrader.set_current_signal
       ColorTrader.set_last_signal_time ColorTrader.set_spinner_index
       ColorTrader.set_last_color_display ColorTrader.reset_position] in *.

Section ColorClaims.
Context {account : Account}.
Variable w : world.

Lemma holds_lower sg : ColorTrader.holds (ColorTrader.lower sg) (Some (ColorTrader.lower sg)) = true.
Proof. destruct sg; reflexivity. Qed.

(** Claim C8.  One turn of the colour trader's loop in which the screen
    shows the signal of the direction already held posts nothing, asks for
    no price and changes no position field: it only sleeps half a second. *)
Theorem tick_same_signal_is_idle (s : ColorTrader.state) (i : io) (sg : signal) :
  screen w (captures i) = Some (Some sg) ->
  ColorTrader.current_position s = Some (ColorTrader.lower sg) ->
  exists s' i',
    ColorTrader.tick w s i = (Val tt, s', i')
    /\ ct_same_position s s'
    /\ posts i' = posts i
    /\ mids_calls i' = mids_calls i
    /\ log i' = Sleep Lit.f0_5 :: log i.
Proof.
  intros Hscreen Hheld.
  unfold ColorTrader.tick, ColorTrader.get_spinner. unfold_monad. red_m.
  destruct (F.geb _ ColorTrader.signal_cooldown); red_m.
  2:{ do 2 eexists. split; [reflexivity|]. unfold ct_same_position. auto 10. }
  rewrite Hscreen. red_m.
  destruct (F.geb _ Lit.f5); red_m; ct_proj; rewrite Hheld, holds_lower; cbn [negb]; red_m.
  all: destruct (ColorTrader.same_signal sg _); cbn [negb]; red_m.
  all: do 2 eexists; (split; [reflexivity|]); unfold ct_same_position; ct_proj; auto 10.
Qed.
End ColorClaims.

Ltac h_proj :=
  cbn [Hunter.position_open Hunter.entry_time Hunter.entry_price Hunter.entry_order_data
       Hunter.position_direction Hunter.position_size Hunter.set_fill Hunter.set_size
       Hunter.set_direction Hunter.set_open Hunter.set_entry_time Hunter.set_entry_price] in *.

Lemma status_not_ok body :
  path body ["status"%string] <> Some (PStr "ok") -> status_ok body <> Val true.
Proof.
  unfold status_ok, Py.bind, Py.get. destruct body; cbn [path]; try discriminate.
  destruct (Py.lookup "status" kv) as [v|]; [|discriminate].
  intros H E. apply H. destruct v; unfold Py.is_str in E; try discriminate.
  assert (E' : String.eqb "ok" s = true) by congruence.
  apply String.eqb_eq in E'. now subst.
Qed.

Lemma status_ok_ok_body sts : status_ok (ok_body sts) = Val true.
Proof. reflexivity. Qed.

Lemma statuses_of_ok_body sts : statuses_of (ok_body sts) = Val (PList sts).
Proof. reflexivity. Qed.

Section HunterFacts.
Context {account : Account}.
Variable w : world.

Lemma hunter_submit_cases action (s : Hunter.state) i :
  (exists e, Hunter.submit w action s i = (Exc e, s, io_after_read i))
  \/ exists nonce sig,
      millis (clock w (clock_reads i)) = Val nonce
      /\ Hunter.sign_action action None nonce true = Val sig
      /\ let p := envelope action nonce sig PNone in
         Hunter.submit w action s i
         = (match exchange w (posts i) p with
            | HttpFail => Exc RequestException
            | r => Val r
            end, s, io_after_post p i).
Proof.
  unfold Hunter.submit. unfold_monad. red_m.
  destruct (millis (clock w (clock_reads i))) as [nonce|e] eqn:Hn; red_m; [|eauto].
  destruct (Hunter.sign_action action None nonce true) as [sig|e] eqn:Hs; red_m; [|eauto].
  right. exists nonce, sig. split; [reflexivity|]. split; [assumption|].
  cbv zeta. unfold io_after_post.
  destruct (exchange w (posts i) (envelope action nonce sig PNone)); reflexivity.
Qed.


Lemma try_except_unit {S} (body : M.t S unit) s i :
  exists s' i', M.try_except body (fun _ => M.ret tt) s i = (Val tt, s', i').
Proof.
  unfold M.try_except, M.ret. destruct (body s i) as [[[[]|e] s'] i']; eauto.
Qed.


Lemma len_cons_ge_1 (x : pyval) (l : list pyval) :
  (1 <=? Z.of_nat (List.length (x :: l))) = true.
Proof. apply Z.leb_le. cbn [List.length]. lia. Qed.

(** With an accepted grouped submission, [enter_position] reads the first
    status only. *)
Lemma hunter_enter_first_status d snap s i st0 rest ex :
  (forall p, ex (posts i) p = HttpReply 200 (Some (ok_body (st0 :: rest)))) ->
  Hunter.enter_position (with_exchange w ex) d snap s i
  = Hunter.enter_position
      (with_exchange w (fun _ _ => HttpReply 200 (Some (ok_body [st0])))) d snap s i.
Proof.
  intros Hex.
  unfold Hunter.enter_position, Hunter.place_grouped_order, Hunter.submit.
  unfold_monad. cbn [clock exchange with_exchange]. red_m.
  destruct (Py.truediv _ _) as [q|e]; red_m; [|reflexivity].
  repeat (destruct (Hunter.round_float _) as [?|?]; red_m; [|reflexivity]).
  destruct (millis _) as [nonce|e]; red_m; [|reflexivity].
  destruct (Hunter.sign_action _ None nonce true) as [sig|e]; red_m; [|reflexivity].
  rewrite Hex. red_m. unfold M.status_code. cbn [Z.eqb Pos.eqb]. unfold_monad. red_m.
  repeat (progress (red_m; rewrite ?status_ok_ok_body, ?statuses_of_ok_body;
                    cbn [Py.truthy Py.first Py.len Py.bind]; rewrite ?len_cons_ge_1)).
  reflexivity.
Qed.

(** With the entry filled, the position is recorded open for the filled
    size, whatever the other statuses are. *)
Lemma hunter_enter_filled d snap s i kv fkv txt v rest ex :
  (forall p, ex (posts i) p = HttpReply 200 (Some (ok_body (PDict kv :: rest)))) ->
  Py.lookup "error" kv = None ->
  Py.lookup "filled" kv = Some (PDict fkv) ->
  Py.lookup "totalSz" fkv = Some (PStr txt) ->
  Num.float_of_string txt = Some v ->
  exists s' i',
    Hunter.enter_position (with_exchange w ex) d snap s i = (Val tt, s', i')
    /\ ((posts i' = posts i /\ s' = s)
        \/ (posts i' = S (posts i)
            /\ Hunter.position_open s' = true
            /\ Hunter.position_size s' = Some v
            /\ Hunter.position_direction s' = Some d
            /\ Hunter.entry_order_data s' = PDict kv)).
Proof.
  intros Hex Herr Hfill Hsz Hv.
  unfold Hunter.enter_position, Hunter.place_grouped_order, Hunter.submit.
  unfold_monad. cbn [clock exchange with_exchange]. red_m.
  destruct (Py.truediv _ _) as [q|e]; red_m; [|eauto 10].
  repeat (destruct (Hunter.round_float _) as [?|?]; red_m; [|eauto 10]).
  destruct (millis _) as [nonce|e]; red_m; [|eauto 10].
  destruct (Hunter.sign_action _ None nonce true) as [sig|e]; red_m; [|eauto 10].
  rewrite Hex. red_m. unfold M.status_code. cbn [Z.eqb Pos.eqb]. unfold_monad. red_m.
  repeat (progress (red_m; rewrite ?status_ok_ok_body, ?statuses_of_ok_body;
                    cbn [Py.truthy Py.first Py.len Py.bind Py.is_dict Py.contains
                         Py.item Py.of_option Py.to_float];
                    rewrite ?len_cons_ge_1, ?Herr, ?Hfill, ?Hsz, ?Hv)).
  h_proj.
  repeat (progress (red_m;
                    cbn [Py.truthy Py.first Py.len Py.bind Py.is_dict Py.contains
                         Py.item Py.of_option Py.to_float];
                    rewrite ?Hfill)).
  assert (Hnonempty : Py.truthy (PDict kv) = true).
  { destruct kv; [discriminate|reflexivity]. }
  cbn [Py.truthy] in Hnonempty. rewrite Hnonempty. red_m.
  cbn [Py.bind Py.item Py.of_option]. rewrite ?Hfill. cbn [Py.of_option Py.item]. red_m.
  destruct (Py.of_option KeyError (Py.lookup "oid" fkv)); red_m.
  - destruct d; cbn [upper]; red_m; do 2 eexists; (split; [reflexivity|]); right; h_proj; auto.
  - do 2 eexists. split; [reflexivity|]. right. h_proj. auto.
Qed.
End HunterFacts.

Section ScalperFacts.
Context {account : Account}.
Variable w : world.

(** With an accepted grouped submission, the scalping bot's
    [place_grouped_order] reads the first status only. *)
Lemma scalper_first_status entry size tp sl u i st0 rest ex :
  (forall p, ex (posts i) p = HttpReply 200 (Some (ok_body (st0 :: rest)))) ->
  Scalper.place_grouped_order (with_exchange w ex) entry size tp sl u i
  = Scalper.place_grouped_order
      (with_exchange w (fun _ _ => HttpReply 200 (Some (ok_body [st0])))) entry size tp sl u i.
Proof.
  intros Hex.
  unfold Scalper.place_grouped_order.
  unfold_monad. cbn [clock exchange with_exchange]. red_m.
  repeat (destruct (Scalper.round_float _) as [?|?]; red_m; [|reflexivity]).
  destruct (millis _) as [nonce|e]; red_m; [|reflexivity].
  destruct (Scalper.sign_action _ None nonce true) as [sig|e]; red_m; [|reflexivity].
  rewrite Hex. red_m. unfold M.status_code. cbn [Z.eqb Pos.eqb]. unfold_monad. red_m.
  repeat (progress (red_m; rewrite ?status_ok_ok_body, ?statuses_of_ok_body;
                    cbn [Py.truthy Py.first Py.len Py.bind])).
  reflexivity.
Qed.
End ScalperFacts.

Section Stamps.
Variable w : world.

Lemma stamped_weaken b b' l : stamped w b l -> (b <= b')%nat -> stamped w b' l.
Proof.
  induction 1; intros Hb.
  - constructor.
  - econstructor; eauto. lia.
  - constructor; auto.
  - constructor; auto.
Qed.

Lemma stamped_bound b l n :
  stamped w b l -> In n (log_nonces l) ->
  exists k, (k < b)%nat /\ millis (clock w k) = Val n.
Proof.
  induction 1 as [|b k p m l Hp Hm Hk Hl IH|b l Hl IH|b t l Hl IH]; cbn [log_nonces]; intros Hin.
  - contradiction.
  - rewrite Hp in Hin. destruct Hin as [<-|Hin]; [eauto|].
    destruct (IH Hin) as (k' & Hk' & E). exists k'. split; [lia|exact E].
  - auto.
  - auto.
Qed.

Lemma stamped_sorted b l :
  clock_monotone w -> stamped w b l -> StronglySorted Z.ge (log_nonces l).
Proof.
  intros Hmono. induction 1 as [|b k p m l Hp Hm Hk Hl IH|b l Hl IH|b t l Hl IH]; cbn [log_nonces].
  - constructor.
  - rewrite Hp. constructor; [exact IH|].
    apply Forall_forall. intros n Hin.
    destruct (stamped_bound _ _ _ Hl Hin) as (k' & Hk' & E).
    apply Z.le_ge. apply (Hmono k' k n m); [lia|exact E|exact Hm].
  - exact IH.
  - exact IH.
Qed.

Lemma stamped_strict b l :
  clock_strict w -> stamped w b l -> StronglySorted Z.gt (log_nonces l).
Proof.
  intros Hmono. induction 1 as [|b k p m l Hp Hm Hk Hl IH|b l Hl IH|b t l Hl IH]; cbn [log_nonces].
  - constructor.
  - rewrite Hp. constructor; [exact IH|].
    apply Forall_forall. intros n Hin.
    destruct (stamped_bound _ _ _ Hl Hin) as (k' & Hk' & E).
    apply Z.lt_gt. apply (Hmono k' k n m); [lia|exact E|exact Hm].
  - exact IH.
  - exact IH.
Qed.

Lemma strictly_sorted_nodup l : StronglySorted Z.gt l -> NoDup l.
Proof.
  induction 1 as [|a l Hl IH Ha]; constructor; [|exact IH].
  intros Hin. rewrite Forall_forall in Ha. specialize (Ha _ Hin). lia.
Qed.

Context {S : Type}.

Lemma keeps_ret {A} (a : A) : keeps w (M.ret (S:=S) a).
Proof. intros s i H. exact H. Qed.

Lemma keeps_raise {A} e : keeps w (M.raise (S:=S) (A:=A) e).
Proof. intros s i H. exact H. Qed.

Lemma keeps_lift {A} (o : outcome A) : keeps w (M.lift (S:=S) o).
Proof. intros s i H. exact H. Qed.

Lemma keeps_get : keeps w (M.get (S:=S)).
Proof. intros s i H. exact H. Qed.

Lemma keeps_modify f : keeps w (M.modify (S:=S) f).
Proof. intros s i H. exact H. Qed.

Lemma keeps_json r : keeps w (M.json (S:=S) r).
Proof. destruct r as [|c [b|]]; intros s i H; exact H. Qed.

Lemma keeps_bind {A B} (m : M.t S A) (k : A -> M.t S B) :
  keeps w m -> (forall a, keeps w (k a)) -> keeps w (M.bind m k).
Proof.
  intros Hm Hk s i H. unfold M.bind. specialize (Hm s i H).
  destruct (m s i) as [[[a|e] s'] i']; cbn [snd] in *; [apply Hk|]; exact Hm.
Qed.

Lemma keeps_try_except {A} (m : M.t S A) h :
  keeps w m -> (forall e, keeps w (h e)) -> keeps w (M.try_except m h).
Proof.
  intros Hm Hh s i H. unfold M.try_except. specialize (Hm s i H).
  destruct (m s i) as [[[a|e] s'] i']; cbn [snd] in *; [|apply Hh]; exact Hm.
Qed.

Lemma keeps_try_finally {A} (m : M.t S A) f :
  keeps w m -> keeps w f -> keeps w (M.try_finally m f).
Proof.
  intros Hm Hf s i H. unfold M.try_finally. specialize (Hm s i H).
  destruct (m s i) as [[r s'] i']; cbn [snd] in *.
  specialize (Hf s' i' Hm). destruct (f s' i') as [[[u|e] s''] i'']; exact Hf.
Qed.

Lemma keeps_now : keeps w (M.now (S:=S) w).
Proof.
  intros s i H. unfold M.now, io_ok in *. cbn. eapply stamped_weaken; [exact H|lia].
Qed.

Lemma keeps_fetch_mids : keeps w (M.fetch_mids (S:=S) w).
Proof. intros s i H. unfold M.fetch_mids, io_ok in *. cbn. now constructor. Qed.

Lemma keeps_capture : keeps w (M.capture (S:=S) w).
Proof. intros s i H. exact H. Qed.

Lemma keeps_sleep t : keeps w (M.sleep (S:=S) t).
Proof. intros s i H. unfold M.sleep, io_ok in *. cbn. now constructor. Qed.

Lemma io_ok_after_read i : io_ok w i -> io_ok w (io_after_read i).
Proof. intros H. unfold io_ok in *. cbn. eapply stamped_weaken; [exact H|lia]. Qed.

Lemma io_ok_after_post action nonce sig i :
  io_ok w i -> millis (clock w (clock_reads i)) = Val nonce ->
  io_ok w (io_after_post (envelope action nonce sig PNone) i).
Proof.
  intros H Hn. unfold io_ok in *. cbn [clock_reads log io_after_post].
  eapply stamped_post; [reflexivity|exact Hn|lia|exact H].
Qed.
End Stamps.

Ltac keeps_step :=
  match goal with
  | |- keeps _ (M.bind _ _) => apply keeps_bind; [|intro]
  | |- keeps _ (M.ret _) => apply keeps_ret
  | |- keeps _ (M.raise _) => apply keeps_raise
  | |- keeps _ (M.lift _) => apply keeps_lift
  | |- keeps _ M.get => apply keeps_get
  | |- keeps _ (M.modify _) => apply keeps_modify
  | |- keeps _ (M.json _) => apply keeps_json
  | |- keeps _ (M.try_except _ _) => apply keeps_try_except; [|intro]
  | |- keeps _ (M.try_finally _ _) => apply keeps_try_finally
  | |- keeps _ (M.now _) => apply keeps_now
  | |- keeps _ (M.fetch_mids _) => apply keeps_fetch_mids
  | |- keeps _ (M.capture _) => apply keeps_capture
  | |- keeps _ (M.sleep _) => apply keeps_sleep
  | |- keeps _ (if ?b then _ else _) => destruct b
  | |- keeps _ (match ?x with _ => _ end) => destruct x
  | H : keeps _ ?m |- keeps _ ?m => exact H
  end.

Section ColorStamps.
Context {account : Account}.
Variable w : world.

Lemma keeps_ct_place_order_raw action : keeps w (ColorTrader.place_order_raw w action).
Proof.
  intros s i H.
  destruct (ct_place_order_raw_cases w action s i) as [E|(nonce & sig & Hn & Hs & E)];
    cbv zeta in E; rewrite E; cbn [snd].
  - now apply io_ok_after_read.
  - now apply io_ok_after_post.
Qed.

Lemma keeps_ct_enter_scan d items : keeps w (ColorTrader.enter_scan d items).
Proof.
  intros s i H. destruct (ct_enter_scan_io d items s i) as (o & s' & E). now rewrite E.
Qed.

Lemma keeps_ct_close_scan items : keeps w (ColorTrader.close_scan items).
Proof.
  intros s i H. destruct (ct_close_scan_io items s i) as (o & s' & E). now rewrite E.
Qed.

Lemma keeps_ct_get_current_price : keeps w (ColorTrader.get_current_price w).
Proof. unfold ColorTrader.get_current_price. repeat keeps_step. Qed.

Lemma keeps_ct_enter_position d price : keeps w (ColorTrader.enter_position w d price).
Proof.
  unfold ColorTrader.enter_position. cbv zeta.
  repeat first [apply keeps_ct_place_order_raw | apply keeps_ct_enter_scan | keeps_step].
Qed.

Lemma keeps_ct_close_position : keeps w (ColorTrader.close_position w).
Proof.
  unfold ColorTrader.close_position, ColorTrader.close_finally. cbv zeta.
  repeat first [apply keeps_ct_place_order_raw | apply keeps_ct_close_scan
               | apply keeps_ct_get_current_price | keeps_step].
Qed.

Lemma keeps_ct_flip_position d : keeps w (ColorTrader.flip_position w d).
Proof.
  unfold ColorTrader.flip_position. cbv zeta.
  repeat first [apply keeps_ct_get_current_price | apply keeps_ct_close_position
               | apply keeps_ct_enter_position | keeps_step].
Qed.

Lemma keeps_ct_tick : keeps w (ColorTrader.tick w).
Proof.
  unfold ColorTrader.tick, ColorTrader.get_spinner. cbv zeta.
  repeat first [apply keeps_ct_flip_position | keeps_step].
Qed.

Lemma keeps_ct_run n : keeps w (ColorTrader.run w n).
Proof.
  induction n as [|n IH]; cbn [ColorTrader.run].
  - apply keeps_ret.
  - apply keeps_bind; [apply keeps_ct_tick|intros _; exact IH].
Qed.
End ColorStamps.

Section HunterStamps.
Context {account : Account}.
Variable w : world.

Lemma keeps_hunter_submit action : keeps w (Hunter.submit w action).
Proof.
  intros s i H.
  destruct (hunter_submit_cases w action s i) as [(e & E)|(nonce & sig & Hn & Hs & E)];
    cbv zeta in E; rewrite E; cbn [snd].
  - now apply io_ok_after_read.
  - now apply io_ok_after_post.
Qed.

Lemma keeps_hunter_get_current_price : keeps w (Hunter.get_current_price w).
Proof. unfold Hunter.get_current_price. repeat keeps_step. Qed.

Lemma keeps_hunter_place_order_raw order : keeps w (Hunter.place_order_raw w order).
Proof.
  unfold Hunter.place_order_raw. repeat first [apply keeps_hunter_submit | keeps_step].
Qed.

Lemma keeps_hunter_place_grouped_order orders :
  keeps w (Hunter.place_grouped_order w orders).
Proof.
  unfold Hunter.place_grouped_order. repeat first [apply keeps_hunter_submit | keeps_step].
Qed.

Lemma keeps_hunter_enter_position d snap : keeps w (Hunter.enter_position w d snap).
Proof.
  unfold Hunter.enter_position. cbv zeta.
  repeat first [apply keeps_hunter_place_grouped_order | keeps_step].
Qed.

Lemma keeps_hunter_close_position : keeps w (Hunter.close_position w).
Proof.
  unfold Hunter.close_position, Hunter.reset_tracking. cbv zeta.
  repeat first [apply keeps_hunter_place_order_raw | apply keeps_hunter_submit
               | apply keeps_hunter_get_current_price | keeps_step].
Qed.

Lemma keeps_hunter_manage_position : keeps w (Hunter.manage_position w).
Proof.
  unfold Hunter.manage_position. cbv zeta.
  repeat first [apply keeps_hunter_close_position | keeps_step].
Qed.
End HunterStamps.

Section ScalperStamps.
Context {account : Account}.
Variable w : world.

(** A clock reading, its millisecond value as the nonce, the signature and
    the post of the envelope. *)
Lemma keeps_stamped_submission {S A} (sign : Z -> outcome pyval) (action : pyval)
      (k : http_response -> M.t S A) (h : exn -> M.t S A) :
  (forall r, keeps w (k r)) -> (forall e, keeps w (h e)) ->
  keeps w (M.bind (M.now w) (fun t =>
           M.bind (M.lift (millis t)) (fun nonce =>
           M.bind (M.lift (sign nonce)) (fun signature =>
           M.try_except
             (M.bind (M.post w (envelope action nonce signature PNone)) k) h)))).
Proof.
  intros Hk Hh s i H.
  unfold M.bind at 1 2 3. unfold M.now, M.lift. red_m.
  destruct (millis (clock w (clock_reads i))) as [nonce|e] eqn:Hn; red_m;
    [|now apply io_ok_after_read].
  destruct (sign nonce) as [sig|e]; red_m; [|now apply io_ok_after_read].
  pose proof (io_ok_after_post w action nonce sig i H Hn) as Hp.
  unfold M.try_except, M.bind, M.post. red_m.
  destruct (exchange w (posts i) (envelope action nonce sig PNone)) as [|c b] eqn:Hx.
  - apply (Hh RequestException s _ Hp).
  - specialize (Hk (HttpReply c b) s _ Hp). unfold io_after_post in Hk.
    match goal with
    | |- context [k ?r ?s0 ?j] => destruct (k r s0 j) as [[[a|e] s'] i']
    end; cbn [snd] in *; [exact Hk|].
    apply (Hh e s' i' Hk).
Qed.

Lemma keeps_scalper_place_grouped_order entry size tp sl :
  keeps w (Scalper.place_grouped_order w entry size tp sl).
Proof.
  unfold Scalper.place_grouped_order. cbv zeta.
  do 8 (apply keeps_bind; [apply keeps_lift|intro]).
  apply keeps_stamped_submission; intros; repeat keeps_step.
Qed.
End ScalperStamps.

Section Bytes.

Lemma be_bytes_length k n : List.length (Py.be_bytes k n) = k.
Proof. induction k; cbn [Py.be_bytes List.length]; congruence. Qed.

Lemma be_bytes_range k n : Forall is_byte (Py.be_bytes k n).
Proof.
  induction k; cbn [Py.be_bytes]; constructor; [|assumption].
  unfold is_byte. apply Z.mod_pos_bound. lia.
Qed.

Lemma be_value_from bs a :
  fold_left (fun a b => 256 * a + b) bs a
  = a * 256 ^ Z.of_nat (List.length bs) + be_value bs.
Proof.
  unfold be_value. revert a. induction bs as [|b bs IH]; intros a.
  - cbn. lia.
  - cbn [fold_left List.length]. rewrite IH. rewrite (IH (256 * 0 + b)).
    rewrite Nat2Z.inj_succ, Z.pow_succ_r by lia. lia.
Qed.

Lemma be_bytes_value k n : 0 <= n -> be_value (Py.be_bytes k n) = n mod 256 ^ Z.of_nat k.
Proof.
  intros Hn. induction k as [|k IH].
  - cbn. now rewrite Z.mod_1_r.
  - cbn [Py.be_bytes]. unfold be_value. cbn [fold_left].
    rewrite be_value_from, be_bytes_length, IH.
    rewrite Nat2Z.inj_succ, Z.pow_succ_r by lia.
    set (p := 256 ^ Z.of_nat k). assert (0 < p) by (apply Z.pow_pos_nonneg; lia).
    rewrite (Z.mul_comm 256 p), Z.rem_mul_r by lia. lia.
Qed.

Lemma hex_not_space c d : Text.hex_val c = Some d -> Text.is_space c = false.
Proof.
  unfold Text.hex_val, Text.is_space. intros H.
  destruct (Text.code c =? 32) eqn:E1; [apply Z.eqb_eq in E1; rewrite E1 in H; discriminate|].
  destruct ((9 <=? Text.code c) && (Text.code c <=? 13)) eqn:E2; [|reflexivity].
  apply andb_prop in E2 as [A B]. apply Z.leb_le in A, B.
  repeat match type of H with
         | (if ?b then _ else _) = _ =>
             let E := fresh in destruct b eqn:E;
             [apply andb_prop in E as [? ?]; lia|]
         end.
  discriminate.
Qed.

Lemma fromhex_chars_pairs cs bs :
  hex_pairs cs bs ->
  forall fuel, (List.length cs <= fuel)%nat -> Py.fromhex_chars fuel cs = Some bs.
Proof.
  induction 1 as [|c1 c2 hi lo cs bs H1 H2 _ IH]; intros fuel Hf.
  - destruct fuel; reflexivity.
  - destruct fuel as [|fuel]; cbn [List.length] in Hf; [lia|].
    cbn [Py.fromhex_chars]. rewrite (hex_not_space _ _ H1), H1, H2.
    rewrite IH by lia. reflexivity.
Qed.

Lemma chars_text l : Text.chars (Text.text l) = l.
Proof. apply list_ascii_of_string_of_list_ascii. Qed.

Lemma length_text l : String.length (Text.text l) = List.length l.
Proof.
  unfold Text.text.
  induction l; cbn [string_of_list_ascii String.length List.length]; congruence.
Qed.

Lemma hex_val_not_x d : Text.hex_val "x"%char = Some d -> False.
Proof. discriminate. Qed.

Lemma fromhex_address v addr :
  address_text v addr -> Py.fromhex (Py.removeprefix_0x v) = Val addr.
Proof.
  intros (_ & h & Hp & Hv).
  assert (E : Py.removeprefix_0x v = Text.text h).
  { destruct Hv as [-> | ->]; [reflexivity|].
    destruct Hp as [|c1 c2 hi lo cs bs H1 H2 _]; [reflexivity|].
    cbn [Text.text string_of_list_ascii Py.removeprefix_0x].
    destruct c1 as [[] [] [] [] [] [] [] []]; try reflexivity.
    destruct c2 as [[] [] [] [] [] [] [] []]; try reflexivity.
    discriminate. }
  rewrite E. unfold Py.fromhex. rewrite chars_text, length_text.
  now rewrite (fromhex_chars_pairs _ _ Hp).
Qed.

End Bytes.

Section KeccakFacts.

Lemma xor_into_length st blk : List.length (Keccak.xor_into st blk) = List.length st.
Proof.
  revert blk. induction st as [|a st IH]; intros [|b blk]; cbn; auto.
Qed.

Lemma round_length st rc : List.length (Keccak.round st rc) = 25%nat.
Proof.
  unfold Keccak.round, Keccak.iota, Keccak.chi.
  match goal with
  | |- List.length (match ?l with _ => _ end) = _ =>
      assert (Hl : List.length l = 25%nat) by (rewrite length_map; reflexivity);
      destruct l; [discriminate|exact Hl]
  end.
Qed.

Lemma rounds_length rcs st :
  List.length st = 25%nat -> List.length (fold_left Keccak.round rcs st) = 25%nat.
Proof.
  revert st. induction rcs as [|rc rcs IH]; intros st H; cbn [fold_left]; [exact H|].
  apply IH, round_length.
Qed.

Lemma absorb_length fuel st bs :
  List.length st = 25%nat -> List.length (Keccak.absorb fuel st bs) = 25%nat.
Proof.
  revert st bs. induction fuel as [|fuel IH]; intros st bs H; cbn [Keccak.absorb].
  - exact H.
  - destruct bs; [exact H|]. apply IH. unfold Keccak.keccak_f.
    apply rounds_length. now rewrite xor_into_length.
Qed.

Lemma le_bytes_length k n : List.length (Keccak.le_bytes k n) = k.
Proof. revert n. induction k; intros n; cbn; auto. Qed.

Lemma lanes_bytes_length st :
  List.length (flat_map (Keccak.le_bytes 8) st) = (8 * List.length st)%nat.
Proof.
  induction st as [|a st IH]; [reflexivity|].
  cbn [flat_map]. rewrite length_app, le_bytes_length, IH. cbn [List.length]. lia.
Qed.

(** A digest has 32 bytes. *)
Lemma keccak_length msg : List.length (Keccak.keccak msg) = 32%nat.
Proof.
  unfold Keccak.keccak. cbv zeta.
  rewrite length_firstn, lanes_bytes_length, absorb_length by apply repeat_length.
  reflexivity.
Qed.

End KeccakFacts.

(** Claim C1.  [hash_action] returns the Keccak-256 hash of the msgpack
    bytes of the action, followed by the nonce as 8 big-endian bytes,
    followed by the single byte 0 when no vault address is given, and by
    the byte 1 and the 20 bytes of the address when one is given.  The
    hypotheses are the conditions under which the Python code returns at
    all: the action can be packed, the nonce fits 8 bytes, the vault is the
    hexadecimal text of 20 bytes.  The three bots share this function. *)
Theorem hash_action_layout (action : pyval) (vault : option string) (nonce : Z)
        (packed tail : list Z) :
  Msgpack.packb action = Val packed ->
  0 <= nonce < 2 ^ 64 ->
  vault_tail vault tail ->
  exists nonce_bytes,
    List.length nonce_bytes = 8%nat
    /\ Forall is_byte nonce_bytes
    /\ be_value nonce_bytes = nonce
    /\ Scalper.hash_action action vault nonce
       = Val (Keccak.keccak (packed ++ nonce_bytes ++ tail)).
Proof.
  intros Hpack Hn Hv. exists (Py.be_bytes 8 nonce).
  split; [apply be_bytes_length|]. split; [apply be_bytes_range|].
  split; [rewrite be_bytes_value by lia; apply Z.mod_small; exact Hn|].
  unfold Scalper.hash_action, Py.bind, Py.to_bytes. rewrite Hpack.
  assert (Hr : (0 <=? nonce) && (nonce <? 256 ^ Z.of_nat 8) = true).
  { apply andb_true_intro. split; [apply Z.leb_le|apply Z.ltb_lt]; [lia|].
    change (256 ^ Z.of_nat 8) with (2 ^ 64). lia. }
  rewrite Hr. destruct Hv as [|v addr Ha].
  - now rewrite <- app_assoc.
  - rewrite (fromhex_address _ _ Ha). rewrite <- !app_assoc. reflexivity.
Qed.

Section Signing.
Context {account : Account}.

Lemma hash_action_length action vault nonce h :
  Scalper.hash_action action vault nonce = Val h -> List.length h = 32%nat.
Proof.
  unfold Scalper.hash_action, Py.bind.
  destruct (Msgpack.packb action); [|discriminate].
  destruct (Py.to_bytes 8 nonce); [|discriminate].
  destruct vault as [v|].
  - destruct (Py.fromhex _); [|discriminate]. intros [= <-]. apply keccak_length.
  - intros [= <-]. apply keccak_length.
Qed.

Lemma sign_inner_returns data encoded sg :
  encode_typed_data data = Val encoded ->
  sign_message encoded = Val sg ->
  Scalper.sign_inner data = Val (signature_dict sg).
Proof.
  intros He Hs. unfold Scalper.sign_inner, Py.bind. now rewrite He, Hs.
Qed.

(** Claim C2.  [sign_action] signs an EIP-712 request with the fixed domain
    (chain id 1337, name Exchange, the zero address as verifying contract,
    version 1), primary type Agent, and one Agent message whose source is
    the one-character marker [a] (mainnet) or [b] (testnet) and whose
    connection id is the 32-byte hash of [hash_action]; what it returns is
    the dictionary [{r, s, v}] of the signature.  The scalper and the hunter
    pass the hash as bytes, the colour trader as its hexadecimal text. *)
Theorem sign_action_typed_data (action : pyval) (vault : option string) (nonce : Z)
        (is_mainnet : bool) (h : list Z) :
  Scalper.hash_action action vault nonce = Val h ->
  let source := (if is_mainnet then "a" else "b")%string in
  String.length source = 1%nat
  /\ List.length h = 32%nat
  /\ (exists data,
        agent_request data source (PBytes h)
        /\ Scalper.sign_action action vault nonce is_mainnet = Scalper.sign_inner data
        /\ forall encoded sg,
            encode_typed_data data = Val encoded -> sign_message encoded = Val sg ->
            Scalper.sign_action action vault nonce is_mainnet = Val (signature_dict sg))
  /\ (exists data,
        agent_request data source (PStr (Py.to_hex_bytes h))
        /\ ColorTrader.sign_action action vault nonce is_mainnet = Scalper.sign_inner data
        /\ forall encoded sg,
            encode_typed_data data = Val encoded -> sign_message encoded = Val sg ->
            ColorTrader.sign_action action vault nonce is_mainnet = Val (signature_dict sg)).
Proof.
  intros Hh source.
  split; [destruct is_mainnet; reflexivity|].
  split; [exact (hash_action_length _ _ _ _ Hh)|].
  split.
  - exists (Scalper.typed_data (PDict [("source", PStr source); ("connectionId", PBytes h)]%string)).
    assert (E : Scalper.sign_action action vault nonce is_mainnet
                = Scalper.sign_inner
                    (Scalper.typed_data
                       (PDict [("source", PStr source); ("connectionId", PBytes h)]%string))).
    { unfold Scalper.sign_action, Py.bind. now rewrite Hh. }
    split; [repeat split|]. split; [exact E|].
    intros encoded sg He Hs. rewrite E. now apply sign_inner_returns with encoded.
  - exists (Scalper.typed_data
              (PDict [("source", PStr source);
                      ("connectionId", PStr (Py.to_hex_bytes h))]%string)).
    assert (E : ColorTrader.sign_action action vault nonce is_mainnet
                = Scalper.sign_inner
                    (Scalper.typed_data
                       (PDict [("source", PStr source);
                               ("connectionId", PStr (Py.to_hex_bytes h))]%string))).
    { unfold ColorTrader.sign_action, ColorTrader.hash_action, Py.bind. now rewrite Hh. }
    split; [repeat split|]. split; [exact E|].
    intros encoded sg He Hs. rewrite E. now apply sign_inner_returns with encoded.
Qed.
End Signing.

Section Digits.
Import Text.

Lemma small_cases (d : N) :
  (d < 10)%N ->
  (d = 0 \/ d = 1 \/ d = 2 \/ d = 3 \/ d = 4 \/ d = 5 \/ d = 6 \/ d = 7 \/ d = 8 \/ d = 9)%N.
Proof. lia. Qed.

Lemma digit_char_is_digit d : (d < 10)%N -> is_digit (digit_char d) = true.
Proof.
  intros H. destruct (small_cases d H) as [->|[->|[->|[->|[->|[->|[->|[->|[->| ->]]]]]]]]];
    reflexivity.
Qed.

Lemma digit_val_char d : (d < 10)%N -> digit_val (digit_char d) = d.
Proof.
  intros H. destruct (small_cases d H) as [->|[->|[->|[->|[->|[->|[->|[->|[->| ->]]]]]]]]];
    reflexivity.
Qed.

Lemma mod10_lt n : (n mod 10 < 10)%N.
Proof. apply N.mod_lt. discriminate. Qed.

Lemma size_nat_gt n : (n < 2 ^ N.of_nat (N.size_nat n))%N.
Proof.
  destruct n as [|p]; [reflexivity|]. cbn [N.size_nat].
  induction p as [p IH|p IH|]; cbn [Pos.size_nat].
  - rewrite Nat2N.inj_succ, N.pow_succ_r'. lia.
  - rewrite Nat2N.inj_succ, N.pow_succ_r'. lia.
  - reflexivity.
Qed.

Lemma digits_fuel_S f n acc :
  digits_fuel (S f) n acc
  = if (n / 10 =? 0)%N then digit_char (n mod 10) :: acc
    else digits_fuel f (n / 10)%N (digit_char (n mod 10) :: acc).
Proof. reflexivity. Qed.

(** The digits written by [digits_fuel] and their value. *)
Lemma digits_fuel_spec fuel :
  forall n acc,
    (n < 2 ^ N.of_nat fuel)%N ->
    exists ds,
      digits_fuel (S fuel) n acc = (ds ++ acc)%list
      /\ ds <> []
      /\ Forall (fun c => is_digit c = true) ds
      /\ forall a, fold_left step ds a
                   = (a * 10 ^ N.of_nat (List.length ds) + n)%N.
Proof.
  induction fuel as [|fuel IH]; intros n acc Hn.
  - assert (n = 0%N) by (cbn in Hn; lia).
    subst n. exists [digit_char 0]. rewrite digits_fuel_S. cbn [N.div N.modulo N.eqb].
    repeat split; try discriminate.
    + constructor; [reflexivity|constructor].
    + intros a. cbn [fold_left List.length]. unfold step.
      change (digit_val (digit_char 0)) with 0%N. cbn [N.of_nat]. lia.
  - rewrite digits_fuel_S. destruct (n / 10 =? 0)%N eqn:Hq.
    + apply N.eqb_eq in Hq. exists [digit_char (n mod 10)].
      repeat split; try discriminate.
      * constructor; [apply digit_char_is_digit, mod10_lt|constructor].
      * intros a. cbn [fold_left List.length]. unfold step.
        rewrite digit_val_char by apply mod10_lt.
        pose proof (N.div_mod n 10). change (N.of_nat 1) with 1%N. lia.
    + assert (Hsz : (n / 10 < 2 ^ N.of_nat fuel)%N).
      { rewrite Nat2N.inj_succ, N.pow_succ_r' in Hn.
        apply N.Div0.div_lt_upper_bound. lia. }
      destruct (IH (n / 10)%N (digit_char (n mod 10) :: acc) Hsz)
        as (ds & E & Hne & Hd & Hv).
      exists (ds ++ [digit_char (n mod 10)])%list.
      split; [rewrite E, <- app_assoc; reflexivity|].
      split; [destruct ds; discriminate|].
      split; [apply Forall_app; split; [exact Hd|];
              constructor; [apply digit_char_is_digit, mod10_lt|constructor]|].
      intros a. rewrite fold_left_app, Hv. cbn [fold_left]. unfold step.
      rewrite digit_val_char by apply mod10_lt.
      rewrite length_app. cbn [List.length]. rewrite Nat.add_1_r, Nat2N.inj_succ, N.pow_succ_r'.
      pose proof (N.div_mod n 10). lia.
Qed.

Lemma digits_spec n :
  exists ds,
    digits n = ds /\ ds <> []
    /\ Forall (fun c => is_digit c = true) ds
    /\ forall a, fold_left step ds a = (a * 10 ^ N.of_nat (List.length ds) + n)%N.
Proof.
  unfold digits.
  destruct (digits_fuel_spec (N.size_nat n) n [] (size_nat_gt n)) as (ds & E & H).
  exists ds. rewrite E, app_nil_r. auto.
Qed.

Lemma digits_pad_spec k :
  forall n acc,
    exists ds,
      digits_pad k n acc = (ds ++ acc)%list
      /\ List.length ds = k
      /\ Forall (fun c => is_digit c = true) ds
      /\ forall a, fold_left step ds a = (a * 10 ^ N.of_nat k + n mod 10 ^ N.of_nat k)%N.
Proof.
  induction k as [|k IH]; intros n acc.
  - exists []. cbn. repeat split; auto. intros a. rewrite N.mod_1_r. lia.
  - cbn [digits_pad].
    destruct (IH (n / 10)%N (digit_char (n mod 10) :: acc)) as (ds & E & Hl & Hd & Hv).
    exists (ds ++ [digit_char (n mod 10)])%list.
    split; [rewrite E, <- app_assoc; reflexivity|].
    split; [rewrite length_app; cbn; lia|].
    split; [apply Forall_app; split; [exact Hd|];
            constructor; [apply digit_char_is_digit, mod10_lt|constructor]|].
    intros a. rewrite fold_left_app, Hv. cbn [fold_left]. unfold step.
    rewrite digit_val_char by apply mod10_lt.
    rewrite Nat2N.inj_succ, N.pow_succ_r'.
    set (p := (10 ^ N.of_nat k)%N). assert (p <> 0)%N by (apply N.pow_nonzero; lia).
    rewrite (N.Div0.mod_mul_r n 10 p).
    lia.
Qed.


End Digits.

Section Parsing.
Import Text.









Lemma fixed_not_minus_zero d x :
  F.is_finite x = true -> (1 <= d)%nat -> String.eqb (F.format_fixed d x) "-0" = false.
Proof.
  intros Hfin Hd. apply String.eqb_neq. intros E.
  apply (f_equal String.length) in E.
  assert (E' : F.format_fixed d x
              = text (sign_chars (F.sign_bit x) ++ F.fixed_digits d (F.scaled d x))).
  { destruct x; try discriminate; reflexivity. }
  rewrite E', length_text, length_app in E. unfold F.fixed_digits in E.
  destruct d as [|d]; [lia|].
  destruct (digits_spec (F.scaled (S d) x / 10 ^ N.of_nat (S d))) as (ip & Ei & Hne & _).
  destruct (digits_pad_spec (S d) (F.scaled (S d) x mod 10 ^ N.of_nat (S d)) [])
    as (fp & Ef & Hl & _).
  rewrite Ei, Ef, app_nil_r, length_app in E. cbn [List.length] in E. rewrite Hl in E.
  destruct ip; [congruence|]. cbn [List.length String.length] in E.
  destruct (F.sign_bit x); cbn [sign_chars List.length] in E; lia.
Qed.

End Parsing.

Section Decimals.
Import Text.








End Decimals.


Lemma ct_kept_open s s' :
  ct_kept s s' -> ColorTrader.position_open s' = ColorTrader.position_open s.
Proof. intros [->|(_ & est & ->)]; reflexivity. Qed.

Lemma ct_closes_is_close s p : ct_closes s p -> forall d, opens d p = false.
Proof. intros (nonce & sig & px & sz & -> & _) d. reflexivity. Qed.


Section PositionClaims.

Context {account : Account}.
Variable w : world.


(** Claim C5.  With a position open, when the reply to the close
    submission reports no fill, [close_position] of the colour trader
    returns [False] and keeps the position; and [flip_position], which
    submits a close when the position is open and its entry data is
    stored, returns [False], keeps the position, and posts nothing but
    reduce-only orders: no entry order for either side is submitted. *)
Theorem unfilled_close_keeps_position (d : direction) (s : ColorTrader.state) (i : io) :
  ColorTrader.position_open s = true ->
  (forall p, confirms_fill (exchange w (posts i) p) = false) ->
  (exists s' i',
      ColorTrader.close_position w s i = (Val false, s', i')
      /\ ct_kept s s' /\ ColorTrader.position_open s' = true)
  /\ (Py.truthy (ColorTrader.entry_order_data s) = true ->
      exists s' i' new,
        ColorTrader.flip_position w d s i = (Val false, s', i')
        /\ ct_kept s s' /\ ColorTrader.position_open s' = true
        /\ log i' = (new ++ log i)%list
        /\ forall p, In (Post p) new ->
                     reduce_only p = true /\ forall d', opens d' p = false).
Proof.
  intros Hopen Hno. split.
  - destruct (ct_close_position_cases w s i Hopen)
      as (r & s' & i' & E & Hk & _ & Hlog).
    destruct r.
    + destruct Hlog as [(_ & _ & F)|[(_ & _ & F)|(p & _ & _ & _ & _ & Hf)]];
        try discriminate.
      specialize (Hf eq_refl). rewrite Hno in Hf. discriminate.
    + exists s', i'. split; [exact E|]. split; [now apply Hk|].
      rewrite (ct_kept_open _ _ (Hk eq_refl)). exact Hopen.
  - intros Hdata.
    destruct (ct_flip_position_cases w d s i Hopen Hdata)
      as (r & s' & i' & E & [(-> & Hk & _ & Hl)|(c & Hc & Hro & Hcase)]).
    + exists s', i'.
      destruct Hl as [Hl|Hl].
      * exists [Mids]. split; [exact E|]. split; [exact Hk|].
        split; [rewrite (ct_kept_open _ _ Hk); exact Hopen|]. split; [exact Hl|].
        intros p [F|[]]. discriminate.
      * exists [Mids; Mids]. split; [exact E|]. split; [exact Hk|].
        split; [rewrite (ct_kept_open _ _ Hk); exact Hopen|]. split; [exact Hl|].
        intros p [F|[F|[]]]; discriminate.
    + destruct Hcase as [(-> & Hk & _ & Hl)|(Hf & _)].
      * exists s', i', [Post c; Mids; Mids]. split; [exact E|]. split; [exact Hk|].
        split; [rewrite (ct_kept_open _ _ Hk); exact Hopen|]. split; [exact Hl|].
        intros p [F|[F|[F|[]]]]; try discriminate.
        injection F as <-. split; [exact Hro|]. now apply ct_closes_is_close with s.
      * rewrite Hno in Hf. discriminate.
Qed.


(** Claim C10, as the code has it.  [close_position] called with no
    position open (the colour trader), or with no position open or no entry
    data stored (the hunter), posts nothing and asks for no price: the io
    state is the one it started from.  The colour trader returns [True],
    the hunter returns normally.  Both leave the position fields cleared,
    which is the state they started from only if the fields were clear
    already. *)
Theorem close_position_when_idle (cs : ColorTrader.state) (hs : Hunter.state) (i : io) :
  ColorTrader.position_open cs = false ->
  Hunter.position_open hs = false \/ Py.truthy (Hunter.entry_order_data hs) = false ->
  ColorTrader.close_position w cs i = (Val true, ct_flat cs, i)
  /\ Hunter.close_position w hs i = (Val tt, Hunter.initial, i)
  /\ (ColorTrader.entry_order_data cs = PNone ->
      ColorTrader.position_size cs = None ->
      ColorTrader.position_direction cs = None ->
      ColorTrader.current_position cs = None ->
      ct_flat cs = cs).
Proof.
  intros Hc Hh. split; [|split].
  - unfold ColorTrader.close_position, ColorTrader.close_finally.
    unfold_monad. rewrite Hc. cbn. rewrite Hc. cbn.
    destruct cs. cbn in *. subst. reflexivity.
  - unfold Hunter.close_position, Hunter.reset_tracking. unfold_monad.
    destruct Hh as [H | H]; rewrite H; cbn; rewrite ?orb_true_r; reflexivity.
  - intros H1 H2 H3 H4. destruct cs. cbn in *. subst. reflexivity.
Qed.

End PositionClaims.

Section HunterSequences.

Context {account : Account}.
Variable w : world.

Lemma keeps_hunter_calls cs : keeps w (hunter_calls w cs).
Proof.
  induction cs as [|c cs IH]; cbn [hunter_calls].
  - apply keeps_ret.
  - apply keeps_bind; [|intros _; exact IH].
    apply keeps_try_except; [|intros e; apply keeps_ret].
    destruct c; cbn [hunter_step].
    + apply keeps_hunter_enter_position.
    + apply keeps_hunter_manage_position.
    + apply keeps_hunter_close_position.
Qed.

End HunterSequences.

Section SubmissionClaims.

Context {account : Account}.
Variable w : world.

(** Claim C6, as the code has it.  Of the statuses of a grouped submission
    the hunter's [enter_position] and the scalper's [place_grouped_order]
    read the first only: whatever the statuses of the stop-loss and the
    take-profit legs are, both behave as if the reply held the first status
    alone.  When the first status reports a fill without an error, the
    hunter records the position as open with the filled size; nothing in
    its state says whether the protective orders were confirmed. *)
Theorem grouped_outcome_reads_first_status
        (ex : nat -> pyval -> http_response) (i : io) (st0 : pyval) (rest : list pyval) :
  (forall p, ex (posts i) p = HttpReply 200 (Some (ok_body (st0 :: rest)))) ->
  let first_only :=
    with_exchange w (fun _ _ => HttpReply 200 (Some (ok_body [st0]))) in
  (forall d snap s,
      Hunter.enter_position (with_exchange w ex) d snap s i
      = Hunter.enter_position first_only d snap s i)
  /\ (forall entry size tp sl u,
         Scalper.place_grouped_order (with_exchange w ex) entry size tp sl u i
         = Scalper.place_grouped_order first_only entry size tp sl u i)
  /\ (forall d snap s kv fkv txt v,
         st0 = PDict kv ->
         Py.lookup "error" kv = None ->
         Py.lookup "filled" kv = Some (PDict fkv) ->
         Py.lookup "totalSz" fkv = Some (PStr txt) ->
         Num.float_of_string txt = Some v ->
         exists s' i',
           Hunter.enter_position (with_exchange w ex) d snap s i = (Val tt, s', i')
           /\ ((posts i' = posts i /\ s' = s)
               \/ (posts i' = S (posts i)
                   /\ Hunter.position_open s' = true
                   /\ Hunter.position_size s' = Some v
                   /\ Hunter.position_direction s' = Some d
                   /\ Hunter.entry_order_data s' = st0))).
Proof.
  intros Hex first_only. split; [|split].
  - intros d snap s. apply hunter_enter_first_status with rest. exact Hex.
  - intros entry size tp sl u. apply scalper_first_status with rest. exact Hex.
  - intros d snap s kv fkv txt v -> He Hf Ht Hv.
    apply hunter_enter_filled with fkv txt rest; assumption.
Qed.

(** Claim C7, as the code has it.  Through any run of the colour trader's
    loop, any sequence of position operations of the hunter and the
    scalper's grouped submission, every payload posted carries as nonce
    the millisecond value of a reading of the clock, a later post that of a
    later reading.  So the nonces never decrease when the clock never
    goes back, and no nonce is used twice when successive readings differ
    by a millisecond at least; the code itself keeps no record of the
    nonces it has used. *)
Theorem nonces_follow_clock (i i' : io) :
  io_ok w i ->
  (exists n s, i' = snd (ColorTrader.run w n s i))
  \/ (exists cs s, i' = snd (hunter_calls w cs s i))
  \/ (exists entry size tp sl u,
         i' = snd (Scalper.place_grouped_order w entry size tp sl u i)) ->
  io_ok w i'
  /\ (forall n, In n (log_nonces (log i')) ->
                exists k, (k < clock_reads i')%nat /\ millis (clock w k) = Val n)
  /\ (clock_monotone w -> StronglySorted Z.ge (log_nonces (log i')))
  /\ (clock_strict w -> NoDup (log_nonces (log i'))).
Proof.
  intros Hi Hrun.
  assert (Hok : io_ok w i').
  { destruct Hrun as [(n & s & ->)|[(cs & s & ->)|(entry & size & tp & sl & u & ->)]].
    - now apply keeps_ct_run.
    - now apply keeps_hunter_calls.
    - now apply keeps_scalper_place_grouped_order. }
  split; [exact Hok|]. split; [|split].
  - intros n Hn. exact (stamped_bound w _ _ n Hok Hn).
  - intros Hm. exact (stamped_sorted w _ _ Hm Hok).
  - intros Hs. apply strictly_sorted_nodup. exact (stamped_strict w _ _ Hs Hok).
Qed.

End SubmissionClaims.

Ltac hex_pair :=
  lazymatch goal with
  | |- hex_pairs [] [] => apply hex_pairs_nil
  | |- hex_pairs (?c1 :: ?c2 :: ?cs) (?b :: ?bs) =>
      let hi := eval vm_compute in (b / 16) in
      let lo := eval vm_compute in (b mod 16) in
      change (hex_pairs (c1 :: c2 :: cs) (16 * hi + lo :: bs));
      apply hex_pairs_cons; [reflexivity | reflexivity | ]
  end.

Lemma vault_address : address_text Fixture.vault Fixture.vault_bytes.
Proof.
  split; [reflexivity|].
  exists (Text.chars "1234567890abcdefABCDEF001122334455667788").
  split; [|left; reflexivity].
  vm_compute. repeat hex_pair.
Qed.

(** Claim C1, on the sample order with a vault address. *)
Lemma hash_action_layout_sample :
  Msgpack.packb Fixture.sample_action = Val Fixture.sample_packed
  /\ vault_tail (Some Fixture.vault) (1 :: Fixture.vault_bytes)
  /\ exists nonce_bytes,
      List.length nonce_bytes = 8%nat
      /\ Forall is_byte nonce_bytes
      /\ be_value nonce_bytes = 1762176000123
      /\ Scalper.hash_action Fixture.sample_action (Some Fixture.vault) 1762176000123
         = Val (Keccak.keccak
                  (Fixture.sample_packed ++ nonce_bytes ++ 1 :: Fixture.vault_bytes)).
Proof.
  assert (Hp : Msgpack.packb Fixture.sample_action = Val Fixture.sample_packed)
    by (vm_compute; reflexivity).
  assert (Hv : vault_tail (Some Fixture.vault) (1 :: Fixture.vault_bytes))
    by (constructor; exact vault_address).
  split; [exact Hp|]. split; [exact Hv|].
  apply (hash_action_layout _ _ 1762176000123 _ _ Hp); [lia | exact Hv].
Defined.

(** Claim C2, on the sample order, for mainnet and for testnet. *)
Lemma sign_action_typed_data_sample :
  Scalper.hash_action Fixture.sample_action None 1762176000123 = Val Fixture.sample_hash
  /\ List.length Fixture.sample_hash = 32%nat
  /\ (exists data,
         agent_request data "a" (PBytes Fixture.sample_hash)
         /\ Scalper.sign_action (account := Fixture.account)
              Fixture.sample_action None 1762176000123 true
            = Scalper.sign_inner (account := Fixture.account) data)
  /\ (exists data,
         agent_request data "b" (PStr (Py.to_hex_bytes Fixture.sample_hash))
         /\ ColorTrader.sign_action (account := Fixture.account)
              Fixture.sample_action None 1762176000123 false
            = Scalper.sign_inner (account := Fixture.account) data).
Proof.
  assert (Hh : Scalper.hash_action Fixture.sample_action None 1762176000123
               = Val Fixture.sample_hash) by (vm_compute; reflexivity).
  split; [exact Hh|].
  destruct (sign_action_typed_data (account := Fixture.account) _ _ _ true _ Hh)
    as (_ & Hlen & (data & Ha & Hs & _) & _).
  destruct (sign_action_typed_data (account := Fixture.account) _ _ _ false _ Hh)
    as (_ & _ & _ & (data' & Ha' & Hs' & _)).
  split; [exact Hlen|]. split; [exists data | exists data']; split; assumption.
Defined.





(** Claim C5, on a long whose close order is left resting. *)
Lemma unfilled_close_keeps_position_sample :
  let w := Fixture.scene 3 [Fixture.accepted [Fixture.resting]] [] in
  ColorTrader.position_open Fixture.holding_long = true
  /\ (forall p, confirms_fill (exchange w (posts io_start) p) = false)
  /\ exists s' i' new,
      ColorTrader.flip_position (account := Fixture.account) w short
        Fixture.holding_long io_start = (Val false, s', i')
      /\ ct_kept Fixture.holding_long s'
      /\ ColorTrader.position_open s' = true
      /\ log i' = (new ++ log io_start)%list
      /\ forall p, In (Post p) new ->
                   reduce_only p = true /\ forall d', opens d' p = false.
Proof.
  intros w.
  assert (Ho : ColorTrader.position_open Fixture.holding_long = true) by reflexivity.
  assert (Hn : forall p, confirms_fill (exchange w (posts io_start) p) = false)
    by (intros p; reflexivity).
  split; [exact Ho|]. split; [exact Hn|].
  exact (proj2 (unfilled_close_keeps_position (account := Fixture.account) w short
                  Fixture.holding_long io_start Ho Hn) eq_refl).
Defined.

(** Claim C6, on the outcome [{entry: filled, stopLoss: error,
    takeProfit: resting}]. *)
Lemma grouped_outcome_reads_first_status_sample :
  let ex := fun (_ : nat) (_ : pyval) =>
              Fixture.accepted [Fixture.filled; Fixture.rejected; Fixture.resting] in
  let w := with_exchange Fixture.clean_world ex in
  (forall p, ex (posts io_start) p
             = HttpReply 200
                 (Some (ok_body [Fixture.filled; Fixture.rejected; Fixture.resting])))
  /\ Num.float_of_string "26.62" = Some (F.of_decimal false 2662 (-2))
  /\ exists s' i',
      Hunter.enter_position (account := Fixture.account) w long Fixture.book
        Hunter.initial io_start = (Val tt, s', i')
      /\ ((posts i' = posts io_start /\ s' = Hunter.initial)
          \/ (posts i' = S (posts io_start)
              /\ Hunter.position_open s' = true
              /\ Hunter.position_size s' = Some (F.of_decimal false 2662 (-2))
              /\ Hunter.position_direction s' = Some long
              /\ Hunter.entry_order_data s' = Fixture.filled)).
Proof.
  intros ex w.
  assert (He : forall p, ex (posts io_start) p
                         = HttpReply 200
                             (Some (ok_body [Fixture.filled; Fixture.rejected;
                                             Fixture.resting])))
    by (intros p; reflexivity).
  assert (Hv : Num.float_of_string "26.62" = Some (F.of_decimal false 2662 (-2)))
    by (vm_compute; reflexivity).
  split; [exact He|]. split; [exact Hv|].
  destruct (grouped_outcome_reads_first_status (account := Fixture.account)
              Fixture.clean_world ex io_start Fixture.filled
              [Fixture.rejected; Fixture.resting] He) as (_ & _ & Hf).
  exact (Hf long Fixture.book Hunter.initial _ _ "26.62"%string _
            eq_refl eq_refl eq_refl eq_refl Hv).
Defined.

(** Claim C6 does not hold as written: the outcome [{entry: filled,
    stopLoss: error, takeProfit: resting}] leaves the hunter in the very
    state, and with the very result, of the outcome in which both
    protective orders rest. *)
Lemma mixed_grouped_outcome_not_flagged :
  let mixed := Hunter.enter_position (account := Fixture.account)
                 Fixture.mixed_world long Fixture.book Hunter.initial io_start in
  let clean := Hunter.enter_position (account := Fixture.account)
                 Fixture.clean_world long Fixture.book Hunter.initial io_start in
  exchange Fixture.mixed_world 0 PNone
  = Fixture.accepted [Fixture.filled; Fixture.rejected; Fixture.resting]
  /\ exchange Fixture.clean_world 0 PNone
     = Fixture.accepted [Fixture.filled; Fixture.resting; Fixture.resting]
  /\ fst mixed = fst clean
  /\ Hunter.position_open (snd (fst mixed)) = true
  /\ Hunter.position_size (snd (fst mixed)) = Some (F.of_decimal false 2662 (-2))
  /\ Hunter.entry_order_data (snd (fst mixed)) = Fixture.filled.
Proof. repeat split; vm_compute; reflexivity. Qed.

(** Claim C7, on an entry, a check and a close of the hunter. *)
Lemma nonces_follow_clock_sample :
  let w := Fixture.hunter_world in
  let i' := snd (hunter_calls (account := Fixture.account) w
                   [Enter long Fixture.book; Manage; Close] Hunter.initial io_start) in
  io_ok w io_start
  /\ io_ok w i'
  /\ (forall n, In n (log_nonces (log i')) ->
                exists k, (k < clock_reads i')%nat /\ millis (clock w k) = Val n)
  /\ (clock_monotone w -> StronglySorted Z.ge (log_nonces (log i')))
  /\ (clock_strict w -> NoDup (log_nonces (log i'))).
Proof.
  intros w i'.
  assert (H0 : io_ok w io_start) by apply stamped_nil.
  split; [exact H0|].
  apply (nonces_follow_clock (account := Fixture.account) w io_start i' H0).
  right. left. exists [Enter long Fixture.book; Manage; Close], Hunter.initial.
  reflexivity.
Defined.

(** Claim C7 does not hold as written: when two readings of the clock
    fall in the same millisecond, the two submissions of the hunter's
    [close_position] carry the same nonce; and when the clock is set back
    between them, the second nonce (first in the log) is below the first. *)
Lemma stalled_clock_repeats_nonce :
  let i' := snd (Hunter.close_position (account := Fixture.account)
                   Fixture.stalled_world Fixture.hunter_open io_start) in
  let receding :=
    Fixture.scene (-1) [Fixture.accepted []; Fixture.accepted [Fixture.filled]] [] in
  let j' := snd (Hunter.close_position (account := Fixture.account)
                   receding Fixture.hunter_open io_start) in
  clock Fixture.stalled_world 0 = clock Fixture.stalled_world 1
  /\ posts i' = 2%nat
  /\ log_nonces (log i') = [1762176000000; 1762176000000]
  /\ posts j' = 2%nat
  /\ log_nonces (log j') = [1762175999000; 1762176000000].
Proof. repeat split; vm_compute; reflexivity. Qed.

(** Claim C8, on a long and the signal LONG. *)
Lemma tick_same_signal_is_idle_sample :
  let w := Fixture.scene 3 [] [Some (Some LONG)] in
  screen w (captures io_start) = Some (Some LONG)
  /\ ColorTrader.current_position Fixture.holding_long = Some (ColorTrader.lower LONG)
  /\ exists s' i',
      ColorTrader.tick (account := Fixture.account) w Fixture.holding_long io_start
      = (Val tt, s', i')
      /\ ct_same_position Fixture.holding_long s'
      /\ posts i' = posts io_start
      /\ mids_calls i' = mids_calls io_start
      /\ log i' = Sleep Lit.f0_5 :: log io_start.
Proof.
  intros w. split; [reflexivity|]. split; [reflexivity|].
  exact (tick_same_signal_is_idle (account := Fixture.account) w Fixture.holding_long
           io_start LONG eq_refl eq_refl).
Defined.


(** Claim C10, on the initial states of both bots. *)
Lemma close_position_when_idle_sample :
  let w := Fixture.scene 3 [] [] in
  ColorTrader.position_open ColorTrader.initial = false
  /\ Hunter.position_open Hunter.initial = false
  /\ ColorTrader.close_position (account := Fixture.account) w ColorTrader.initial io_start
     = (Val true, ColorTrader.initial, io_start)
  /\ Hunter.close_position (account := Fixture.account) w Hunter.initial io_start
     = (Val tt, Hunter.initial, io_start).
Proof.
  intros w.
  assert (Hc : ColorTrader.position_open ColorTrader.initial = false) by reflexivity.
  assert (Hh : Hunter.position_open Hunter.initial = false) by reflexivity.
  split; [exact Hc|]. split; [exact Hh|].
  destruct (close_position_when_idle (account := Fixture.account) w ColorTrader.initial
              Hunter.initial io_start Hc (or_introl Hh)) as (H1 & H2 & _).
  split; [exact H1 | exact H2].
Defined.

(** Claim C10 does not hold as written: after an entry that was left
    resting the hunter has [position_open] set and no entry data stored;
    [close_position] then posts nothing, but turns [position_open] off. *)
Lemma hunter_idle_close_resets_open_flag :
  let s := snd (fst Fixture.hunter_unfilled) in
  let i := snd Fixture.hunter_unfilled in
  Hunter.position_open s = true
  /\ Hunter.entry_order_data s = PNone
  /\ Hunter.close_position (account := Fixture.account) Fixture.resting_world s i
     = (Val tt, Hunter.initial, i)
  /\ Hunter.position_open Hunter.initial = false.
Proof. repeat split; vm_compute; reflexivity. Qed.

(** * Further properties of the bots *)

(** ** The colour trader's loop *)

Section ColorTicks.

Context {account : Account}.
Variable w : world.

(** [flip_position] catches what it raises. *)
Lemma ct_flip_position_returns d s i :
  exists r s' i', ColorTrader.flip_position w d s i = (Val r, s', i').
Proof.
  unfold ColorTrader.flip_position. unfold M.bind at 1.
  destruct (ct_get_current_price_cases w s i) as (price & E). rewrite E. clear E.
  destruct price as [current_price|]; [|unfold M.ret; eauto].
  unfold M.try_except at 1.
  match goal with
  | |- context [match ?x with _ => _ end] => destruct x as [[[r|e] s'] i']
  end; unfold M.ret; eauto.
Qed.

(** Property X1.  A turn of the colour trader's loop that, the cooldown over, sees a
    signal other than the recorded one returns normally with that signal
    recorded and the signal time set to the reading of the clock, whatever
    became of the flip.  When the position held is already on the side of
    the signal, nothing is posted and no position field changes. *)
Theorem tick_records_signal_whatever_the_flip (s : ColorTrader.state) (i : io) (sg : signal) :
  F.geb (F.sub (clock w (clock_reads i)) (ColorTrader.last_signal_time s))
        ColorTrader.signal_cooldown = true ->
  screen w (captures i) = Some (Some sg) ->
  ColorTrader.same_signal sg (ColorTrader.current_signal s) = false ->
  exists s' i',
    ColorTrader.tick w s i = (Val tt, s', i')
    /\ ColorTrader.current_signal s' = Some sg
    /\ ColorTrader.last_signal_time s' = clock w (clock_reads i)
    /\ (ColorTrader.holds (ColorTrader.lower sg) (ColorTrader.current_position s) = true ->
        posts i' = posts i /\ ct_same_position s s').
Proof.
  intros Hcool Hscreen Hnew.
  unfold ColorTrader.tick, ColorTrader.get_spinner.
  unfold M.bind at 1. unfold M.now at 1. unfold M.bind at 1. unfold M.get at 1.
  unfold M.bind at 1. rewrite Hcool.
  unfold M.try_except at 1. unfold M.bind at 1. unfold M.capture at 1. red_m.
  rewrite Hscreen.
  unfold M.bind at 1.
  match goal with
  | |- context [(if ?c then ?a else ?b) ?s0 ?i0] =>
      assert (Hd : exists s1, (if c then a else b) s0 i0 = (Val tt, s1, i0)
                              /\ ColorTrader.current_signal s1 = ColorTrader.current_signal s
                              /\ ColorTrader.current_position s1 = ColorTrader.current_position s
                              /\ ct_same_position s s1)
  end.
  { destruct (F.geb _ Lit.f5); unfold_monad; eexists; (split; [reflexivity|]);
      unfold ct_same_position; ct_proj; auto 10. }
  destruct Hd as (s1 & E & Hsig & Hpos & Hsame). rewrite E. clear E.
  unfold M.bind at 1. unfold M.get at 1. rewrite Hsig, Hnew. cbn [negb].
  rewrite Hpos.
  destruct (ColorTrader.holds _ (ColorTrader.current_position s)) eqn:Hh; cbn [negb].
  - unfold_monad. red_m. do 2 eexists. split; [reflexivity|]. ct_proj.
    split; [reflexivity|]. split; [reflexivity|]. intros _. split; [reflexivity|].
    unfold ct_same_position in *. ct_proj. tauto.
  - unfold M.bind at 1. unfold M.bind at 1. unfold M.bind at 1.
    match goal with
    | |- context [ColorTrader.flip_position w ?d ?s0 ?i0] =>
        destruct (ct_flip_position_returns d s0 i0) as (r & s2 & i2 & E); rewrite E; clear E
    end.
    unfold_monad. red_m. do 2 eexists. split; [reflexivity|]. ct_proj.
    split; [reflexivity|]. split; [reflexivity|]. discriminate.
Qed.

(** Property X2.  A turn of the loop in which the screen shows the signal already
    recorded posts nothing, asks for no price and changes no position
    field, whatever the position is: it sleeps half a second.  So a flip
    that failed is not tried again while the colour stays. *)
Theorem tick_known_signal_is_idle (s : ColorTrader.state) (i : io) (sg : signal) :
  screen w (captures i) = Some (Some sg) ->
  ColorTrader.current_signal s = Some sg ->
  exists s' i',
    ColorTrader.tick w s i = (Val tt, s', i')
    /\ ct_same_position s s'
    /\ ColorTrader.current_signal s' = Some sg
    /\ posts i' = posts i
    /\ mids_calls i' = mids_calls i
    /\ log i' = Sleep Lit.f0_5 :: log i.
Proof.
  intros Hscreen Hsig.
  assert (Hsame : ColorTrader.same_signal sg (Some sg) = true) by (destruct sg; reflexivity).
  unfold ColorTrader.tick, ColorTrader.get_spinner. unfold_monad. red_m.
  destruct (F.geb _ ColorTrader.signal_cooldown); red_m.
  2:{ do 2 eexists. split; [reflexivity|]. unfold ct_same_position. auto 10. }
  rewrite Hscreen. red_m.
  destruct (F.geb _ Lit.f5); red_m; ct_proj; rewrite Hsig, Hsame; cbn [negb]; red_m.
  all: do 2 eexists; (split; [reflexivity|]); unfold ct_same_position; ct_proj; auto 10.
Qed.

End ColorTicks.

(** ** Counting what is posted *)

Section Posts.

Variable w : world.
Context {S : Type}.

Lemma same_posts_refl i : same_posts i i.
Proof. split; reflexivity. Qed.

Lemma same_posts_trans i j k : same_posts i j -> same_posts j k -> same_posts i k.
Proof. intros [H1 H2] [H3 H4]. split; congruence. Qed.

Lemma one_post_same Q i j : same_posts i j -> one_post Q i j.
Proof. now left. Qed.

Lemma one_post_then_same Q i j k : one_post Q i j -> same_posts j k -> one_post Q i k.
Proof.
  intros [H|(p & Hp & H1 & H2)] [H3 H4].
  - left. destruct H. split; congruence.
  - right. exists p. repeat split; congruence.
Qed.

Lemma same_then_one_post Q i j k : same_posts i j -> one_post Q j k -> one_post Q i k.
Proof.
  intros [H3 H4] [H|(p & Hp & H1 & H2)].
  - left. destruct H. split; congruence.
  - right. exists p. repeat split; congruence.
Qed.

Lemma quiet_ret {A} (a : A) : quiet (M.ret (S:=S) a).
Proof. intros s i. apply same_posts_refl. Qed.

Lemma quiet_raise {A} e : quiet (M.raise (S:=S) (A:=A) e).
Proof. intros s i. apply same_posts_refl. Qed.

Lemma quiet_lift {A} (o : outcome A) : quiet (M.lift (S:=S) o).
Proof. intros s i. apply same_posts_refl. Qed.

Lemma quiet_get : quiet (M.get (S:=S)).
Proof. intros s i. apply same_posts_refl. Qed.

Lemma quiet_modify f : quiet (M.modify (S:=S) f).
Proof. intros s i. apply same_posts_refl. Qed.

Lemma quiet_json r : quiet (M.json (S:=S) r).
Proof. destruct r as [|c [b|]]; intros s i; apply same_posts_refl. Qed.

Lemma quiet_now : quiet (M.now (S:=S) w).
Proof. intros s i. split; reflexivity. Qed.

Lemma quiet_fetch_mids : quiet (M.fetch_mids (S:=S) w).
Proof. intros s i. split; reflexivity. Qed.

Lemma quiet_capture : quiet (M.capture (S:=S) w).
Proof. intros s i. split; reflexivity. Qed.

Lemma quiet_sleep t : quiet (M.sleep (S:=S) t).
Proof. intros s i. split; reflexivity. Qed.

Lemma quiet_bind {A B} (m : M.t S A) (k : A -> M.t S B) :
  quiet m -> (forall a, quiet (k a)) -> quiet (M.bind m k).
Proof.
  intros Hm Hk s i. unfold M.bind. specialize (Hm s i).
  destruct (m s i) as [[[a|e] s'] i']; cbn [snd] in *; [|exact Hm].
  eapply same_posts_trans; [exact Hm|apply Hk].
Qed.

Lemma quiet_try_except {A} (m : M.t S A) h :
  quiet m -> (forall e, quiet (h e)) -> quiet (M.try_except m h).
Proof.
  intros Hm Hh s i. unfold M.try_except. specialize (Hm s i).
  destruct (m s i) as [[[a|e] s'] i']; cbn [snd] in *; [exact Hm|].
  eapply same_posts_trans; [exact Hm|apply Hh].
Qed.

Lemma quiet_try_finally {A} (m : M.t S A) f :
  quiet m -> quiet f -> quiet (M.try_finally m f).
Proof.
  intros Hm Hf s i. unfold M.try_finally. specialize (Hm s i).
  destruct (m s i) as [[r s'] i']; cbn [snd] in *.
  specialize (Hf s' i'). destruct (f s' i') as [[[u|e] s''] i''];
    cbn [snd] in *; eapply same_posts_trans; eauto.
Qed.

Lemma posts_once_quiet {A} Q (m : M.t S A) : quiet m -> posts_once Q m.
Proof. intros H s i. left. apply H. Qed.

Lemma posts_once_weaken {A} (Q Q' : pyval -> Prop) (m : M.t S A) :
  (forall p, Q p -> Q' p) -> posts_once Q m -> posts_once Q' m.
Proof.
  intros HQ H s i. destruct (H s i) as [H0|(p & Hp & H1)]; [now left|].
  right. exists p. split; [now apply HQ|exact H1].
Qed.

(** A pure step in front, with what it returned. *)
Lemma posts_once_bind_lift {A B} Q (o : outcome A) (k : A -> M.t S B) :
  (forall a, o = Val a -> posts_once Q (k a)) -> posts_once Q (M.bind (M.lift o) k).
Proof.
  intros Hk s i. unfold M.bind, M.lift. destruct o as [a|e].
  - now apply Hk.
  - left. apply same_posts_refl.
Qed.

Lemma posts_once_bind_quiet {A B} Q (m : M.t S A) (k : A -> M.t S B) :
  quiet m -> (forall a, posts_once Q (k a)) -> posts_once Q (M.bind m k).
Proof.
  intros Hm Hk s i. unfold M.bind. specialize (Hm s i).
  destruct (m s i) as [[[a|e] s'] i']; cbn [snd] in *; [|now left].
  eapply same_then_one_post; [exact Hm|apply Hk].
Qed.

Lemma posts_once_then_quiet {A B} Q (m : M.t S A) (k : A -> M.t S B) :
  posts_once Q m -> (forall a, quiet (k a)) -> posts_once Q (M.bind m k).
Proof.
  intros Hm Hk s i. unfold M.bind. specialize (Hm s i).
  destruct (m s i) as [[[a|e] s'] i']; cbn [snd] in *; [|exact Hm].
  eapply one_post_then_same; [exact Hm|apply Hk].
Qed.

Lemma posts_once_try_except {A} Q (m : M.t S A) h :
  posts_once Q m -> (forall e, quiet (h e)) -> posts_once Q (M.try_except m h).
Proof.
  intros Hm Hh s i. unfold M.try_except. specialize (Hm s i).
  destruct (m s i) as [[[a|e] s'] i']; cbn [snd] in *; [exact Hm|].
  eapply one_post_then_same; [exact Hm|apply Hh].
Qed.

Lemma posts_once_try_finally {A} Q (m : M.t S A) f :
  posts_once Q m -> quiet f -> posts_once Q (M.try_finally m f).
Proof.
  intros Hm Hf s i. unfold M.try_finally. specialize (Hm s i).
  destruct (m s i) as [[r s'] i']; cbn [snd] in *.
  specialize (Hf s' i'). destruct (f s' i') as [[[u|e] s''] i''];
    cbn [snd] in *; eapply one_post_then_same; eauto.
Qed.

(** The post itself. *)
Lemma posts_once_post (Q : pyval -> Prop) payload :
  Q payload -> posts_once Q (M.post (S:=S) w payload).
Proof.
  intros HQ s i. right. exists payload. unfold M.post.
  destruct (exchange w (posts i) payload); cbn; auto.
Qed.

End Posts.

Ltac quiet_step :=
  match goal with
  | |- quiet (M.bind _ _) => apply quiet_bind; [|intro]
  | |- quiet (M.ret _) => apply quiet_ret
  | |- quiet (M.raise _) => apply quiet_raise
  | |- quiet (M.lift _) => apply quiet_lift
  | |- quiet M.get => apply quiet_get
  | |- quiet (M.modify _) => apply quiet_modify
  | |- quiet (M.json _) => apply quiet_json
  | |- quiet (M.try_except _ _) => apply quiet_try_except; [|intro]
  | |- quiet (M.try_finally _ _) => apply quiet_try_finally
  | |- quiet (M.now _) => apply quiet_now
  | |- quiet (M.fetch_mids _) => apply quiet_fetch_mids
  | |- quiet (M.capture _) => apply quiet_capture
  | |- quiet (M.sleep _) => apply quiet_sleep
  | |- quiet (if ?b then _ else _) => destruct b
  | |- quiet (match ?x with _ => _ end) => destruct x
  | H : quiet ?m |- quiet ?m => exact H
  end.

Section HunterPosts.

Context {account : Account}.
Variable w : world.

Lemma hunter_submit_posts_once action :
  posts_once (fun p => exists nonce sig, p = envelope action nonce sig PNone)
             (Hunter.submit w action).
Proof.
  intros s i.
  destruct (hunter_submit_cases w action s i) as [(e & E)|(nonce & sig & Hn & Hs & E)];
    cbv zeta in E; rewrite E; cbn [snd].
  - left. split; reflexivity.
  - right. exists (envelope action nonce sig PNone). split; [eauto|]. split; reflexivity.
Qed.

Lemma hunter_place_grouped_order_posts_once orders :
  posts_once (fun p => exists nonce sig,
                p = envelope (order_action orders "normalTpsl") nonce sig PNone)
             (Hunter.place_grouped_order w orders).
Proof.
  unfold Hunter.place_grouped_order.
  apply posts_once_then_quiet; [apply hunter_submit_posts_once|intro].
  repeat quiet_step.
Qed.

Lemma hunter_place_order_raw_posts_once order :
  posts_once (fun p => exists nonce sig,
                p = envelope (order_action [order] "na") nonce sig PNone)
             (Hunter.place_order_raw w order).
Proof.
  unfold Hunter.place_order_raw.
  apply posts_once_then_quiet; [apply hunter_submit_posts_once|intro].
  repeat quiet_step.
Qed.

Lemma hunter_enter_position_posts_once d snap :
  posts_once (grouped_entry (direction_eqb d long) "Ioc")
             (Hunter.enter_position w d snap).
Proof.
  unfold Hunter.enter_position. cbv zeta.
  apply posts_once_try_except; [|intro; apply quiet_ret].
  apply posts_once_bind_lift; intros q _.
  apply posts_once_bind_lift; intros p0 _.
  apply posts_once_bind_lift; intros s0 Hs0.
  apply posts_once_bind_lift; intros p1 _.
  apply posts_once_bind_lift; intros s1 Hs1.
  apply posts_once_bind_lift; intros t1 _.
  apply posts_once_bind_lift; intros p2 Hp2.
  apply posts_once_bind_lift; intros s2 Hs2.
  apply posts_once_bind_lift; intros t2 Ht2.
  assert (s1 = s0) by congruence. assert (s2 = s0) by congruence.
  assert (t2 = p2) by congruence. subst s1 s2 t2.
  apply posts_once_then_quiet.
  - eapply posts_once_weaken; [|apply hunter_place_grouped_order_posts_once].
    intros p (nonce & sig & ->). unfold grouped_entry, Hunter.asset_index. eauto 10.
  - intro. repeat quiet_step.
Qed.

End HunterPosts.

(** ** The grouped entries *)

Section HunterEntries.

Context {account : Account}.
Variable w : world.

(** Property X3.  [enter_position] of the hunter always returns normally and posts at
    most one payload: a grouped entry, [normalTpsl], whose first order is an
    immediate-or-cancel limit order on the side of the direction, not
    reduce-only, followed by a reduce-only stop-loss and a reduce-only
    take-profit on the other side, for the same size. *)
Theorem hunter_entry_is_one_grouped_order (d : direction) (snap : Hunter.snapshot)
        (s : Hunter.state) (i : io) :
  exists s' i',
    Hunter.enter_position w d snap s i = (Val tt, s', i')
    /\ one_post (grouped_entry (direction_eqb d long) "Ioc") i i'.
Proof.
  pose proof (hunter_enter_position_posts_once w d snap s i) as H.
  unfold Hunter.enter_position in *.
  match goal with
  | |- context [M.try_except ?b ?h s i] =>
      destruct (try_except_unit b s i) as (s' & i' & E)
  end.
  rewrite E in *. cbn [snd] in H. eauto.
Qed.

(** An entry whose first status reports neither an error nor a fill. *)
Lemma hunter_enter_unfilled d snap s i kv rest ex :
  (forall p, ex (posts i) p = HttpReply 200 (Some (ok_body (PDict kv :: rest)))) ->
  Py.lookup "error" kv = None ->
  Py.lookup "filled" kv = None ->
  Py.truthy (Hunter.entry_order_data s) = false ->
  exists s' i',
    Hunter.enter_position (with_exchange w ex) d snap s i = (Val tt, s', i')
    /\ ((posts i' = posts i /\ s' = s)
        \/ (posts i' = S (posts i)
            /\ Hunter.position_open s' = true
            /\ Hunter.entry_order_data s' = Hunter.entry_order_data s
            /\ Hunter.position_size s' = Hunter.position_size s
            /\ exists t0, Hunter.entry_time s' = Some t0)).
Proof.
  intros Hex Herr Hfill Hdata.
  unfold Hunter.enter_position, Hunter.place_grouped_order, Hunter.submit.
  unfold_monad. cbn [clock exchange with_exchange]. red_m.
  destruct (Py.truediv _ _) as [q|e]; red_m; [|eauto 10].
  repeat (destruct (Hunter.round_float _) as [?|?]; red_m; [|eauto 10]).
  destruct (millis _) as [nonce|e]; red_m; [|eauto 10].
  destruct (Hunter.sign_action _ None nonce true) as [sig|e]; red_m; [|eauto 10].
  rewrite Hex. red_m. unfold M.status_code. cbn [Z.eqb Pos.eqb]. unfold_monad. red_m.
  repeat (progress (red_m; rewrite ?status_ok_ok_body, ?statuses_of_ok_body;
                    cbn [Py.truthy Py.first Py.len Py.bind Py.is_dict Py.contains
                         Py.item Py.of_option Py.to_float];
                    rewrite ?len_cons_ge_1, ?Herr, ?Hfill)).
  h_proj. rewrite Hdata. red_m.
  do 2 eexists. split; [reflexivity|]. right. h_proj. eauto 10.
Qed.

(** Property X4.  When the exchange answers the hunter's grouped entry with [ok] and a
    first status that is neither an error nor a fill, [enter_position]
    marks the position open all the same (unless nothing was posted, and
    then nothing changed).  Once more than [time_stop_seconds] have passed
    since, [manage_position] posts nothing and resets every position
    field. *)
Theorem unfilled_entry_is_dropped_at_time_stop
        (d : direction) (snap : Hunter.snapshot) (s : Hunter.state) (i : io)
        (kv : list (string * pyval)) (rest : list pyval)
        (ex : nat -> pyval -> http_response) :
  (forall p, ex (posts i) p = HttpReply 200 (Some (ok_body (PDict kv :: rest)))) ->
  Py.lookup "error" kv = None ->
  Py.lookup "filled" kv = None ->
  Py.truthy (Hunter.entry_order_data s) = false ->
  exists s' i',
    Hunter.enter_position (with_exchange w ex) d snap s i = (Val tt, s', i')
    /\ ((posts i' = posts i /\ s' = s)
        \/ (posts i' = S (posts i)
            /\ Hunter.position_open s' = true
            /\ exists t0,
                Hunter.entry_time s' = Some t0
                /\ forall j,
                    F.gtb (F.sub (clock w (clock_reads j)) t0) Hunter.time_stop_seconds = true ->
                    Hunter.manage_position (with_exchange w ex) s' j
                    = (Val tt, Hunter.initial, io_after_read j))).
Proof.
  intros Hex Herr Hfill Hdata.
  destruct (hunter_enter_unfilled d snap s i kv rest ex Hex Herr Hfill Hdata)
    as (s' & i' & E & [H|(Hp & Hopen & Hd & _ & t0 & Ht)]).
  - exists s', i'. split; [exact E|]. now left.
  - exists s', i'. split; [exact E|]. right. split; [exact Hp|]. split; [exact Hopen|].
    exists t0. split; [exact Ht|]. intros j Hj.
    unfold Hunter.manage_position, Hunter.close_position, Hunter.reset_tracking.
    unfold_monad. cbn [clock with_exchange]. red_m.
    rewrite Hopen. cbn [negb]. rewrite Ht, Hj. rewrite Hopen, Hd, Hdata. cbn [negb orb].
    reflexivity.
Qed.

End HunterEntries.

Section ScalperOrders.

Context {account : Account}.
Variable w : world.

Lemma scalper_place_grouped_order_posts_once entry size tp sl :
  posts_once (grouped_entry true "Gtc") (Scalper.place_grouped_order w entry size tp sl).
Proof.
  unfold Scalper.place_grouped_order. cbv zeta.
  apply posts_once_bind_lift; intros p0 _.
  apply posts_once_bind_lift; intros s0 Hs0.
  apply posts_once_bind_lift; intros p1 _.
  apply posts_once_bind_lift; intros s1 Hs1.
  apply posts_once_bind_lift; intros t1 _.
  apply posts_once_bind_lift; intros p2 Hp2.
  apply posts_once_bind_lift; intros s2 Hs2.
  apply posts_once_bind_lift; intros t2 Ht2.
  assert (s1 = s0) by congruence. assert (s2 = s0) by congruence.
  assert (t2 = p2) by congruence. subst s1 s2 t2.
  apply posts_once_bind_quiet; [apply quiet_now|intros t].
  apply posts_once_bind_lift; intros nonce _.
  apply posts_once_bind_lift; intros sig _.
  apply posts_once_try_except; [|intro; apply quiet_ret].
  apply posts_once_then_quiet.
  - apply posts_once_post. unfold grouped_entry, Scalper.asset_index. eauto 10.
  - intro. repeat quiet_step.
Qed.

(** Property X5.  [place_grouped_order] of the scalping bot posts at most one payload,
    a grouped entry, [normalTpsl]: a buy limit order, good till cancelled
    and not reduce-only, then a reduce-only stop-loss and a reduce-only
    take-profit sell for the same size.  When [round_float] refuses one of
    the five numbers it formats, the function raises before anything is
    posted: the orders are built outside its [try]. *)
Theorem scalper_order_is_one_grouped_buy (entry size tp sl : F.float) (i : io) :
  one_post (grouped_entry true "Gtc") i
           (snd (Scalper.place_grouped_order w entry size tp sl tt i))
  /\ (forall x e,
         In x [entry; size; F.sub sl Lit.f1; sl; tp] ->
         Scalper.round_float x = Exc e ->
         exists e', Scalper.place_grouped_order w entry size tp sl tt i = (Exc e', tt, i)).
Proof.
  split; [apply scalper_place_grouped_order_posts_once|].
  intros x e Hin Hx.
  unfold Scalper.place_grouped_order. unfold_monad.
  destruct (Scalper.round_float entry) as [p0|e0] eqn:E0; [|eauto].
  destruct (Scalper.round_float size) as [s0|e1] eqn:E1; [|eauto].
  destruct (Scalper.round_float (F.sub sl Lit.f1)) as [p1|e2] eqn:E2; [|eauto].
  destruct (Scalper.round_float sl) as [t1|e3] eqn:E3; [|eauto].
  destruct (Scalper.round_float tp) as [p2|e4] eqn:E4; [|eauto].
  cbn [In] in Hin. destruct Hin as [<-|[<-|[<-|[<-|[<-|[]]]]]]; congruence.
Qed.

End ScalperOrders.

(** ** Refusals of [hash_action], and the text [-0] *)

Section HashRefusals.

(** One hexadecimal digit left over after the pairs. *)
Lemma fromhex_chars_odd cs bs c d :
  hex_pairs cs bs -> Text.hex_val c = Some d ->
  forall fuel, (List.length (cs ++ [c]) <= fuel)%nat ->
               Py.fromhex_chars fuel (cs ++ [c]) = None.
Proof.
  intros Hp Hc. induction Hp as [|c1 c2 hi lo cs bs H1 H2 _ IH]; intros fuel Hf.
  - destruct fuel as [|fuel]; cbn [List.length List.app] in *; [lia|].
    cbn [Py.fromhex_chars List.app]. now rewrite (hex_not_space _ _ Hc), Hc.
  - cbn [List.length List.app] in Hf. destruct fuel as [|fuel]; [lia|].
    cbn [Py.fromhex_chars List.app]. rewrite (hex_not_space _ _ H1), H1, H2.
    rewrite IH by lia. reflexivity.
Qed.

Lemma removeprefix_hex h c d :
  Text.hex_val c = Some d ->
  forall cs bs, hex_pairs cs bs -> h = (cs ++ [c])%list ->
  Py.removeprefix_0x (Text.text h) = Text.text h.
Proof.
  intros Hc cs bs Hp ->. destruct Hp as [|c1 c2 hi lo cs bs H1 H2 _].
  - cbn. destruct c as [[] [] [] [] [] [] [] []]; reflexivity.
  - cbn [List.app Text.text string_of_list_ascii Py.removeprefix_0x].
    destruct c1 as [[] [] [] [] [] [] [] []]; try reflexivity.
    destruct c2 as [[] [] [] [] [] [] [] []]; try reflexivity.
    discriminate.
Qed.

Lemma removeprefix_pairs cs bs :
  hex_pairs cs bs -> Py.removeprefix_0x (Text.text cs) = Text.text cs.
Proof.
  intros Hp. destruct Hp as [|c1 c2 hi lo cs bs H1 H2 _]; [reflexivity|].
  cbn [Text.text string_of_list_ascii Py.removeprefix_0x].
  destruct c1 as [[] [] [] [] [] [] [] []]; try reflexivity.
  destruct c2 as [[] [] [] [] [] [] [] []]; try reflexivity.
  discriminate.
Qed.

(** Property X6.  [hash_action], for an action that msgpack packs.  A nonce outside
    [0, 2^64) raises OverflowError, whatever the vault.  With a nonce in
    range, a vault address of hex digit pairs, with or without the prefix
    [0x] and of any length, is hashed after the byte 1; a vault address
    with an odd number of hex digits raises ValueError. *)
Theorem hash_action_refusals (action : pyval) (nonce : Z) (packed : list Z) :
  Msgpack.packb action = Val packed ->
  (forall vault,
      nonce < 0 \/ 2 ^ 64 <= nonce ->
      Scalper.hash_action action vault nonce = Exc OverflowError)
  /\ (0 <= nonce < 2 ^ 64 ->
      forall cs bs v,
        hex_pairs cs bs ->
        (v = Text.text ("0"%char :: "x"%char :: cs) \/ v = Text.text cs) ->
        Scalper.hash_action action (Some v) nonce
        = Val (Keccak.keccak (packed ++ Py.be_bytes 8 nonce ++ 1 :: bs)))
  /\ (0 <= nonce < 2 ^ 64 ->
      forall cs bs c d v,
        hex_pairs cs bs -> Text.hex_val c = Some d ->
        (v = Text.text ("0"%char :: "x"%char :: cs ++ [c])
         \/ v = Text.text (cs ++ [c])) ->
        Scalper.hash_action action (Some v) nonce = Exc ValueError).
Proof.
  intros Hpack. split; [|split].
  - intros vault Hn. unfold Scalper.hash_action, Py.bind, Py.to_bytes. rewrite Hpack.
    change (256 ^ Z.of_nat 8) with (2 ^ 64).
    destruct ((0 <=? nonce) && (nonce <? 2 ^ 64)) eqn:E; [|reflexivity].
    apply andb_prop in E. destruct E as [E1 E2].
    apply Z.leb_le in E1. apply Z.ltb_lt in E2. lia.
  - intros Hn cs bs v Hp Hv.
    assert (E : Py.fromhex (Py.removeprefix_0x v) = Val bs).
    { assert (Er : Py.removeprefix_0x v = Text.text cs).
      { destruct Hv as [-> | ->]; [reflexivity|]. exact (removeprefix_pairs cs bs Hp). }
      rewrite Er. unfold Py.fromhex. rewrite chars_text, length_text.
      now rewrite (fromhex_chars_pairs _ _ Hp). }
    unfold Scalper.hash_action, Py.bind, Py.to_bytes. rewrite Hpack.
    change (256 ^ Z.of_nat 8) with (2 ^ 64).
    replace ((0 <=? nonce) && (nonce <? 2 ^ 64)) with true
      by (symmetry; apply andb_true_intro; split; [apply Z.leb_le|apply Z.ltb_lt]; lia).
    rewrite E. now rewrite <- !app_assoc.
  - intros Hn cs bs c d v Hp Hc Hv.
    assert (E : Py.fromhex (Py.removeprefix_0x v) = Exc ValueError).
    { assert (Er : Py.removeprefix_0x v = Text.text (cs ++ [c])).
      { destruct Hv as [-> | ->]; [reflexivity|].
        exact (removeprefix_hex _ c d Hc cs bs Hp eq_refl). }
      rewrite Er. unfold Py.fromhex. rewrite chars_text, length_text.
      now rewrite (fromhex_chars_odd cs bs c d Hp Hc). }
    unfold Scalper.hash_action, Py.bind, Py.to_bytes. rewrite Hpack.
    change (256 ^ Z.of_nat 8) with (2 ^ 64).
    replace ((0 <=? nonce) && (nonce <? 2 ^ 64)) with true
      by (symmetry; apply andb_true_intro; split; [apply Z.leb_le|apply Z.ltb_lt]; lia).
    now rewrite E.
Qed.

End HashRefusals.

Section MinusZero.

Lemma minus_zero_text_value : Num.float_of_string "-0.00000000" = Some (S754_zero true).
Proof. vm_compute. reflexivity. Qed.

Lemma minus_zero_text_normal :
  (d <- Py.of_option InvalidOperation (Dec.of_string "-0.00000000") ;;
   Val (Dec.format_f (Dec.normalize d)))%py = Val "-0"%string.
Proof. vm_compute. reflexivity. Qed.

(** Property X7.  [round_float] on a negative number, or minus zero, that eight
    decimals round to zero and that lies within 1e-12 of it: the
    eight-decimal text is not [-0], so the test for that text does not
    apply, and the result is the text [-0]. *)
Theorem round_float_keeps_minus_zero (x : F.float) :
  F.is_finite x = true ->
  F.sign_bit x = true ->
  F.scaled 8 x = 0%N ->
  F.geb (F.abs (F.sub (S754_zero true) x)) Lit.f1e_12 = false ->
  String.eqb (F.format_fixed 8 x) "-0" = false
  /\ Scalper.round_float x = Val "-0"%string.
Proof.
  intros Hfin Hsign Hzero Htol.
  split; [apply fixed_not_minus_zero; [exact Hfin|lia]|].
  assert (Hfmt : F.format_fixed 8 x = "-0.00000000"%string).
  { unfold F.format_fixed.
    destruct x as [sx|sx| |sx m e]; try discriminate Hfin;
      rewrite Hsign, Hzero; reflexivity. }
  unfold Scalper.round_float. rewrite Hfmt.
  rewrite minus_zero_text_value.
  cbn [Py.of_option Py.bind]. rewrite Htol.
  change (String.eqb "-0.00000000" "-0") with false. cbv iota.
  exact minus_zero_text_normal.
Qed.

End MinusZero.

(** ** The scalping strategy *)

Section FloatOrder.

Lemma ltb_leb x y : F.ltb x y = true -> F.leb x y = true.
Proof.
  unfold F.ltb, F.leb, SFltb, SFleb.
  destruct (SFcompare x y) as [[]|]; congruence.
Qed.

Lemma gtb_zero_not_zero x : F.gtb x (F.of_Z 0) = true -> F.is_zero x = false.
Proof. destruct x; [discriminate|reflexivity..]. Qed.

End FloatOrder.

Section StrategyRun.

Context {account : Account}.
Variable w : world.

(** Property X8.  [calculate_position_size] raises ZeroDivisionError for an entry price
    of zero; for every other price, NaN and the infinities included, it
    returns a size of at least 0.01. *)
Theorem calculate_position_size_floor (entry_price : F.float) :
  (F.is_zero entry_price = true ->
   Strategy.calculate_position_size entry_price = Exc ZeroDivisionError)
  /\ (F.is_zero entry_price = false ->
      exists size,
        Strategy.calculate_position_size entry_price = Val size
        /\ F.geb size Lit.f0_01 = true).
Proof.
  unfold Strategy.calculate_position_size, Py.truediv, Py.bind. split; intros H; rewrite H.
  - reflexivity.
  - eexists. split; [reflexivity|].
    unfold Py.max, F.geb, F.gtb.
    destruct (SFltb Lit.f0_01 _) eqn:E.
    + apply ltb_leb. exact E.
    + vm_compute. reflexivity.
Qed.

Lemma strategy_price_cases (i : io) :
  exists r, Strategy.get_current_price w tt i = (r, tt, io_after_mids i).
Proof.
  unfold Strategy.get_current_price. unfold_monad. red_m.
  destruct (all_mids w (mids_calls i)); eauto.
Qed.

Lemma quiet_strategy_price : quiet (Strategy.get_current_price w).
Proof. unfold Strategy.get_current_price. repeat quiet_step. Qed.

Lemma quiet_monitor entry n : quiet (Strategy.monitor w entry n).
Proof.
  induction n as [|n IH]; cbn [Strategy.monitor]; [apply quiet_ret|].
  apply quiet_bind.
  - unfold Strategy.monitor_pass.
    repeat first [apply quiet_strategy_price | quiet_step].
  - intros []; [apply quiet_ret|exact IH].
Qed.




Lemma scalper_place_refused entry size tp sl (i : io) :
  (forall p, error_reply (exchange w (posts i) p)) ->
  exists r i',
    Scalper.place_grouped_order w entry size tp sl tt i = (r, tt, i')
    /\ mids_calls i' = mids_calls i
    /\ (r = Val (PBool false) \/ exists e, r = Exc e).
Proof.
  intros Herr.
  assert (Hend : forall (r : outcome pyval) (i' : io),
             mids_calls i' = mids_calls i ->
             (r = Val (PBool false) \/ exists e, r = Exc e) ->
             exists r0 i0,
               (r, tt, i') = (r0, tt, i0)
               /\ mids_calls i0 = mids_calls i
               /\ (r0 = Val (PBool false) \/ exists e, r0 = Exc e)).
  { intros r i' H1 H2. exists r, i'. auto. }
  unfold Scalper.place_grouped_order. unfold_monad. red_m.
  repeat (destruct (Scalper.round_float _) as [?|?]; red_m;
          [|apply Hend; [reflexivity|right; eauto]]).
  destruct (millis _) as [nonce|e]; red_m; [|apply Hend; [reflexivity|right; eauto]].
  destruct (Scalper.sign_action _ None nonce true) as [sig|e]; red_m;
    [|apply Hend; [reflexivity|right; eauto]].
  match goal with
  | |- context [exchange w (posts i) ?p] =>
      specialize (Herr p); destruct (exchange w (posts i) p) as [|c [body|]]; red_m
  end.
  - apply Hend; [reflexivity|left; reflexivity].
  - unfold M.status_code. destruct (c =? 200) eqn:Hc; unfold_monad; red_m;
      [|apply Hend; [reflexivity|left; reflexivity]].
    apply Z.eqb_eq in Hc. destruct Herr as [Hne|[Hst _]]; [contradiction|].
    pose proof (status_not_ok _ Hst) as Hno.
    destruct (status_ok body) as [[|]|e] eqn:Hso; red_m; rewrite ?Hso; red_m;
      try congruence; apply Hend; try reflexivity; left; reflexivity.
  - unfold M.status_code. destruct (c =? 200) eqn:Hc; unfold_monad; red_m;
      apply Hend; try reflexivity; left; reflexivity.
Qed.

Lemma strategy_refused (i : io) :
  (forall p, error_reply (exchange w (posts i) p)) ->
  exists r i',
    (forall n, Strategy.execute_scalping_strategy w n tt i = (r, tt, i'))
    /\ r <> Val false
    /\ mids_calls i' = S (mids_calls i).
Proof.
  intros Herr.
  destruct (strategy_price_cases i) as (r0 & E0).
  destruct r0 as [price|e].
  2:{ exists (Exc e), (io_after_mids i). split; [|split; [discriminate|reflexivity]].
      intros n. unfold Strategy.execute_scalping_strategy, M.bind. now rewrite E0. }
  set (entry := F.round_to 2 (F.sub price Strategy.entry_offset)).
  destruct (Strategy.calculate_position_size entry) as [size|e] eqn:Ecalc.
  2:{ exists (Exc e), (io_after_mids i). split; [|split; [discriminate|reflexivity]].
      intros n. unfold Strategy.execute_scalping_strategy, M.bind, M.lift.
      rewrite E0. fold entry. now rewrite Ecalc. }
  set (tp := F.round_to 2 (F.mul entry (F.add Lit.f1 (F.div Strategy.tp_percentage Lit.f100)))).
  set (sl := F.round_to 2 (F.mul entry (F.sub Lit.f1 (F.div Strategy.sl_percentage Lit.f100)))).
  destruct (scalper_place_refused entry size tp sl (io_after_mids i) Herr)
    as (r & i' & E & Hm & Hr).
  cbn [mids_calls io_after_mids] in Hm.
  destruct Hr as [->|(e & ->)].
  - exists (Val true), i'. split; [|split; [discriminate|exact Hm]].
    intros n. unfold Strategy.execute_scalping_strategy, M.bind, M.lift.
    rewrite E0. fold entry. rewrite Ecalc. fold tp sl. rewrite E. reflexivity.
  - exists (Exc e), i'. split; [|split; [discriminate|exact Hm]].
    intros n. unfold Strategy.execute_scalping_strategy, M.bind, M.lift.
    rewrite E0. fold entry. rewrite Ecalc. fold tp sl. rewrite E. reflexivity.
Qed.

(** Property X10.  [execute_scalping_strategy], for any number of passes of its
    monitoring loop, posts at most one payload, the grouped buy.  When the
    exchange answers it with an error, the strategy ends without
    monitoring: it has asked for the price once. *)
Theorem strategy_posts_one_order (n : nat) (i : io) :
  one_post (grouped_entry true "Gtc") i (snd (Strategy.execute_scalping_strategy w n tt i))
  /\ ((forall p, error_reply (exchange w (posts i) p)) ->
      Strategy.execute_scalping_strategy w n tt i
      = Strategy.execute_scalping_strategy w 0 tt i
      /\ fst (fst (Strategy.execute_scalping_strategy w 0 tt i)) <> Val false
      /\ mids_calls (snd (Strategy.execute_scalping_strategy w 0 tt i)) = S (mids_calls i)).
Proof.
  assert (Hone : posts_once (grouped_entry true "Gtc")
                            (Strategy.execute_scalping_strategy w n)).
  { unfold Strategy.execute_scalping_strategy. cbv zeta.
    apply posts_once_bind_quiet; [apply quiet_strategy_price|intros price].
    apply posts_once_bind_lift; intros size _.
    apply posts_once_then_quiet; [apply scalper_place_grouped_order_posts_once|].
    intros order_id. destruct (negb _); [apply quiet_ret|apply quiet_monitor]. }
  split; [exact (Hone tt i)|]. clear Hone.
  intros Herr. destruct (strategy_refused i Herr) as (r & i' & E & Hr & Hm).
  rewrite (E n), (E 0%nat). cbn [fst snd]. auto.
Qed.

End StrategyRun.

(** ** Payloads that close *)

Section PostsOnly.

Variable w : world.
Context {S : Type}.
Variable Q : pyval -> Prop.

Lemma posts_only_quiet {A} (m : M.t S A) : quiet m -> posts_only Q m.
Proof.
  intros H s i. destruct (H s i) as [H1 H2]. exists []. cbn. auto.
Qed.

Lemma posts_only_once {A} (m : M.t S A) : posts_once Q m -> posts_only Q m.
Proof.
  intros H s i. destruct (H s i) as [[H1 H2]|(p & Hp & H1 & H2)].
  - exists []. cbn. auto.
  - exists [p]. cbn. auto.
Qed.

Lemma posts_only_step i j k new1 new2 :
  posted (log j) = (new1 ++ posted (log i))%list -> Forall Q new1 ->
  posts j = (List.length new1 + posts i)%nat ->
  posted (log k) = (new2 ++ posted (log j))%list -> Forall Q new2 ->
  posts k = (List.length new2 + posts j)%nat ->
  exists new,
    posted (log k) = (new ++ posted (log i))%list /\ Forall Q new
    /\ posts k = (List.length new + posts i)%nat.
Proof.
  intros H1 H2 H3 H4 H5 H6. exists (new2 ++ new1)%list.
  rewrite H4, H1, app_assoc, length_app. split; [reflexivity|].
  split; [apply Forall_app; auto|lia].
Qed.

Lemma posts_only_bind {A B} (m : M.t S A) (k : A -> M.t S B) :
  posts_only Q m -> (forall a, posts_only Q (k a)) -> posts_only Q (M.bind m k).
Proof.
  intros Hm Hk s i. unfold M.bind. destruct (Hm s i) as (new1 & H1 & H2 & H3).
  destruct (m s i) as [[[a|e] s'] i']; cbn [snd] in *; [|eauto].
  destruct (Hk a s' i') as (new2 & H4 & H5 & H6).
  eapply posts_only_step; eauto.
Qed.

Lemma posts_only_try_except {A} (m : M.t S A) h :
  posts_only Q m -> (forall e, posts_only Q (h e)) -> posts_only Q (M.try_except m h).
Proof.
  intros Hm Hh s i. unfold M.try_except. destruct (Hm s i) as (new1 & H1 & H2 & H3).
  destruct (m s i) as [[[a|e] s'] i']; cbn [snd] in *; [eauto|].
  destruct (Hh e s' i') as (new2 & H4 & H5 & H6).
  eapply posts_only_step; eauto.
Qed.

Lemma posts_only_try_finally {A} (m : M.t S A) f :
  posts_only Q m -> posts_only Q f -> posts_only Q (M.try_finally m f).
Proof.
  intros Hm Hf s i. unfold M.try_finally. destruct (Hm s i) as (new1 & H1 & H2 & H3).
  destruct (m s i) as [[r s'] i']; cbn [snd] in *.
  destruct (Hf s' i') as (new2 & H4 & H5 & H6).
  destruct (f s' i') as [[[u|e] s''] i'']; cbn [snd] in *; eapply posts_only_step; eauto.
Qed.

End PostsOnly.

Ltac posts_only_step :=
  match goal with
  | |- posts_only _ (M.bind _ _) => apply posts_only_bind; [|intro]
  | |- posts_only _ (M.try_except _ _) => apply posts_only_try_except; [|intro]
  | |- posts_only _ (M.try_finally _ _) => apply posts_only_try_finally
  | |- posts_only _ (if ?b then _ else _) => destruct b
  | |- posts_only _ (match ?x with _ => _ end) => destruct x
  | |- posts_only _ _ => apply posts_only_quiet; solve [repeat quiet_step]
  end.

Section HunterClosing.

Context {account : Account}.
Variable w : world.

Lemma quiet_hunter_get_current_price : quiet (Hunter.get_current_price w).
Proof. unfold Hunter.get_current_price. repeat quiet_step. Qed.

Lemma hunter_close_position_posts_only :
  posts_only closing_payload (Hunter.close_position w).
Proof.
  unfold Hunter.close_position, Hunter.reset_tracking. cbv zeta.
  repeat first
    [ apply posts_only_once; eapply posts_once_weaken;
      [|apply hunter_submit_posts_once];
      intros p (nonce & sig & ->); left; eauto
    | apply posts_only_once; eapply posts_once_weaken;
      [|apply hunter_place_order_raw_posts_once];
      intros p (nonce & sig & ->); right; reflexivity
    | apply posts_only_quiet; apply quiet_hunter_get_current_price
    | posts_only_step ].
Qed.

Lemma hunter_manage_position_posts_only :
  posts_only closing_payload (Hunter.manage_position w).
Proof.
  unfold Hunter.manage_position.
  repeat first [apply hunter_close_position_posts_only | posts_only_step].
Qed.

End HunterClosing.

(** ** The order-book analysis *)

Section Volume.

Lemma from_end_in_range {A} (q : list A) i :
  (1 <= i)%nat -> (i <= List.length q)%nat -> exists x, Book.from_end q i = Val x.
Proof.
  intros H1 H2. destruct i as [|k]; [lia|]. cbn [Book.from_end].
  destruct (nth_error q k) as [x|] eqn:E; [now exists x|].
  apply nth_error_None in E. lia.
Qed.

Lemma proxy_sum_returns q guard indices acc :
  (forall i, In i indices -> guard i = true -> (1 <= i)%nat /\ (S i <= List.length q)%nat) ->
  exists v, Book.proxy_sum q guard indices acc = Val v.
Proof.
  revert acc. induction indices as [|i rest IH]; intros acc H; cbn [Book.proxy_sum]; [eauto|].
  assert (Hrest : forall j, In j rest -> guard j = true ->
                            (1 <= j)%nat /\ (S j <= List.length q)%nat)
    by (intros j Hj; apply H; now right).
  destruct (guard i) eqn:Hg; [|now apply IH].
  destruct (H i (or_introl eq_refl) Hg) as [H1 H2].
  destruct (from_end_in_range q i H1) as (c & ->); [lia|].
  destruct (from_end_in_range q (S i)) as (p & ->); [lia|lia|].
  cbn [Py.bind]. now apply IH.
Qed.

Lemma get_recent_volume_short (s : Book.state) :
  (List.length (Book.orderbook_history s) < 30)%nat ->
  Book.get_recent_volume s = Val Lit.f1.
Proof.
  intros Hlen. unfold Book.get_recent_volume. cbv zeta.
  set (q := Book.orderbook_history s) in *. set (n := List.length q) in *.
  destruct (Nat.ltb n 10) eqn:H10; [reflexivity|].
  apply Nat.ltb_ge in H10.
  destruct (proxy_sum_returns q (fun _ => true) (seq 1 (Nat.min 10 n - 1)) (F.of_Z 0))
    as (vp & ->).
  { intros i Hi _. apply in_seq in Hi. fold n. lia. }
  cbn [Py.bind].
  destruct (Nat.leb 30 n) eqn:H30; [apply Nat.leb_le in H30; lia|reflexivity].
Qed.

(** Property X11.  [get_recent_volume] never raises, and it is 1.0 as long as the
    history holds fewer than 30 snapshots. *)
Theorem get_recent_volume_warms_up (s : Book.state) :
  (exists v, Book.get_recent_volume s = Val v)
  /\ ((List.length (Book.orderbook_history s) < 30)%nat ->
      Book.get_recent_volume s = Val Lit.f1).
Proof.
  unfold Book.get_recent_volume. cbv zeta.
  set (q := Book.orderbook_history s). set (n := List.length q).
  destruct (Nat.ltb n 10) eqn:H10; [split; eauto|].
  apply Nat.ltb_ge in H10.
  destruct (proxy_sum_returns q (fun _ => true) (seq 1 (Nat.min 10 n - 1)) (F.of_Z 0))
    as (vp & ->).
  { intros i Hi _. apply in_seq in Hi. fold n. lia. }
  cbn [Py.bind].
  destruct (Nat.leb 30 n) eqn:H30.
  - apply Nat.leb_le in H30. split; [|lia].
    destruct (proxy_sum_returns q (fun i => Nat.ltb i (n - 1)) (seq 10 20) (F.of_Z 0))
      as (avg & ->).
    { intros i Hi Hg. apply in_seq in Hi. apply Nat.ltb_lt in Hg. fold n. lia. }
    cbn [Py.bind].
    match goal with
    | |- context [F.gtb ?a (F.of_Z 0)] =>
        destruct (F.gtb a (F.of_Z 0)) eqn:Hpos; [|eauto]
    end.
    apply gtb_zero_not_zero in Hpos.
    unfold Py.truediv at 1. change (F.is_zero Lit.f10) with false. cbn [Py.bind].
    unfold Py.truediv. rewrite Hpos. eauto.
  - split; eauto.
Qed.

End Volume.

Section Analysis.

Context {account : Account}.
Variable w : world.
Variable fsum : list F.float -> F.float.

Lemma on_core_posts_only {A} Q (m : M.t Hunter.state A) :
  posts_only Q m -> posts_only Q (Book.on_core m).
Proof.
  intros H s i. unfold Book.on_core. specialize (H (Book.core s) i).
  destruct (m (Book.core s) i) as [[r c] i']. exact H.
Qed.

Lemma on_core_keeps_queues {A} (m : M.t Hunter.state A) s i :
  Book.orderbook_history (snd (fst (Book.on_core m s i))) = Book.orderbook_history s
  /\ Book.volume_history (snd (fst (Book.on_core m s i))) = Book.volume_history s.
Proof.
  unfold Book.on_core. destruct (m (Book.core s) i) as [[r c] i']. split; reflexivity.
Qed.

Lemma check_entry_keeps_queues b s i r s' i' :
  Book.check_entry_conditions w b s i = (r, s', i') ->
  Book.orderbook_history s' = Book.orderbook_history s
  /\ Book.volume_history s' = Book.volume_history s.
Proof.
  assert (Hcore : forall (m : M.t Hunter.state unit),
             Book.on_core m s i = (r, s', i') ->
             Book.orderbook_history s' = Book.orderbook_history s
             /\ Book.volume_history s' = Book.volume_history s).
  { intros m E. pose proof (on_core_keeps_queues m s i) as H. now rewrite E in H. }
  unfold Book.check_entry_conditions, M.bind, M.get, M.lift, M.ret.
  destruct (Hunter.position_open (Book.core s)); [apply Hcore|].
  destruct (Book.get_recent_volume s) as [v|e]; [|now intros [= <- <- <-]].
  destruct (_ && _); [apply Hcore|].
  destruct (_ && _); [apply Hcore|now intros [= <- <- <-]].
Qed.

(** What [analyze_orderbook] comes to: nothing at all, or one snapshot
    stamped with the clock and handed to [check_entry_conditions]. *)
Lemma analyze_orderbook_cases data s i :
  Book.analyze_orderbook w fsum data s i = (Val tt, s, i)
  \/ exists b r s2 i2,
      Book.time b = clock w (clock_reads i)
      /\ Book.check_entry_conditions w b (Book.record_snapshot b s) (io_after_read i)
         = (r, s2, i2)
      /\ Book.analyze_orderbook w fsum data s i = (Val tt, s2, i2).
Proof.
  remember (Book.analyze_orderbook w fsum data s i) as X eqn:EX.
  unfold Book.analyze_orderbook in EX. unfold_monad. cbv beta iota zeta in EX.
  destruct (Py.bind (Py.get data "levels" Book.no_levels) (fun l => Book.index 0 l))
    as [bids|e]; cbv beta iota zeta in EX; [|now left].
  destruct (Py.bind (Py.get data "levels" Book.no_levels) (fun l => Book.index 1 l))
    as [asks|e]; cbv beta iota zeta in EX; [|now left].
  destruct (negb (Py.truthy bids) || negb (Py.truthy asks));
    cbv beta iota zeta in EX; [now left|].
  destruct (Book.top_size fsum bids) as [bid_size|e];
    cbv beta iota zeta in EX; [|now left].
  destruct (Book.top_size fsum asks) as [ask_size|e];
    cbv beta iota zeta in EX; [|now left].
  destruct (if F.gtb ask_size (F.of_Z 0) then Py.truediv bid_size ask_size
            else Val (F.of_Z 999)) as [imbalance|e];
    cbv beta iota zeta in EX; [|now left].
  destruct (Book.best_price bids) as [best_bid|e];
    cbv beta iota zeta in EX; [|now left].
  destruct (Book.best_price asks) as [best_ask|e];
    cbv beta iota zeta in EX; [|now left].
  destruct (Py.truediv (F.add best_bid best_ask) Lit.f2) as [mid|e];
    cbv beta iota zeta in EX; [|now left].
  destruct (Py.truediv (F.sub best_ask best_bid) mid) as [ratio|e];
    cbv beta iota zeta in EX; [|now left].
  right.
  match type of EX with
  | context [Book.check_entry_conditions w ?b ?s1 ?i1] =>
      exists b; destruct (Book.check_entry_conditions w b s1 i1) as [[r s2] i2] eqn:E
  end.
  exists r, s2, i2. split; [reflexivity|]. split; [exact E|].
  destruct r as [[]|e]; cbv beta iota zeta in EX; [|exact EX].
  destruct (Book.get_recent_volume s2); exact EX.
Qed.

Lemma length_append {A} n (x : A) q : (List.length (Book.append n x q) <= n)%nat.
Proof. unfold Book.append. apply firstn_le_length. Qed.

(** Property X12.  [analyze_orderbook] always returns normally, whatever the message.
    Either it changes nothing, or it has appended one snapshot, stamped
    with the reading of the clock, to the history, which never holds more
    than 50.  It leaves the volume history alone. *)
Theorem analyze_orderbook_records_one_snapshot (data : pyval) (s : Book.state) (i : io) :
  exists s' i',
    Book.analyze_orderbook w fsum data s i = (Val tt, s', i')
    /\ Book.volume_history s' = Book.volume_history s
    /\ ((s' = s /\ i' = i)
        \/ exists b,
            Book.time b = clock w (clock_reads i)
            /\ Book.orderbook_history s' = Book.append 50 b (Book.orderbook_history s)
            /\ (List.length (Book.orderbook_history s') <= 50)%nat).
Proof.
  destruct (analyze_orderbook_cases data s i) as [E|(b & r & s2 & i2 & Ht & Ec & E)].
  - exists s, i. split; [exact E|]. split; [reflexivity|]. now left.
  - exists s2, i2. split; [exact E|].
    destruct (check_entry_keeps_queues _ _ _ _ _ _ Ec) as [Hq Hv].
    cbn [Book.orderbook_history Book.volume_history Book.record_snapshot] in Hq, Hv.
    split; [exact Hv|]. right. exists b. split; [exact Ht|].
    rewrite Hq. split; [reflexivity|]. apply length_append.
Qed.

Lemma check_entry_idle b s i :
  Hunter.position_open (Book.core s) = false ->
  (List.length (Book.orderbook_history s) < 30)%nat ->
  Book.check_entry_conditions w b s i = (Val tt, s, i).
Proof.
  intros Hopen Hlen.
  unfold Book.check_entry_conditions, M.bind, M.get, M.lift. rewrite Hopen.
  rewrite (get_recent_volume_short s Hlen).
  change (F.gtb Lit.f1 Book.volume_spike_threshold) with false.
  rewrite !andb_false_r. reflexivity.
Qed.

(** Property X13.  While no position is open and the history held fewer than 29
    snapshots before the message, [analyze_orderbook] posts nothing, logs
    nothing and leaves the position fields as they are, whatever the
    imbalance of the book: the volume figure is still 1.0, below the spike
    threshold. *)
Theorem no_entry_before_thirty_snapshots (data : pyval) (s : Book.state) (i : io) :
  Hunter.position_open (Book.core s) = false ->
  (List.length (Book.orderbook_history s) < 29)%nat ->
  exists s' i',
    Book.analyze_orderbook w fsum data s i = (Val tt, s', i')
    /\ Book.core s' = Book.core s
    /\ posts i' = posts i
    /\ log i' = log i.
Proof.
  intros Hopen Hlen.
  destruct (analyze_orderbook_cases data s i) as [E|(b & r & s2 & i2 & Ht & Ec & E)].
  - exists s, i. auto.
  - rewrite check_entry_idle in Ec.
    + injection Ec as <- <- <-. eexists _, _. split; [exact E|]. auto.
    + exact Hopen.
    + cbn [Book.orderbook_history Book.record_snapshot].
      pose proof (firstn_le_length 50 (b :: Book.orderbook_history s)) as H.
      unfold Book.append.
      assert (H' : (List.length (firstn 50 (b :: Book.orderbook_history s))
                    <= List.length (b :: Book.orderbook_history s))%nat).
      { rewrite length_firstn. lia. }
      cbn [List.length] in H'. lia.
Qed.

(** Property X14.  With a position open, [check_entry_conditions] does not enter:
    whatever it posts is the cancel action or an order that is
    reduce-only, and the snapshot history is left as it is. *)
Theorem open_position_is_only_managed (b : Book.book_snapshot) (s : Book.state) (i : io) :
  Hunter.position_open (Book.core s) = true ->
  exists r s' i' new,
    Book.check_entry_conditions w b s i = (r, s', i')
    /\ posted (log i') = (new ++ posted (log i))%list
    /\ Forall closing_payload new
    /\ Book.orderbook_history s' = Book.orderbook_history s.
Proof.
  intros Hopen.
  assert (E : Book.check_entry_conditions w b s i
              = Book.on_core (Hunter.manage_position w) s i).
  { unfold Book.check_entry_conditions, M.bind, M.get. now rewrite Hopen. }
  destruct (on_core_posts_only closing_payload _ (hunter_manage_position_posts_only w) s i)
    as (new & H1 & H2 & _).
  pose proof (proj1 (on_core_keeps_queues (Hunter.manage_position w) s i)) as Hq.
  rewrite <- E in H1, Hq.
  destruct (Book.check_entry_conditions w b s i) as [[r s'] i'].
  exists r, s', i', new. auto.
Qed.

End Analysis.

(** ** Trades *)

Section Trades.

Context {account : Account}.
Variable w : world.
Variable fsum : list F.float -> F.float.

Lemma check_entry_with_volume b s i vh :
  Book.check_entry_conditions w b (Book.with_volume vh s) i
  = let '(r, s', i') := Book.check_entry_conditions w b s i in
    (r, Book.with_volume vh s', i').
Proof.
  unfold Book.check_entry_conditions, M.bind, M.get, M.lift, M.ret, Book.on_core.
  change (Book.core (Book.with_volume vh s)) with (Book.core s).
  change (Book.get_recent_volume (Book.with_volume vh s)) with (Book.get_recent_volume s).
  destruct (Hunter.position_open (Book.core s)); cbv beta iota zeta.
  - change (Book.core (Book.with_volume vh s)) with (Book.core s).
    destruct (Hunter.manage_position w (Book.core s) i) as [[r c] i']. reflexivity.
  - destruct (Book.get_recent_volume s) as [v|e]; [|reflexivity].
    destruct (_ && _); cbv beta iota zeta.
    + change (Book.core (Book.with_volume vh s)) with (Book.core s).
      destruct (Hunter.enter_position w long _ (Book.core s) i) as [[r c] i']. reflexivity.
    + destruct (_ && _); cbv beta iota zeta; [|reflexivity].
      change (Book.core (Book.with_volume vh s)) with (Book.core s).
      destruct (Hunter.enter_position w short _ (Book.core s) i) as [[r c] i']. reflexivity.
Qed.

Lemma analyze_with_volume data s i vh :
  Book.analyze_orderbook w fsum data (Book.with_volume vh s) i
  = let '(r, s', i') := Book.analyze_orderbook w fsum data s i in
    (r, Book.with_volume vh s', i').
Proof.
  unfold Book.analyze_orderbook. unfold_monad. cbv beta iota zeta.
  destruct (Py.bind (Py.get data "levels" Book.no_levels) (fun l => Book.index 0 l))
    as [bids|e]; cbv beta iota zeta; [|reflexivity].
  destruct (Py.bind (Py.get data "levels" Book.no_levels) (fun l => Book.index 1 l))
    as [asks|e]; cbv beta iota zeta; [|reflexivity].
  destruct (negb (Py.truthy bids) || negb (Py.truthy asks));
    cbv beta iota zeta; [reflexivity|].
  destruct (Book.top_size fsum bids) as [bid_size|e]; cbv beta iota zeta; [|reflexivity].
  destruct (Book.top_size fsum asks) as [ask_size|e]; cbv beta iota zeta; [|reflexivity].
  destruct (if F.gtb ask_size (F.of_Z 0) then Py.truediv bid_size ask_size
            else Val (F.of_Z 999)) as [imbalance|e]; cbv beta iota zeta; [|reflexivity].
  destruct (Book.best_price bids) as [best_bid|e]; cbv beta iota zeta; [|reflexivity].
  destruct (Book.best_price asks) as [best_ask|e]; cbv beta iota zeta; [|reflexivity].
  destruct (Py.truediv (F.add best_bid best_ask) Lit.f2) as [mid|e];
    cbv beta iota zeta; [|reflexivity].
  destruct (Py.truediv (F.sub best_ask best_bid) mid) as [ratio|e];
    cbv beta iota zeta; [|reflexivity].
  match goal with
  | |- context [Book.check_entry_conditions w ?b (Book.record_snapshot ?b s) ?i1] =>
      change (Book.record_snapshot b (Book.with_volume vh s))
        with (Book.with_volume vh (Book.record_snapshot b s));
      rewrite (check_entry_with_volume b (Book.record_snapshot b s) i1 vh);
      destruct (Book.check_entry_conditions w b (Book.record_snapshot b s) i1)
        as [[r s2] i2]
  end.
  destruct r as [[]|e]; cbv beta iota zeta; [|reflexivity].
  change (Book.get_recent_volume (Book.with_volume vh s2)) with (Book.get_recent_volume s2).
  destruct (Book.get_recent_volume s2); reflexivity.
Qed.

Lemma update_volume_items_frame trades s i :
  Book.core (snd (fst (Book.update_volume_items w trades s i))) = Book.core s
  /\ Book.orderbook_history (snd (fst (Book.update_volume_items w trades s i)))
     = Book.orderbook_history s
  /\ posts (snd (Book.update_volume_items w trades s i)) = posts i
  /\ log (snd (Book.update_volume_items w trades s i)) = log i.
Proof.
  revert s i. induction trades as [|trade rest IH]; intros s i;
    cbn [Book.update_volume_items]; [cbn; auto|].
  unfold_monad.
  destruct (Py.bind (Py.item trade "sz") _) as [sz|e]; [|cbn; auto].
  destruct (Py.bind (Py.item trade "px") _) as [px|e]; [|cbn; auto].
  cbv beta iota zeta.
  match goal with
  | |- context [Book.update_volume_items w rest ?s1 ?i1] =>
      destruct (IH s1 i1) as (H1 & H2 & H3 & H4);
      destruct (Book.update_volume_items w rest s1 i1) as [[r s2] i2]
  end.
  cbn [fst snd] in *. destruct r; cbn [fst snd]; auto.
Qed.

(** Property X15.  The volume history that [update_volume] fills is never read:
    [analyze_orderbook] gives the same result, position fields, snapshots
    and io whatever that history holds.  [update_volume] changes nothing
    else, posts nothing and logs nothing. *)
Theorem trades_never_reach_the_analysis (data trades : pyval) (s : Book.state) (i : io)
        (vh : list (F.float * F.float)) :
  Book.analyze_orderbook w fsum data (Book.with_volume vh s) i
  = (let '(r, s', i') := Book.analyze_orderbook w fsum data s i in
     (r, Book.with_volume vh s', i'))
  /\ (let '(_, s', i') := Book.update_volume w trades s i in
      Book.core s' = Book.core s
      /\ Book.orderbook_history s' = Book.orderbook_history s
      /\ posts i' = posts i /\ log i' = log i).
Proof.
  split; [apply analyze_with_volume|].
  unfold Book.update_volume, M.bind, M.lift.
  destruct (Py.iter trades) as [items|e]; [|auto].
  pose proof (update_volume_items_frame items s i) as H.
  destruct (Book.update_volume_items w items s i) as [[r s'] i']. exact H.
Qed.

End Trades.

(** ** The [.env] file *)

Section EnvFile.

Lemma chars_append s t : Text.chars (s ++ t)%string = (Text.chars s ++ Text.chars t)%list.
Proof.
  unfold Text.chars. induction s as [|c s IH]; cbn; [reflexivity|now rewrite IH].
Qed.

Lemma text_chars s : Text.text (Text.chars s) = s.
Proof. apply string_of_list_ascii_of_string. Qed.

Lemma text_app k v : Text.text (k ++ v)%list = (Text.text k ++ Text.text v)%string.
Proof.
  unfold Text.text. induction k as [|c k IH]; cbn; [reflexivity|now rewrite IH].
Qed.

Lemma split_eq_first k v :
  ~ In "="%char k -> Env.split_eq (k ++ "="%char :: v) = Some (k, v).
Proof.
  induction k as [|c k IH]; intros Hk; cbn [List.app Env.split_eq].
  - reflexivity.
  - destruct (Ascii.eqb c "=") eqn:E.
    + apply Ascii.eqb_eq in E. subst. exfalso. apply Hk. now left.
    + rewrite IH; [reflexivity|]. intros H. apply Hk. now right.
Qed.

Lemma split_eq_sound cs k v :
  Env.split_eq cs = Some (k, v) -> cs = (k ++ "="%char :: v)%list /\ ~ In "="%char k.
Proof.
  revert k v. induction cs as [|c cs IH]; intros k v; cbn [Env.split_eq]; [discriminate|].
  destruct (Ascii.eqb c "=") eqn:E.
  - apply Ascii.eqb_eq in E. subst. intros [= <- <-]. split; [reflexivity|]. intros [].
  - destruct (Env.split_eq cs) as [[k0 v0]|]; [|discriminate].
    intros [= <- <-]. destruct (IH k0 v0 eq_refl) as [-> Hk]. split; [reflexivity|].
    intros [->|H]; [|contradiction]. now rewrite Ascii.eqb_refl in E.
Qed.

(** The assignment a stripped line makes is the text on either side of
    its first ['=']. *)
Lemma entry_sound line k v :
  Env.entry line = Some (k, v) -> line = (k ++ "=" ++ v)%string.
Proof.
  unfold Env.entry. cbv zeta.
  destruct (Text.chars line) as [|c cs] eqn:E; [discriminate|].
  destruct (Ascii.eqb c "#"); [discriminate|].
  destruct (Env.split_eq (c :: cs)) as [[k0 v0]|] eqn:Es; [|discriminate].
  intros [= <- <-]. apply split_eq_sound in Es. destruct Es as [Es _].
  rewrite <- (text_chars line), E, Es, text_app. reflexivity.
Qed.

Lemma entry_of_assignment k v :
  ~ In "="%char (Text.chars k) ->
  (forall r, Text.chars k <> "#"%char :: r) ->
  Env.entry (k ++ "=" ++ v) = Some (k, v).
Proof.
  intros Hk Hc. unfold Env.entry. cbv zeta.
  rewrite chars_append. change (Text.chars ("=" ++ v)) with ("="%char :: Text.chars v).
  rewrite split_eq_first by exact Hk. rewrite !text_chars.
  destruct (Text.chars k) as [|c r] eqn:E; cbn [List.app]; [reflexivity|].
  destruct (Ascii.eqb c "#") eqn:Ec; [|reflexivity].
  apply Ascii.eqb_eq in Ec. subst. now destruct (Hc r).
Qed.

Lemma get_assign_same k v env : Env.get k (Env.assign k v env) = Some v.
Proof.
  induction env as [|[k0 v0] env IH]; cbn [Env.assign Env.get].
  - now rewrite String.eqb_refl.
  - destruct (String.eqb k k0) eqn:E; cbn [Env.get]; rewrite E; [reflexivity|exact IH].
Qed.

Lemma get_assign_other k k' v env :
  k <> k' -> Env.get k (Env.assign k' v env) = Env.get k env.
Proof.
  intros Hne. induction env as [|[k0 v0] env IH]; cbn [Env.assign Env.get].
  - destruct (String.eqb k k') eqn:E; [|reflexivity].
    apply String.eqb_eq in E. contradiction.
  - destruct (String.eqb k' k0) eqn:E; cbn [Env.get].
    + apply String.eqb_eq in E. subst k0.
      destruct (String.eqb k k') eqn:E'; [|reflexivity].
      apply String.eqb_eq in E'. contradiction.
    + destruct (String.eqb k k0); [reflexivity|exact IH].
Qed.

Lemma read_lines_app l1 l2 env :
  Env.read_lines (l1 ++ l2) env = Env.read_lines l2 (Env.read_lines l1 env).
Proof. unfold Env.read_lines. apply fold_left_app. Qed.

(** Lines that do not assign [key] leave its binding as it is. *)
Lemma read_lines_other key lines env :
  (forall l, In l lines -> forall v, Env.strip l <> (key ++ "=" ++ v)%string) ->
  Env.get key (Env.read_lines lines env) = Env.get key env.
Proof.
  revert env. induction lines as [|l lines IH]; intros env H; [reflexivity|].
  cbn [Env.read_lines fold_left].
  change (fold_left _ lines ?e) with (Env.read_lines lines e).
  rewrite IH by (intros l' Hl'; apply H; now right).
  destruct (Env.entry (Env.strip l)) as [[k v]|] eqn:E; [|reflexivity].
  apply get_assign_other. intros ->.
  apply entry_sound in E. exact (H l (or_introl eq_refl) v E).
Qed.


(** Property X16.  [load_credentials], on lines of characters below 256: the key handed
    to [Account.from_key] is the value of the last line that, stripped,
    starts with [HYPERLIQUID_PRIVATE_KEY=]; the value runs to the end of the
    stripped line and may hold [=]. *)
Theorem private_key_is_last_assignment (lines rest : list string) (l v : string) :
  Env.strip l = (Env.key_name ++ "=" ++ v)%string ->
  (forall l', In l' rest -> forall v', Env.strip l' <> (Env.key_name ++ "=" ++ v')%string) ->
  Env.private_key (lines ++ l :: rest) = Some v.
Proof.
  intros Hl Hrest. unfold Env.private_key.
  change (lines ++ l :: rest)%list with (lines ++ [l] ++ rest)%list.
  rewrite !read_lines_app.
  rewrite (read_lines_other Env.key_name rest _ Hrest).
  cbn [Env.read_lines fold_left]. rewrite Hl.
  rewrite entry_of_assignment.
  - apply get_assign_same.
  - vm_compute. intuition discriminate.
  - intros r. discriminate.
Qed.

End EnvFile.

(** ** The price feed *)

Section PriceFeed.

Context {account : Account}.
Variable w : world.

(** Property X17.  When the price feed fails or its answer does not quote SOL,
    [get_current_price] of the colour trader and of the hunter return
    [None], while that of the scalping bot raises, and
    [execute_scalping_strategy] raises with it before it posts anything. *)
Theorem price_lookup_without_quote (cs : ColorTrader.state) (hs : Hunter.state) (i : io) :
  (exists e, all_mids w (mids_calls i) = Exc e)
  \/ (exists kv, all_mids w (mids_calls i) = Val (PDict kv) /\ Py.lookup "SOL" kv = None) ->
  ColorTrader.get_current_price w cs i = (Val None, cs, io_after_mids i)
  /\ Hunter.get_current_price w hs i = (Val None, hs, io_after_mids i)
  /\ (exists e, Strategy.get_current_price w tt i = (Exc e, tt, io_after_mids i))
  /\ (forall n, exists e, Strategy.execute_scalping_strategy w n tt i
                          = (Exc e, tt, io_after_mids i)).
Proof.
  intros H.
  unfold ColorTrader.get_current_price, Hunter.get_current_price,
    Strategy.execute_scalping_strategy, Strategy.get_current_price.
  unfold_monad. red_m. unfold io_after_mids.
  destruct H as [(e & ->)|(kv & -> & Hk)].
  - repeat split; eauto.
  - cbn [Py.contains Py.item Py.bind Py.of_option]. rewrite Hk. cbn [Py.of_option Py.bind].
    repeat split; eauto.
Qed.

(** Property X18.  [flip_position] with no position open closes nothing and does not
    wait: it asks for the price and posts at most the entry order of the
    new direction.  When that order is not confirmed as filled, it returns
    [False] and changes no field. *)
Theorem flip_from_flat_enters_directly (d : direction) (s : ColorTrader.state) (i : io) :
  ColorTrader.position_open s = false ->
  exists r s' i',
    ColorTrader.flip_position w d s i = (Val r, s', i')
    /\ ((r = false /\ s' = s /\ history i' = (history i ++ [Mids])%list)
        \/ exists e,
            opens d e = true
            /\ history i' = (history i ++ [Mids; Post e])%list
            /\ (confirms_fill (exchange w (posts i) e) = false -> r = false /\ s' = s)).
Proof.
  intros Hflat.
  unfold ColorTrader.flip_position. unfold M.bind at 1.
  destruct (ct_get_current_price_cases w s i) as (price & E). rewrite E. clear E.
  destruct price as [current_price|].
  2:{ unfold M.ret. exists false, s, (io_after_mids i). split; [reflexivity|]. left.
      repeat split. }
  unfold M.try_except, M.bind at 1, M.get. rewrite Hflat. cbn [andb].
  unfold M.bind at 1. unfold M.ret at 1. cbn [negb].
  unfold M.bind at 1.
  destruct (ct_enter_position_cases w d current_price s (io_after_mids i))
    as (r & s' & i' & E & _ & Hcase).
  rewrite E. clear E.
  destruct Hcase as [(Hl & Hp & -> & ->)|(e & He & Hl & Hp & Hf)].
  - unfold M.ret. exists false, s, i'. split; [reflexivity|]. left.
    split; [reflexivity|]. split; [reflexivity|]. unfold history. rewrite Hl. reflexivity.
  - cbn [posts io_after_mids] in Hf.
    assert (Hh : history i' = (history i ++ [Mids; Post e])%list).
    { unfold history. rewrite Hl. cbn [log io_after_mids rev]. now rewrite <- app_assoc. }
    destruct r; unfold_monad.
    + eexists true, _, i'. split; [reflexivity|]. right. exists e.
      split; [exact He|]. split; [exact Hh|].
      intros Hn. destruct (Hf Hn) as [F _]. discriminate.
    + exists false, s', i'. split; [reflexivity|]. right. exists e.
      split; [exact He|]. split; [exact Hh|]. exact Hf.
Qed.

End PriceFeed.

(** ** Square roots of small integers in binary64 *)

Section BinaryDigits.

Lemma digits2_bounds p :
  2 ^ (Zpos (digits2_pos p) - 1) <= Zpos p < 2 ^ Zpos (digits2_pos p).
Proof.
  induction p as [p IH|p IH|]; cbn [digits2_pos].
  - rewrite Pos2Z.inj_succ. replace (Z.succ (Zpos (digits2_pos p)) - 1)
      with (Z.succ (Zpos (digits2_pos p) - 1)) by lia.
    rewrite !Z.pow_succ_r by lia. lia.
  - rewrite Pos2Z.inj_succ. replace (Z.succ (Zpos (digits2_pos p)) - 1)
      with (Z.succ (Zpos (digits2_pos p) - 1)) by lia.
    rewrite !Z.pow_succ_r by lia. lia.
  - cbn. lia.
Qed.

Lemma digits2_unique p d :
  2 ^ (d - 1) <= Zpos p < 2 ^ d -> Zpos (digits2_pos p) = d.
Proof.
  intros [H1 H2]. destruct (digits2_bounds p) as [H3 H4].
  set (d' := Zpos (digits2_pos p)) in *.
  assert (Hd' : 0 < d') by (unfold d'; lia).
  assert (Hd : 0 < d).
  { destruct (Z_lt_le_dec 0 d) as [|Hn]; [assumption|].
    assert (2 ^ d <= 1).
    { destruct (Z.eq_dec d 0) as [->|]; [cbn; lia|]. rewrite Z.pow_neg_r by lia. lia. }
    lia. }
  destruct (Z.lt_trichotomy d' d) as [Hlt|[Heq|Hgt]]; [|exact Heq|].
  - assert (2 ^ d' <= 2 ^ (d - 1)) by (apply Z.pow_le_mono_r; lia). lia.
  - assert (2 ^ d <= 2 ^ (d' - 1)) by (apply Z.pow_le_mono_r; lia). lia.
Qed.

End BinaryDigits.

Section Rounding.

Lemma shr_record_round_trip m l :
  shr_m (shr_record_of_loc m l) = m
  /\ loc_of_shr_record (shr_record_of_loc m l) = l.
Proof. destruct l as [|[]]; split; reflexivity. Qed.

Lemma fexp_53 e : -1074 <= e -> fexp 53 1024 (53 + e) - e = 0.
Proof. intros H. unfold fexp, emin. lia. Qed.

(** A mantissa of 53 digits is rounded in place. *)
Lemma shr_fexp_53 q e l :
  Zpos (digits2_pos q) = 53 -> -1074 <= e ->
  shr_fexp 53 1024 (Zpos q) e l = (shr_record_of_loc (Zpos q) l, e).
Proof.
  intros Hd He. unfold shr_fexp. cbn [Zdigits2]. rewrite Hd, (fexp_53 e He).
  reflexivity.
Qed.

Lemma binary_round_aux_53 q e l q' :
  Zpos (digits2_pos q) = 53 -> -1074 <= e <= 971 ->
  round_nearest_even (Zpos q) l = Zpos q' -> Zpos q' < 2 ^ 53 ->
  binary_round_aux 53 1024 false (Zpos q) e l = S754_finite false q' e.
Proof.
  intros Hd He Hq Hlt. unfold binary_round_aux.
  rewrite (shr_fexp_53 q e l Hd) by lia.
  destruct (shr_record_round_trip (Zpos q) l) as [-> ->]. rewrite Hq.
  assert (Hd' : Zpos (digits2_pos q') = 53).
  { apply digits2_unique. destruct (digits2_bounds q) as [H1 _]. rewrite Hd in H1.
    assert (Zpos q <= Zpos q').
    { rewrite <- Hq. destruct l as [|[]]; cbn [round_nearest_even]; try lia.
      destruct (Z.even (Zpos q)); lia. }
    change (53 - 1) with 52 in *. lia. }
  rewrite (shr_fexp_53 q' e loc_Exact Hd') by lia.
  cbn [shr_record_of_loc shr_m].
  replace (e <=? 1024 - 53) with true by (symmetry; apply Z.leb_le; lia).
  reflexivity.
Qed.

(** [float(n)] for a positive integer of at most 53 bits. *)
Lemma of_Z_shape p :
  let d := Zpos (digits2_pos p) in
  d <= 53 ->
  exists M,
    F.of_Z (Zpos p) = S754_finite false M (d - 53)
    /\ Zpos M = Zpos p * 2 ^ (53 - d)
    /\ Zpos (digits2_pos M) = 53.
Proof.
  intros d Hd. destruct (digits2_bounds p) as [H1 H2]. fold d in H1, H2.
  assert (Hd0 : 0 < d) by (unfold d; lia).
  unfold F.of_Z, binary_normalize, binary_round, shl_align. fold d.
  replace (fexp F.prec F.emax (d + 0) - 0) with (d - 53)
    by (unfold fexp, emin, F.prec, F.emax; lia).
  assert (Hshape : forall M, Zpos M = Zpos p * 2 ^ (53 - d) ->
                             Zpos (digits2_pos M) = 53).
  { intros M HM. apply digits2_unique. rewrite HM. change (53 - 1) with 52.
    assert (E52 : 2 ^ 52 = 2 ^ (d - 1) * 2 ^ (53 - d))
      by (rewrite <- Z.pow_add_r by lia; f_equal; lia).
    assert (E53 : 2 ^ 53 = 2 ^ d * 2 ^ (53 - d))
      by (rewrite <- Z.pow_add_r by lia; f_equal; lia).
    rewrite E52, E53. split.
    - apply Z.mul_le_mono_nonneg_r; [apply Z.pow_nonneg|]; lia.
    - apply Z.mul_lt_mono_pos_r; [apply Z.pow_pos_nonneg|]; lia. }
  destruct (d - 53) as [|k|k] eqn:Ek; [|lia|].
  - assert (HM : Zpos p = Zpos p * 2 ^ (53 - d)).
    { replace (53 - d) with 0 by lia. lia. }
    exists p. split; [|split; [exact HM|exact (Hshape p HM)]].
    replace (fexp F.prec F.emax (d + 0)) with 0
      by (unfold fexp, emin, F.prec, F.emax; lia).
    apply binary_round_aux_53; [exact (Hshape p HM)|lia|reflexivity|].
    replace d with 53 in H2 by lia. exact H2.
  - assert (HM : Zpos (Pos.iter xO p k) = Zpos p * 2 ^ (53 - d)).
    { change (Pos.iter xO p k) with (shift_pos k p).
      rewrite shift_pos_correct, Z.pow_pos_fold.
      replace (53 - d) with (Zpos k) by lia. lia. }
    exists (Pos.iter xO p k). split; [|split; [exact HM|exact (Hshape _ HM)]].
    replace (fexp F.prec F.emax (d + 0)) with (Zneg k)
      by (unfold fexp, emin, F.prec, F.emax; lia).
    apply binary_round_aux_53; [exact (Hshape _ HM)|lia|reflexivity|].
    destruct (digits2_bounds (Pos.iter xO p k)) as [_ H]. now rewrite (Hshape _ HM) in H.
Qed.

End Rounding.

Section SquareRoot.

Lemma round_up_fits q r m :
  0 <= q -> m = q * q + r -> 0 <= r <= 2 * q -> m <= 2 ^ 106 - 2 ^ 53 ->
  q < r -> q + 1 < 2 ^ 53.
Proof.
  intros Hq Hm Hr Hb Hqr.
  destruct (Z_lt_le_dec (q + 1) (2 ^ 53)) as [|Hge]; [assumption|exfalso].
  assert (H1 : (2 ^ 53 - 1) * (2 ^ 53 - 1) <= q * q) by (apply Z.mul_le_mono_nonneg; lia).
  change (2 ^ 106) with (2 ^ 53 * 2 ^ 53) in Hb. lia.
Qed.

(** The square root of a float with a 53-digit mantissa [M] and exponent
    [2h + b - 52]: the integer square root of [M * 2^(52+b)], rounded to
    nearest, at exponent [h - 52]. *)
Lemma sqrt_shape M h b :
  Zpos (digits2_pos M) = 53 -> 0 <= h <= 8 -> b = 0 \/ b = 1 ->
  exists Q,
    SFsqrt 53 1024 (S754_finite false M (2 * h + b - 52)) = S754_finite false Q (h - 52)
    /\ Z.sqrt (Zpos M * 2 ^ (52 + b)) <= Zpos Q <= Z.sqrt (Zpos M * 2 ^ (52 + b)) + 1
    /\ (Z.sqrt (Zpos M * 2 ^ (52 + b)) * Z.sqrt (Zpos M * 2 ^ (52 + b))
        = Zpos M * 2 ^ (52 + b) ->
        Zpos Q = Z.sqrt (Zpos M * 2 ^ (52 + b))).
Proof.
  intros Hd Hh Hb.
  destruct (digits2_bounds M) as [HM1 HM2]. rewrite Hd in HM1, HM2.
  change (53 - 1) with 52 in HM1.
  set (m' := Zpos M * 2 ^ (52 + b)).
  assert (Hm1 : 2 ^ 104 <= m').
  { unfold m'. change (2 ^ 104) with (2 ^ 52 * 2 ^ 52).
    apply Z.mul_le_mono_nonneg; try lia. apply Z.pow_le_mono_r; lia. }
  assert (Hm2 : m' <= 2 ^ 106 - 2 ^ 53).
  { unfold m'. assert (2 ^ (52 + b) <= 2 ^ 53) by (apply Z.pow_le_mono_r; lia).
    change (2 ^ 106) with (2 ^ 53 * 2 ^ 53).
    assert (Zpos M * 2 ^ (52 + b) <= (2 ^ 53 - 1) * 2 ^ 53)
      by (apply Z.mul_le_mono_nonneg; lia).
    lia. }
  assert (Hshift : Z.shiftl (Zpos M) (52 + b) = m')
    by (unfold m'; apply Z.shiftl_mul_pow2; lia).
  pose proof (Z.sqrtrem_spec m') as Hspec.
  pose proof (Z.sqrtrem_sqrt m') as Hsqrt.
  destruct (Z.sqrtrem m') as [q r] eqn:Eqr. cbn [fst] in Hsqrt.
  destruct Hspec as [Hmq Hr]; [lia|].
  assert (Hq1 : 2 ^ 52 <= q).
  { destruct (Z_lt_le_dec q (2 ^ 52)) as [Hlt|]; [exfalso|assumption].
    assert (q * q + r < 2 ^ 52 * 2 ^ 52) by nia.
    change (2 ^ 104) with (2 ^ 52 * 2 ^ 52) in Hm1. lia. }
  assert (Hq2 : q < 2 ^ 53).
  { destruct (Z_lt_le_dec q (2 ^ 53)) as [|Hge]; [assumption|exfalso].
    assert (2 ^ 53 * 2 ^ 53 <= q * q) by (apply Z.mul_le_mono_nonneg; lia).
    change (2 ^ 106) with (2 ^ 53 * 2 ^ 53) in Hm2. lia. }
  destruct q as [|qp|qp]; try lia.
  assert (Hdq : Zpos (digits2_pos qp) = 53)
    by (apply digits2_unique; change (53 - 1) with 52; lia).
  set (l := if r =? 0 then loc_Exact else loc_Inexact (if r <=? Zpos qp then Lt else Gt)).
  assert (Hround : exists Q,
             round_nearest_even (Zpos qp) l = Zpos Q /\ Zpos Q < 2 ^ 53
             /\ Zpos qp <= Zpos Q <= Zpos qp + 1
             /\ (r = 0 -> Q = qp)).
  { unfold l. destruct (r =? 0) eqn:E0.
    - exists qp. cbn. repeat split; lia.
    - apply Z.eqb_neq in E0. destruct (r <=? Zpos qp) eqn:E1.
      + exists qp. cbn. repeat split; lia.
      + apply Z.leb_gt in E1.
        assert (Hfit : Zpos qp + 1 < 2 ^ 53)
          by (apply (round_up_fits (Zpos qp) r m'); lia).
        exists (qp + 1)%positive. cbn [round_nearest_even].
        rewrite Pos2Z.inj_add. repeat split; lia. }
  destruct Hround as (Q & HQ & HQlt & HQb & HQe).
  exists Q. split; [|split].
  - assert (Hcore : forall e',
               (let '(mz, ez, lz) :=
                  let (q0, r0) := Z.sqrtrem (Z.shiftl (Zpos M) (52 + b)) in
                  (q0, e',
                   if r0 =? 0 then loc_Exact
                   else loc_Inexact (if r0 <=? q0 then Lt else Gt)) in
                binary_round_aux 53 1024 false mz ez lz)
               = binary_round_aux 53 1024 false (Zpos qp) e' l).
    { intros e'. rewrite Hshift, Eqr. reflexivity. }
    assert (Hres : binary_round_aux 53 1024 false (Zpos qp) (h - 52) l
                   = S754_finite false Q (h - 52))
      by (apply binary_round_aux_53; [exact Hdq|lia|exact HQ|exact HQlt]).
    rewrite <- Hres, <- Hcore.
    unfold SFsqrt, SFsqrt_core_binary. cbn [Zdigits2]. rewrite Hd.
    assert (Hcases : (h = 0 \/ h = 1 \/ h = 2 \/ h = 3 \/ h = 4 \/ h = 5 \/ h = 6
                      \/ h = 7 \/ h = 8)) by lia.
    destruct Hb as [-> | ->];
      repeat (destruct Hcases as [-> | Hcases]); try subst h; reflexivity.
  - rewrite <- Hsqrt. exact HQb.
  - intros Hsq. rewrite <- Hsqrt in *.
    assert (r = 0) by lia. rewrite (HQe H). reflexivity.
Qed.

(** The square root of a small integer: exponent and mantissa. *)
Lemma sq_shape n :
  1 <= n < 2 ^ 18 ->
  exists h Q,
    0 <= h <= 8 /\ 2 ^ (2 * h) <= n < 2 ^ (2 * h + 2)
    /\ SFsqrt F.prec F.emax (F.of_Z n) = S754_finite false Q (h - 52)
    /\ Z.sqrt (n * 2 ^ (104 - 2 * h)) <= Zpos Q <= Z.sqrt (n * 2 ^ (104 - 2 * h)) + 1
    /\ (Z.sqrt (n * 2 ^ (104 - 2 * h)) * Z.sqrt (n * 2 ^ (104 - 2 * h))
        = n * 2 ^ (104 - 2 * h) ->
        Zpos Q = Z.sqrt (n * 2 ^ (104 - 2 * h))).
Proof.
  intros Hn. destruct n as [|p|p]; try lia.
  destruct (digits2_bounds p) as [H1 H2].
  set (d := Zpos (digits2_pos p)) in *.
  assert (Hd0 : 0 < d) by (unfold d; lia).
  assert (Hd18 : d <= 18).
  { destruct (Z_le_gt_dec d 18) as [|Hgt]; [assumption|exfalso].
    assert (2 ^ 18 <= 2 ^ (d - 1)) by (apply Z.pow_le_mono_r; lia). lia. }
  destruct (of_Z_shape p) as (M & HofZ & HM & HdM); [fold d; lia|]. fold d in HofZ, HM.
  set (h := (d - 1) / 2). set (b := d - 1 - 2 * h).
  assert (Hhb : 0 <= h <= 8 /\ (b = 0 \/ b = 1)).
  { unfold b, h. pose proof (Z.div_mod (d - 1) 2 ltac:(lia)) as Hdm.
    pose proof (Z.mod_pos_bound (d - 1) 2 ltac:(lia)) as Hmb. lia. }
  destruct Hhb as [Hh Hb].
  destruct (sqrt_shape M h b HdM Hh Hb) as (Q & HQ & HQb & HQe).
  assert (Hexp : 2 * h + b - 52 = d - 53) by (unfold b; lia).
  assert (Hm : Zpos M * 2 ^ (52 + b) = Zpos p * 2 ^ (104 - 2 * h)).
  { rewrite HM, <- Z.mul_assoc, <- Z.pow_add_r by lia. do 2 f_equal. unfold b. lia. }
  rewrite Hm in HQb, HQe. rewrite Hexp, <- HofZ in HQ.
  exists h, Q. repeat split; try lia; try assumption.
  - apply Z.le_trans with (2 ^ (d - 1)); [|lia]. apply Z.pow_le_mono_r; lia.
  - apply Z.lt_le_trans with (2 ^ d); [lia|]. apply Z.pow_le_mono_r; lia.
Qed.

Lemma sq_zero : SFsqrt F.prec F.emax (F.of_Z 0) = S754_zero false.
Proof. reflexivity. Qed.

Lemma sqrt_gap K a b :
  2 ^ 88 <= K -> 0 <= a < b -> a * K < 2 ^ 106 ->
  Z.sqrt (a * K) + 1 < Z.sqrt (b * K).
Proof.
  intros HK Hab Ha.
  assert (HaK : 0 <= a * K) by nia.
  assert (HbK : 0 <= b * K) by nia.
  pose proof (Z.sqrt_spec (a * K) HaK) as [Ha1 Ha2].
  pose proof (Z.sqrt_spec (b * K) HbK) as [Hb1 Hb2].
  pose proof (Z.sqrt_nonneg (a * K)) as Hqa.
  pose proof (Z.sqrt_nonneg (b * K)) as Hqb.
  set (qa := Z.sqrt (a * K)) in *. set (qb := Z.sqrt (b * K)) in *.
  assert (Hqa53 : qa < 2 ^ 53).
  { destruct (Z_lt_le_dec qa (2 ^ 53)) as [|Hge]; [assumption|exfalso].
    assert (2 ^ 53 * 2 ^ 53 <= qa * qa) by (apply Z.mul_le_mono_nonneg; lia).
    change (2 ^ 106) with (2 ^ 53 * 2 ^ 53) in Ha. lia. }
  destruct (Z_lt_le_dec (qa + 1) qb) as [|Hle]; [assumption|exfalso].
  assert (Hsq : Z.succ qb * Z.succ qb <= (qa + 2) * (qa + 2))
    by (apply Z.mul_le_mono_nonneg; lia).
  assert (Hstep : a * K + K <= b * K) by nia.
  assert (Hbig : 2 ^ 88 > 4 * 2 ^ 53 + 4) by reflexivity.
  nia.
Qed.

Lemma SFltb_finite m1 e1 m2 e2 :
  SFltb (S754_finite false m1 e1) (S754_finite false m2 e2)
  = (e1 <? e2) || ((e1 =? e2) && (Zpos m1 <? Zpos m2)).
Proof.
  unfold SFltb. cbn [SFcompare].
  destruct (Z.compare_spec e1 e2) as [->|Hlt|Hgt].
  - rewrite Z.ltb_irrefl, Z.eqb_refl. cbn [orb andb].
    unfold Z.ltb, Z.compare, Pos.compare.
    destruct (Pos.compare_cont Eq m1 m2); reflexivity.
  - apply Z.ltb_lt in Hlt. rewrite Hlt. reflexivity.
  - assert (E1 : (e1 <? e2) = false) by (apply Z.ltb_ge; lia).
    assert (E2 : (e1 =? e2) = false) by (apply Z.eqb_neq; lia).
    rewrite E1, E2. reflexivity.
Qed.

Lemma SFleb_finite m1 e1 m2 e2 :
  SFleb (S754_finite false m1 e1) (S754_finite false m2 e2)
  = (e1 <? e2) || ((e1 =? e2) && (Zpos m1 <=? Zpos m2)).
Proof.
  unfold SFleb. cbn [SFcompare].
  destruct (Z.compare_spec e1 e2) as [->|Hlt|Hgt].
  - rewrite Z.ltb_irrefl, Z.eqb_refl. cbn [orb andb].
    unfold Z.leb, Z.compare, Pos.compare.
    destruct (Pos.compare_cont Eq m1 m2); reflexivity.
  - apply Z.ltb_lt in Hlt. rewrite Hlt. reflexivity.
  - assert (E1 : (e1 <? e2) = false) by (apply Z.ltb_ge; lia).
    assert (E2 : (e1 =? e2) = false) by (apply Z.eqb_neq; lia).
    rewrite E1, E2. reflexivity.
Qed.

(** Square roots of small integers are strictly ordered like the integers. *)
Lemma sq_lt a b :
  1 <= a < b -> b < 2 ^ 18 ->
  exists Qa ea Qb eb,
    SFsqrt F.prec F.emax (F.of_Z a) = S754_finite false Qa ea
    /\ SFsqrt F.prec F.emax (F.of_Z b) = S754_finite false Qb eb
    /\ (ea < eb \/ (ea = eb /\ Zpos Qa < Zpos Qb)).
Proof.
  intros Hab Hb.
  destruct (sq_shape a) as (ha & Qa & Hha & Hra & Ea & Hqa & _); [lia|].
  destruct (sq_shape b) as (hb & Qb & Hhb & Hrb & Eb & Hqb & _); [lia|].
  exists Qa, (ha - 52), Qb, (hb - 52). split; [exact Ea|split; [exact Eb|]].
  destruct (Z.lt_trichotomy ha hb) as [Hlt|[Heq|Hgt]].
  - left. lia.
  - right. split; [lia|]. subst hb.
    set (K := 2 ^ (104 - 2 * ha)) in *.
    assert (HK : 2 ^ 88 <= K) by (apply Z.pow_le_mono_r; lia).
    assert (HaK : a * K < 2 ^ 106).
    { replace (2 ^ 106) with (2 ^ (2 * ha + 2) * K)
        by (unfold K; rewrite <- Z.pow_add_r by lia; f_equal; lia).
      apply Z.mul_lt_mono_pos_r; lia. }
    pose proof (sqrt_gap K a b HK ltac:(lia) HaK). lia.
  - exfalso.
    assert (2 ^ (2 * hb + 2) <= 2 ^ (2 * ha)) by (apply Z.pow_le_mono_r; lia). lia.
Qed.

Lemma sq_ltb a b :
  0 <= a < 2 ^ 18 -> 0 <= b < 2 ^ 18 ->
  F.ltb (SFsqrt F.prec F.emax (F.of_Z a)) (SFsqrt F.prec F.emax (F.of_Z b)) = (a <? b).
Proof.
  intros Ha Hb. unfold F.ltb.
  destruct (Z.eq_dec a 0) as [->|Ha0]; [|destruct (Z.eq_dec b 0) as [->|Hb0]].
  - rewrite sq_zero. destruct (Z.eq_dec b 0) as [->|Hb0]; [reflexivity|].
    destruct (sq_shape b) as (hb & Qb & _ & _ & Eb & _); [lia|]. rewrite Eb.
    symmetry. apply Z.ltb_lt. lia.
  - rewrite sq_zero.
    destruct (sq_shape a) as (ha & Qa & _ & _ & Ea & _); [lia|]. rewrite Ea.
    symmetry. apply Z.ltb_ge. lia.
  - destruct (Z.lt_trichotomy a b) as [Hlt|[Heq|Hgt]].
    + destruct (sq_lt a b) as (Qa & ea & Qb & eb & Ea & Eb & Hord); [lia|lia|].
      rewrite Ea, Eb, SFltb_finite.
      assert (E : (a <? b) = true) by (apply Z.ltb_lt; lia). rewrite E.
      destruct Hord as [H|[-> H]].
      * apply Z.ltb_lt in H. rewrite H. reflexivity.
      * rewrite Z.eqb_refl. apply Z.ltb_lt in H. rewrite H. apply orb_true_r.
    + subst b. rewrite Z.ltb_irrefl.
      destruct (sq_shape a) as (ha & Qa & _ & _ & Ea & _); [lia|].
      rewrite Ea, SFltb_finite, !Z.ltb_irrefl, andb_false_r. reflexivity.
    + destruct (sq_lt b a) as (Qb & eb & Qa & ea & Eb & Ea & Hord); [lia|lia|].
      rewrite Ea, Eb, SFltb_finite.
      assert (E : (a <? b) = false) by (apply Z.ltb_ge; lia). rewrite E.
      destruct Hord as [H|[-> H]].
      * assert (E1 : (ea <? eb) = false) by (apply Z.ltb_ge; lia).
        assert (E2 : (ea =? eb) = false) by (apply Z.eqb_neq; lia).
        rewrite E1, E2. reflexivity.
      * rewrite Z.ltb_irrefl, Z.eqb_refl.
        assert (E1 : (Zpos Qa <? Zpos Qb) = false) by (apply Z.ltb_ge; lia).
        rewrite E1. reflexivity.
Qed.

Lemma sq_leb a b :
  0 <= a < 2 ^ 18 -> 0 <= b < 2 ^ 18 ->
  F.leb (SFsqrt F.prec F.emax (F.of_Z a)) (SFsqrt F.prec F.emax (F.of_Z b)) = (a <=? b).
Proof.
  intros Ha Hb. unfold F.leb.
  destruct (Z.eq_dec a 0) as [->|Ha0]; [|destruct (Z.eq_dec b 0) as [->|Hb0]].
  - rewrite sq_zero. destruct (Z.eq_dec b 0) as [->|Hb0]; [reflexivity|].
    destruct (sq_shape b) as (hb & Qb & _ & _ & Eb & _); [lia|]. rewrite Eb.
    symmetry. apply Z.leb_le. lia.
  - rewrite sq_zero.
    destruct (sq_shape a) as (ha & Qa & _ & _ & Ea & _); [lia|]. rewrite Ea.
    symmetry. apply Z.leb_gt. lia.
  - destruct (Z.lt_trichotomy a b) as [Hlt|[Heq|Hgt]].
    + destruct (sq_lt a b) as (Qa & ea & Qb & eb & Ea & Eb & Hord); [lia|lia|].
      rewrite Ea, Eb, SFleb_finite.
      assert (E : (a <=? b) = true) by (apply Z.leb_le; lia). rewrite E.
      destruct Hord as [H|[-> H]].
      * apply Z.ltb_lt in H. rewrite H. reflexivity.
      * rewrite Z.eqb_refl.
        assert (E1 : (Zpos Qa <=? Zpos Qb) = true) by (apply Z.leb_le; lia).
        rewrite E1. apply orb_true_r.
    + subst b. rewrite Z.leb_refl.
      destruct (sq_shape a) as (ha & Qa & _ & _ & Ea & _); [lia|].
      rewrite Ea, SFleb_finite, Z.eqb_refl, Z.leb_refl. apply orb_true_r.
    + destruct (sq_lt b a) as (Qb & eb & Qa & ea & Eb & Ea & Hord); [lia|lia|].
      rewrite Ea, Eb, SFleb_finite.
      assert (E : (a <=? b) = false) by (apply Z.leb_gt; lia). rewrite E.
      destruct Hord as [H|[-> H]].
      * assert (E1 : (ea <? eb) = false) by (apply Z.ltb_ge; lia).
        assert (E2 : (ea =? eb) = false) by (apply Z.eqb_neq; lia).
        rewrite E1, E2. reflexivity.
      * rewrite Z.ltb_irrefl, Z.eqb_refl.
        assert (E1 : (Zpos Qa <=? Zpos Qb) = false) by (apply Z.leb_gt; lia).
        rewrite E1. reflexivity.
Qed.

(** The square root of a perfect square is the float of its root. *)
Lemma sq_square t :
  0 <= t < 2 ^ 9 -> SFsqrt F.prec F.emax (F.of_Z (t * t)) = F.of_Z t.
Proof.
  intros Ht. destruct t as [|p|p]; [reflexivity| |lia].
  assert (Hn : 1 <= Zpos p * Zpos p < 2 ^ 18).
  { change (2 ^ 18) with (2 ^ 9 * 2 ^ 9). nia. }
  destruct (sq_shape (Zpos p * Zpos p) Hn) as (h & Q & Hh & Hr & E & _ & Hex).
  rewrite E.
  destruct (digits2_bounds p) as [H1 H2].
  set (d := Zpos (digits2_pos p)) in *.
  assert (Hd0 : 0 < d) by (unfold d; lia).
  assert (Hd9 : d <= 9).
  { destruct (Z_le_gt_dec d 9) as [|Hgt]; [assumption|exfalso].
    assert (2 ^ 9 <= 2 ^ (d - 1)) by (apply Z.pow_le_mono_r; lia). lia. }
  destruct (of_Z_shape p) as (M & HofZ & HM & HdM); [fold d; lia|]. fold d in HofZ, HM.
  assert (Hhd : h = d - 1).
  { assert (Hlo : 2 ^ (2 * (d - 1)) <= Zpos p * Zpos p).
    { replace (2 * (d - 1)) with ((d - 1) + (d - 1)) by lia.
      rewrite Z.pow_add_r by lia. apply Z.mul_le_mono_nonneg; lia. }
    assert (Hhi : Zpos p * Zpos p < 2 ^ (2 * d)).
    { replace (2 * d) with (d + d) by lia.
      rewrite Z.pow_add_r by lia. apply Z.mul_lt_mono_nonneg; lia. }
    destruct (Z.lt_trichotomy h (d - 1)) as [Hlt|[Heq|Hgt]]; [exfalso|assumption|exfalso].
    - assert (2 ^ (2 * h + 2) <= 2 ^ (2 * (d - 1))) by (apply Z.pow_le_mono_r; lia). lia.
    - assert (2 ^ (2 * d) <= 2 ^ (2 * h)) by (apply Z.pow_le_mono_r; lia). lia. }
  assert (Hroot : Z.sqrt (Zpos p * Zpos p * 2 ^ (104 - 2 * h)) = Zpos p * 2 ^ (52 - h)).
  { replace (Zpos p * Zpos p * 2 ^ (104 - 2 * h))
      with ((Zpos p * 2 ^ (52 - h)) * (Zpos p * 2 ^ (52 - h))).
    - apply Z.sqrt_square. apply Z.mul_nonneg_nonneg; [lia|apply Z.pow_nonneg; lia].
    - replace (104 - 2 * h) with ((52 - h) + (52 - h)) by lia.
      rewrite Z.pow_add_r by lia. ring. }
  assert (HQ : Zpos Q = Zpos M).
  { rewrite Hex, Hroot, HM; [do 2 f_equal; lia|].
    rewrite Hroot. replace (104 - 2 * h) with ((52 - h) + (52 - h)) by lia.
    rewrite Z.pow_add_r by lia. ring. }
  rewrite HofZ. injection HQ as ->. f_equal. lia.
Qed.

Lemma sq_leb_int a t :
  0 <= a < 2 ^ 18 -> 0 <= t < 2 ^ 9 ->
  F.leb (SFsqrt F.prec F.emax (F.of_Z a)) (F.of_Z t) = (a <=? t * t).
Proof.
  intros Ha Ht. rewrite <- (sq_square t Ht). apply sq_leb; [exact Ha|].
  change (2 ^ 18) with (2 ^ 9 * 2 ^ 9). nia.
Qed.

End SquareRoot.

(** ** From a colour to a signal *)

Section ColourSignal.

Import ColorSignal.

Lemma channel_bounds x : channel x = true -> 0 <= x <= 255.
Proof. unfold channel. intros H. apply andb_prop in H as [H1 H2]. lia. Qed.

Lemma in_gamut_bounds r g b :
  in_gamut (r, g, b) = true -> 0 <= r <= 255 /\ 0 <= g <= 255 /\ 0 <= b <= 255.
Proof.
  unfold in_gamut. intros H. apply andb_prop in H as [H Hb].
  apply andb_prop in H as [Hr Hg].
  repeat split; apply channel_bounds; assumption.
Qed.

Lemma squared_distance_bounds c1 c2 :
  in_gamut c1 = true -> in_gamut c2 = true ->
  0 <= squared_distance c1 c2 < 2 ^ 18.
Proof.
  destruct c1 as [[r1 g1] b1], c2 as [[r2 g2] b2]. intros H1 H2.
  apply in_gamut_bounds in H1, H2. unfold squared_distance.
  rewrite !Z.pow_2_r.
  assert (Hsq : forall x y, 0 <= x <= 255 -> 0 <= y <= 255 ->
                            0 <= (x - y) * (x - y) <= 65025).
  { intros x y Hx Hy. split; [apply Z.square_nonneg|].
    change 65025 with (255 * 255).
    destruct (Z_le_gt_dec 0 (x - y)).
    - apply Z.mul_le_mono_nonneg; lia.
    - replace ((x - y) * (x - y)) with ((y - x) * (y - x)) by ring.
      apply Z.mul_le_mono_nonneg; lia. }
  pose proof (Hsq r1 r2 ltac:(lia) ltac:(lia)).
  pose proof (Hsq g1 g2 ltac:(lia) ltac:(lia)).
  pose proof (Hsq b1 b2 ltac:(lia) ltac:(lia)).
  change (2 ^ 18) with 262144. lia.
Qed.

(** Property X19.  For colours with 8-bit channels and an integer tolerance below 512,
    the binary64 square roots of [detect_color_signal] decide as the
    integers do: LONG when the squared distance to the green target is at
    most the squared tolerance and below the squared distance to the red
    target, SHORT in the mirrored case, no signal otherwise.  No rounding
    of a square root changes a decision. *)
Theorem detect_signal_compares_squared_distances green red tolerance c :
  in_gamut green = true -> in_gamut red = true -> in_gamut c = true ->
  0 <= tolerance < 512 ->
  detect_signal green red tolerance c
  = (let dg := squared_distance c green in
     let dr := squared_distance c red in
     if (dg <=? tolerance * tolerance) && (dg <? dr) then Some LONG
     else if (dr <=? tolerance * tolerance) && (dr <? dg) then Some SHORT
     else None).
Proof.
  intros Hg Hr Hc Ht.
  pose proof (squared_distance_bounds c green Hc Hg) as Bg.
  pose proof (squared_distance_bounds c red Hc Hr) as Br.
  unfold detect_signal, color_distance. cbv zeta.
  rewrite !sq_leb_int, !sq_ltb by (assumption || (change (2 ^ 9) with 512; lia)).
  reflexivity.
Qed.

Lemma targets_apart c :
  squared_distance c green_target <= 6400 ->
  squared_distance c red_target <= 6400 -> False.
Proof.
  destruct c as [[r g] b]. unfold squared_distance, green_target, red_target.
  rewrite !Z.pow_2_r. intros H1 H2.
  pose proof (Z.square_nonneg (2 * r - 317)).
  pose proof (Z.square_nonneg (2 * g - 322)).
  pose proof (Z.square_nonneg (2 * b - 145)).
  nia.
Qed.

(** Property X20.  With the targets and the tolerance of the bot, a colour with 8-bit
    channels reads LONG exactly within distance 80 of the green target,
    SHORT exactly within distance 80 of the red target, and gives no signal
    elsewhere: the two balls are disjoint, so the comparison of the two
    distances never decides. *)
Theorem detect_color_signal_by_nearest_target c :
  in_gamut c = true ->
  detect_color_signal c
  = if squared_distance c green_target <=? 6400 then Some LONG
    else if squared_distance c red_target <=? 6400 then Some SHORT
    else None.
Proof.
  intros Hc.
  pose proof (squared_distance_bounds c green_target Hc eq_refl) as Bg.
  pose proof (squared_distance_bounds c red_target Hc eq_refl) as Br.
  unfold detect_color_signal, detect_signal, color_distance, color_tolerance.
  cbv zeta.
  rewrite !sq_leb_int, !sq_ltb by (assumption || (change (2 ^ 9) with 512; lia)).
  change (80 * 80) with 6400.
  pose proof (targets_apart c) as Hapart.
  destruct (squared_distance c green_target <=? 6400) eqn:Eg;
    destruct (squared_distance c red_target <=? 6400) eqn:Er;
    cbn [andb]; try reflexivity.
  - apply Z.leb_le in Eg, Er. exfalso. auto.
  - apply Z.leb_le in Eg. apply Z.leb_gt in Er.
    assert (E : (squared_distance c green_target <? squared_distance c red_target) = true)
      by (apply Z.ltb_lt; lia).
    rewrite E. reflexivity.
  - apply Z.leb_le in Er. apply Z.leb_gt in Eg.
    assert (E : (squared_distance c red_target <? squared_distance c green_target) = true)
      by (apply Z.ltb_lt; lia).
    rewrite E. reflexivity.
Qed.

End ColourSignal.

(** ** Market data *)

Section MarketData.

Context {account : Account}.
Variable w : world.
Variable fsum : list F.float -> F.float.

Local Open Scope string_scope.

Lemma analyze_orderbook_returns data s i :
  exists s' i', Book.analyze_orderbook w fsum data s i = (Val tt, s', i').
Proof.
  destruct (analyze_orderbook_cases w fsum data s i) as [H|(b & r & s2 & i2 & _ & _ & H)];
    rewrite H; eauto.
Qed.

(** Property X21.  [process_market_data].  An [l2Book] message that holds [data] always
    returns normally: a malformed book is swallowed by [analyze_orderbook].
    A [trades] message whose first trade lacks [sz] or [px] raises out of
    the function with nothing changed, and so does, with KeyError, an
    [l2Book] or [trades] message without [data].  Any other message
    changes nothing. *)
Theorem market_data_error_handling (kv : list (string * pyval)) (s : Book.state) (i : io) :
  (forall d,
      Py.lookup "channel" kv = Some (PStr "l2Book") -> Py.lookup "data" kv = Some d ->
      exists s' i', Book.process_market_data w fsum (PDict kv) s i = (Val tt, s', i'))
  /\ (forall trade rest,
         Py.lookup "channel" kv = Some (PStr "trades") ->
         Py.lookup "data" kv = Some (PList (PDict trade :: rest)) ->
         Py.lookup "sz" trade = None \/ Py.lookup "px" trade = None ->
         exists e, Book.process_market_data w fsum (PDict kv) s i = (Exc e, s, i))
  /\ (Py.lookup "channel" kv = Some (PStr "l2Book")
      \/ Py.lookup "channel" kv = Some (PStr "trades") ->
      Py.lookup "data" kv = None ->
      Book.process_market_data w fsum (PDict kv) s i = (Exc KeyError, s, i))
  /\ (match Py.lookup "channel" kv with
      | Some c => Py.is_str "l2Book" c = false /\ Py.is_str "trades" c = false
      | None => True
      end ->
      Book.process_market_data w fsum (PDict kv) s i = (Val tt, s, i)).
Proof.
  unfold Book.process_market_data. unfold_monad. cbn [Py.get Py.item].
  repeat split.
  - intros d Hc Hd. rewrite Hc, Hd. cbn. apply analyze_orderbook_returns.
  - intros trade rest Hc Hd Hbad. rewrite Hc, Hd. cbn.
    unfold Book.update_volume. unfold_monad. cbn.
    destruct (Py.lookup "sz" trade) as [sz|] eqn:Esz; [|eexists; reflexivity].
    destruct Hbad as [Hbad|Hbad]; [discriminate|]. rewrite Hbad. cbn.
    destruct (Py.to_float sz); eexists; reflexivity.
  - intros [Hc|Hc] Hd; rewrite Hc, Hd; reflexivity.
  - destruct (Py.lookup "channel" kv) as [c|]; [|reflexivity].
    intros [H1 H2]. rewrite H1, H2. reflexivity.
Qed.

End MarketData.

(** ** Examples *)

(** Property X19, on the bot's targets and a colour near the green one. *)
Lemma detect_signal_compares_squared_distances_sample :
  let c := (80, 170, 90) in
  ColorSignal.in_gamut ColorSignal.green_target = true
  /\ ColorSignal.in_gamut ColorSignal.red_target = true
  /\ ColorSignal.in_gamut c = true
  /\ 0 <= 80 < 512
  /\ ColorSignal.detect_signal ColorSignal.green_target ColorSignal.red_target 80 c
     = Some LONG.
Proof.
  intros c. split; [reflexivity|]. split; [reflexivity|]. split; [reflexivity|].
  split; [lia|].
  exact (detect_signal_compares_squared_distances
           ColorSignal.green_target ColorSignal.red_target 80 c
           eq_refl eq_refl eq_refl ltac:(lia)).
Defined.

(** Property X20, on the neutral colour the bot falls back to. *)
Lemma detect_color_signal_by_nearest_target_sample :
  ColorSignal.in_gamut (128, 128, 128) = true
  /\ ColorSignal.detect_color_signal (128, 128, 128) = None.
Proof.
  split; [reflexivity|].
  exact (detect_color_signal_by_nearest_target (128, 128, 128) eq_refl).
Defined.

(** Property X1, on a trader still long after a failed flip, when the screen turns
    green again. *)
Lemma tick_records_signal_whatever_the_flip_sample :
  let w := Fixture.scene 3 [] [Some (Some LONG)] in
  let s := Scenes.long_after_failed_flip in
  F.geb (F.sub (clock w (clock_reads io_start)) (ColorTrader.last_signal_time s))
        ColorTrader.signal_cooldown = true
  /\ screen w (captures io_start) = Some (Some LONG)
  /\ ColorTrader.same_signal LONG (ColorTrader.current_signal s) = false
  /\ ColorTrader.holds (ColorTrader.lower LONG) (ColorTrader.current_position s) = true
  /\ exists s' i',
      ColorTrader.tick (account := Fixture.account) w s io_start = (Val tt, s', i')
      /\ ColorTrader.current_signal s' = Some LONG
      /\ ColorTrader.last_signal_time s' = clock w (clock_reads io_start)
      /\ (ColorTrader.holds (ColorTrader.lower LONG) (ColorTrader.current_position s) = true ->
          posts i' = posts io_start /\ ct_same_position s s').
Proof.
  intros w s.
  assert (Hc : F.geb (F.sub (clock w (clock_reads io_start)) (ColorTrader.last_signal_time s))
                     ColorTrader.signal_cooldown = true) by (vm_compute; reflexivity).
  split; [exact Hc|]. split; [reflexivity|]. split; [reflexivity|]. split; [reflexivity|].
  exact (tick_records_signal_whatever_the_flip (account := Fixture.account) w s io_start LONG
           Hc eq_refl eq_refl).
Defined.

(** Property X2, on a trader left flat by a failed entry while the screen stays
    green. *)
Lemma tick_known_signal_is_idle_sample :
  let w := Fixture.scene 3 [] [Some (Some LONG)] in
  let s := Scenes.flat_after_failed_entry in
  screen w (captures io_start) = Some (Some LONG)
  /\ ColorTrader.current_signal s = Some LONG
  /\ ColorTrader.position_open s = false
  /\ exists s' i',
      ColorTrader.tick (account := Fixture.account) w s io_start = (Val tt, s', i')
      /\ ct_same_position s s'
      /\ ColorTrader.current_signal s' = Some LONG
      /\ posts i' = posts io_start
      /\ mids_calls i' = mids_calls io_start
      /\ log i' = Sleep Lit.f0_5 :: log io_start.
Proof.
  intros w s. split; [reflexivity|]. split; [reflexivity|]. split; [reflexivity|].
  exact (tick_known_signal_is_idle (account := Fixture.account) w s io_start LONG
           eq_refl eq_refl).
Defined.

(** Property X4, on a grouped entry whose three orders are left resting. *)
Lemma unfilled_entry_is_dropped_at_time_stop_sample :
  let ex := fun (_ : nat) (_ : pyval) =>
              Fixture.accepted [Fixture.resting; Fixture.resting; Fixture.resting] in
  let w := Fixture.resting_world in
  let kv := [("resting", PDict [("oid", PInt 77738309)])]%string in
  (forall p, ex (posts io_start) p
             = HttpReply 200 (Some (ok_body (PDict kv :: [Fixture.resting; Fixture.resting]))))
  /\ Py.lookup "error" kv = None
  /\ Py.lookup "filled" kv = None
  /\ Py.truthy (Hunter.entry_order_data Hunter.initial) = false
  /\ exists s' i',
      Hunter.enter_position (account := Fixture.account) (with_exchange w ex) long
        Fixture.book Hunter.initial io_start = (Val tt, s', i')
      /\ ((posts i' = posts io_start /\ s' = Hunter.initial)
          \/ (posts i' = S (posts io_start)
              /\ Hunter.position_open s' = true
              /\ exists t0,
                  Hunter.entry_time s' = Some t0
                  /\ forall j,
                      F.gtb (F.sub (clock w (clock_reads j)) t0) Hunter.time_stop_seconds
                      = true ->
                      Hunter.manage_position (account := Fixture.account)
                        (with_exchange w ex) s' j
                      = (Val tt, Hunter.initial, io_after_read j))).
Proof.
  intros ex w kv.
  assert (Hex : forall p, ex (posts io_start) p
                          = HttpReply 200
                              (Some (ok_body (PDict kv :: [Fixture.resting; Fixture.resting]))))
    by (intros p; reflexivity).
  split; [exact Hex|]. split; [reflexivity|]. split; [reflexivity|]. split; [reflexivity|].
  exact (unfilled_entry_is_dropped_at_time_stop (account := Fixture.account) w long
           Fixture.book Hunter.initial io_start kv [Fixture.resting; Fixture.resting] ex
           Hex eq_refl eq_refl eq_refl).
Defined.

(** Property X6, on the sample order: a nonce of 2^64, the vault address of the
    fixture, and that address with one digit more. *)
Lemma hash_action_refusals_sample :
  Msgpack.packb Fixture.sample_action = Val Fixture.sample_packed
  /\ Scalper.hash_action Fixture.sample_action (Some Fixture.vault) (2 ^ 64)
     = Exc OverflowError
  /\ Scalper.hash_action Fixture.sample_action (Some Fixture.vault) 1762176000123
     = Val (Keccak.keccak
              (Fixture.sample_packed ++ Py.be_bytes 8 1762176000123
                 ++ 1 :: Fixture.vault_bytes))
  /\ Scalper.hash_action Fixture.sample_action
       (Some "0x1234567890abcdefABCDEF001122334455667788a"%string) 1762176000123
     = Exc ValueError.
Proof.
  assert (Hp : Msgpack.packb Fixture.sample_action = Val Fixture.sample_packed)
    by (vm_compute; reflexivity).
  assert (Hh : hex_pairs (Text.chars "1234567890abcdefABCDEF001122334455667788")
                         Fixture.vault_bytes)
    by (vm_compute; repeat hex_pair).
  split; [exact Hp|]. split; [|split].
  - exact (proj1 (hash_action_refusals Fixture.sample_action (2 ^ 64) Fixture.sample_packed Hp)
             (Some Fixture.vault) (or_intror (Z.le_refl _))).
  - exact (proj1 (proj2 (hash_action_refusals Fixture.sample_action 1762176000123
                           Fixture.sample_packed Hp))
             ltac:(lia) _ _ Fixture.vault Hh (or_introl eq_refl)).
  - exact (proj2 (proj2 (hash_action_refusals Fixture.sample_action 1762176000123
                           Fixture.sample_packed Hp))
             ltac:(lia) _ _ "a"%char 10
             "0x1234567890abcdefABCDEF001122334455667788a"%string
             Hh eq_refl (or_introl eq_refl)).
Defined.

(** Property X7, on [-4e-13]. *)
Lemma round_float_keeps_minus_zero_sample :
  let x := F.of_decimal true 4 (-13) in
  F.is_finite x = true
  /\ F.sign_bit x = true
  /\ F.scaled 8 x = 0%N
  /\ F.geb (F.abs (F.sub (S754_zero true) x)) Lit.f1e_12 = false
  /\ String.eqb (F.format_fixed 8 x) "-0" = false
  /\ Scalper.round_float x = Val "-0"%string.
Proof.
  intros x.
  assert (H1 : F.is_finite x = true) by (vm_compute; reflexivity).
  assert (H2 : F.sign_bit x = true) by (vm_compute; reflexivity).
  assert (H3 : F.scaled 8 x = 0%N) by (vm_compute; reflexivity).
  assert (H4 : F.geb (F.abs (F.sub (S754_zero true) x)) Lit.f1e_12 = false)
    by (vm_compute; reflexivity).
  split; [exact H1|]. split; [exact H2|]. split; [exact H3|]. split; [exact H4|].
  exact (round_float_keeps_minus_zero x H1 H2 H3 H4).
Defined.


(** Property X13, on the first order book a hunter without history receives, four
    times as heavy on the bid. *)
Lemma no_entry_before_thirty_snapshots_sample :
  let w := Fixture.clean_world in
  Hunter.position_open (Book.core Book.initial) = false
  /\ (List.length (Book.orderbook_history Book.initial) < 29)%nat
  /\ exists s' i',
      Book.analyze_orderbook (account := Fixture.account) w Scenes.fold_sum
        Scenes.l2_book Book.initial io_start = (Val tt, s', i')
      /\ Book.core s' = Book.core Book.initial
      /\ posts i' = posts io_start
      /\ log i' = log io_start.
Proof.
  intros w.
  assert (Hn : (List.length (Book.orderbook_history Book.initial) < 29)%nat)
    by (cbn; lia).
  split; [reflexivity|]. split; [exact Hn|].
  exact (no_entry_before_thirty_snapshots (account := Fixture.account) w Scenes.fold_sum
           Scenes.l2_book Book.initial io_start eq_refl Hn).
Defined.

(** Property X14, on the hunter holding the long of the fixture. *)
Lemma open_position_is_only_managed_sample :
  let w := Fixture.hunter_world in
  Hunter.position_open (Book.core Scenes.managing) = true
  /\ exists r s' i' new,
      Book.check_entry_conditions (account := Fixture.account) w Scenes.bullish
        Scenes.managing Fixture.hunter_io = (r, s', i')
      /\ posted (log i') = (new ++ posted (log Fixture.hunter_io))%list
      /\ Forall closing_payload new
      /\ Book.orderbook_history s' = Book.orderbook_history Scenes.managing.
Proof.
  intros w.
  assert (Ho : Hunter.position_open (Book.core Scenes.managing) = true)
    by (vm_compute; reflexivity).
  split; [exact Ho|].
  exact (open_position_is_only_managed (account := Fixture.account) w Scenes.bullish
           Scenes.managing Fixture.hunter_io Ho).
Defined.

(** Property X16, on a file that assigns the key twice. *)
Lemma private_key_is_last_assignment_sample :
  Env.strip Scenes.env_key_line = (Env.key_name ++ "=" ++ "0xabc=1")%string
  /\ (forall l', In l' Scenes.env_tail ->
                 forall v', Env.strip l' <> (Env.key_name ++ "=" ++ v')%string)
  /\ Env.private_key (Scenes.env_head ++ Scenes.env_key_line :: Scenes.env_tail)
     = Some "0xabc=1"%string.
Proof.
  assert (Hl : Env.strip Scenes.env_key_line = (Env.key_name ++ "=" ++ "0xabc=1")%string)
    by (vm_compute; reflexivity).
  assert (Hrest : forall l', In l' Scenes.env_tail ->
                             forall v', Env.strip l' <> (Env.key_name ++ "=" ++ v')%string).
  { intros l' [<-|[<-|[]]] v'; vm_compute; discriminate. }
  split; [exact Hl|]. split; [exact Hrest|].
  exact (private_key_is_last_assignment Scenes.env_head Scenes.env_tail
           Scenes.env_key_line "0xabc=1" Hl Hrest).
Defined.

(** Property X17, on a feed that does not quote SOL. *)
Lemma price_lookup_without_quote_sample :
  let w := Scenes.feed_without_sol in
  ((exists e, all_mids w (mids_calls io_start) = Exc e)
   \/ (exists kv, all_mids w (mids_calls io_start) = Val (PDict kv)
                  /\ Py.lookup "SOL" kv = None))
  /\ ColorTrader.get_current_price w ColorTrader.initial io_start
     = (Val None, ColorTrader.initial, io_after_mids io_start)
  /\ Hunter.get_current_price w Hunter.initial io_start
     = (Val None, Hunter.initial, io_after_mids io_start)
  /\ (exists e, Strategy.get_current_price w tt io_start = (Exc e, tt, io_after_mids io_start))
  /\ (forall n, exists e,
         Strategy.execute_scalping_strategy (account := Fixture.account) w n tt io_start
         = (Exc e, tt, io_after_mids io_start)).
Proof.
  intros w.
  assert (H : (exists e, all_mids w (mids_calls io_start) = Exc e)
              \/ (exists kv, all_mids w (mids_calls io_start) = Val (PDict kv)
                             /\ Py.lookup "SOL" kv = None)).
  { right. exists [("BTC", PStr "103500.5")]%string. split; reflexivity. }
  split; [exact H|].
  exact (price_lookup_without_quote (account := Fixture.account) w ColorTrader.initial
           Hunter.initial io_start H).
Defined.

(** Property X18, on a flat trader whose entry is filled. *)
Lemma flip_from_flat_enters_directly_sample :
  let w := Fixture.scene 3 [Fixture.accepted [Fixture.filled]] [] in
  ColorTrader.position_open ColorTrader.initial = false
  /\ exists r s' i',
      ColorTrader.flip_position (account := Fixture.account) w long ColorTrader.initial
        io_start = (Val r, s', i')
      /\ ((r = false /\ s' = ColorTrader.initial
           /\ history i' = (history io_start ++ [Mids])%list)
          \/ exists e,
              opens long e = true
              /\ history i' = (history io_start ++ [Mids; Post e])%list
              /\ (confirms_fill (exchange w (posts io_start) e) = false ->
                  r = false /\ s' = ColorTrader.initial)).
Proof.
  intros w. split; [reflexivity|].
  exact (flip_from_flat_enters_directly (account := Fixture.account) w long
           ColorTrader.initial io_start eq_refl).
Defined.
